(** * Shopping list page (src/app/page.tsx): a shallow embedding and its properties

    The page is one React component.  Its state cells ([useState]) become the
    fields of a record, every handler ([addItem], [toggleCompleted],
    [removeItem], [startEdit], [saveEdit]) becomes a function from state to
    state, and the two effects (load from and persist to [localStorage]) become
    functions over the stored text.

    JavaScript data is modelled as the engine has it: a string is a sequence of
    UTF-16 code units, a number is an IEEE 754 binary64 value (the Standard
    Library's [spec_float] at precision 53), and the result of [JSON.parse] is
    an untyped value. *)

From Stdlib Require Import List ZArith NArith Bool Lia String Ascii.
From Stdlib Require Import Floats.SpecFloat.
From Stdlib Require DecimalN.
Import ListNotations.

Set Warnings "-register-all".

(* ===================================================================== *)
(** * Part I.  Definitions                                                *)
(* ===================================================================== *)

(** ** JavaScript strings *)

(** A code unit, 0 .. 65535. *)
Definition char16 := N.

Definition jsstring := list char16.

(** A string literal of the source (ASCII only). *)
Definition lit (s : string) : jsstring :=
  map N_of_ascii (list_ascii_of_string s).

(** [a === b] on strings: same code units. *)
Fixpoint str_eqb (a b : jsstring) : bool :=
  match a, b with
  | [], [] => true
  | x :: a', y :: b' => N.eqb x y && str_eqb a' b'
  | _, _ => false
  end.

(** ToBoolean of a string: only the empty string is falsy. *)
Definition truthy (s : jsstring) : bool :=
  match s with
  | [] => false
  | _ :: _ => true
  end.

(** WhiteSpace and LineTerminator of ECMAScript, the code points that
    [String.prototype.trim] strips: TAB, LF, VT, FF, CR, SP, NBSP, U+1680,
    U+2000..U+200A, U+2028, U+2029, U+202F, U+205F, U+3000, U+FEFF. *)
Definition is_white_space (c : char16) : bool :=
  existsb (N.eqb c)
    [9; 10; 11; 12; 13; 32; 160; 5760; 8232; 8233; 8239; 8287; 12288; 65279]%N
  || (N.leb 8192 c && N.leb c 8202).

Fixpoint trimStart (s : jsstring) : jsstring :=
  match s with
  | [] => []
  | c :: r => if is_white_space c then trimStart r else s
  end.

Definition trimEnd (s : jsstring) : jsstring := rev (trimStart (rev s)).

(** [s.trim()] *)
Definition trim (s : jsstring) : jsstring := trimEnd (trimStart s).

(** ** JavaScript numbers *)

Definition prec : Z := 53.
Definition emax : Z := 1024.

(** A Number: binary64, with both zeros, both infinities and NaN. *)
Definition number := spec_float.

(** The Number of an integer literal (rounded to nearest, ties to even). *)
Definition num_of_Z (z : Z) : number := binary_normalize prec emax z 0 false.

Definition num_zero : number := S754_zero false.
Definition num_one : number := num_of_Z 1.

(** The double 0.5, that is 2^52 * 2^-53. *)
Definition num_half : number := S754_finite false 4503599627370496 (-53).

(** [Number.isFinite(x)] for a value that is a Number. *)
Definition Number_isFinite (x : number) : bool :=
  match x with
  | S754_zero _ | S754_finite _ _ _ => true
  | S754_infinity _ | S754_nan => false
  end.

(** [x <= y] and [x < y]; both are false when an operand is NaN. *)
Definition num_leb (x y : number) : bool := SFleb x y.
Definition num_ltb (x y : number) : bool := SFltb x y.

(** [Math.floor(x)]: NaN, the infinities and the zeros are returned as they
    are; a finite [m * 2^e] with [e >= 0] is an integer already; otherwise the
    integer below is [m >> -e] (an arithmetic shift rounds towards minus
    infinity), which is again a double. *)
Definition Math_floor (x : number) : number :=
  match x with
  | S754_finite s m e =>
      if (0 <=? e)%Z then x
      else binary_normalize prec emax
             (Z.shiftr (cond_Zopp s (Zpos m)) (- e)) 0 s
  | _ => x
  end.

(** The mathematical value of an integral Number, [None] when the Number is
    not an integer (a fraction, an infinity or NaN). *)
Definition num_to_Z (x : number) : option Z :=
  match x with
  | S754_zero _ => Some 0%Z
  | S754_finite s m e =>
      if (0 <=? e)%Z then Some (cond_Zopp s (Zpos m * 2 ^ e))%Z
      else if (Zpos m mod 2 ^ (- e) =? 0)%Z
           then Some (cond_Zopp s (Zpos m / 2 ^ (- e)))%Z
           else None
  | _ => None
  end.

(** ** JSON: the values, [JSON.parse] and [JSON.stringify] *)

(** What [JSON.parse] can return.  An object is the list of its own
    properties in the order [OrdinaryOwnPropertyKeys] enumerates them. *)
Inductive value : Type :=
| VNull
| VBool (b : bool)
| VNum (x : number)
| VStr (s : jsstring)
| VArr (l : list value)
| VObj (l : list (jsstring * value)).

(** *** Decimal digits *)

Definition is_digit (c : char16) : bool := N.leb 48 c && N.leb c 57.

(** The value of a digit list, most significant digit first. *)
Definition of_digits (ds : list N) : N :=
  fold_left (fun a d => 10 * a + d)%N ds 0%N.

Fixpoint uint_digits (u : Decimal.uint) : list N :=
  match u with
  | Decimal.Nil => []
  | Decimal.D0 u' => 0 :: uint_digits u'
  | Decimal.D1 u' => 1 :: uint_digits u'
  | Decimal.D2 u' => 2 :: uint_digits u'
  | Decimal.D3 u' => 3 :: uint_digits u'
  | Decimal.D4 u' => 4 :: uint_digits u'
  | Decimal.D5 u' => 5 :: uint_digits u'
  | Decimal.D6 u' => 6 :: uint_digits u'
  | Decimal.D7 u' => 7 :: uint_digits u'
  | Decimal.D8 u' => 8 :: uint_digits u'
  | Decimal.D9 u' => 9 :: uint_digits u'
  end%N.

(** The decimal digits of [n], no leading zero ([0] has the one digit 0). *)
Definition digits_of (n : N) : list N := uint_digits (N.to_uint n).

Definition digit_char (d : N) : char16 := (48 + d)%N.
Definition digit_val (c : char16) : N := (c - 48)%N.

Definition digit_chars (n : N) : jsstring := map digit_char (digits_of n).

(** The longest prefix of digit characters, as digits, and what follows. *)
Fixpoint span_digits (s : jsstring) : list N * jsstring :=
  match s with
  | [] => ([], [])
  | c :: r =>
      if is_digit c
      then let '(ds, r') := span_digits r in (digit_val c :: ds, r')
      else ([], s)
  end.

(** *** From a decimal numeral to a Number *)

(** The Number value of [m * 10^e10], rounded to nearest, ties to even: an
    integer is rounded by [binary_normalize]; a quotient [m / 10^-e10] is
    divided with a sticky remainder and then rounded once. *)
Definition num_of_decimal (neg : bool) (m : N) (e10 : Z) : number :=
  match m with
  | N0 => S754_zero neg
  | Npos p =>
      if (0 <=? e10)%Z then
        binary_normalize prec emax (cond_Zopp neg (Zpos p * 10 ^ e10)) 0 neg
      else
        let '(q, e', l) :=
          SFdiv_core_binary prec emax (Zpos p) 0 (10 ^ (- e10)) 0 in
        binary_round_aux prec emax neg q e' l
  end.

(** The same Number, bit for bit (as [Object.is]). *)
Definition num_same (x y : number) : bool :=
  match x, y with
  | S754_zero a, S754_zero b => Bool.eqb a b
  | S754_infinity a, S754_infinity b => Bool.eqb a b
  | S754_nan, S754_nan => true
  | S754_finite a m e, S754_finite b m' e' =>
      Bool.eqb a b && Pos.eqb m m' && Z.eqb e e'
  | _, _ => false
  end.

(** *** [Number::toString] (radix 10) *)

(** [x / 10^p] as a fraction, for [x = m * 2^e]. *)
Definition scaled (m : positive) (e p : Z) : Z * Z :=
  let num := if (0 <=? e)%Z then (Zpos m * 2 ^ e)%Z else Zpos m in
  let den := if (0 <=? e)%Z then 1%Z else (2 ^ (- e))%Z in
  if (0 <=? p)%Z then (num, den * 10 ^ p)%Z else (num * 10 ^ (- p), den)%Z.

(** Drop the trailing zeros of [s], raising the exponent. *)
Fixpoint strip_zeros (fuel : nat) (s : N) (p : Z) : N * Z :=
  match fuel with
  | O => (s, p)
  | S f =>
      if negb (N.eqb s 0) && N.eqb (s mod 10) 0
      then strip_zeros f (s / 10)%N (p + 1)%Z
      else (s, p)
  end.

Definition normal_form (s : Z) (p : Z) : N * Z :=
  strip_zeros (N.to_nat (N.size (Z.to_N s))) (Z.to_N s) p.

(** Does the decimal [s * 10^p] denote [x]?  *)
Definition denotes (x : number) (sp : N * Z) : bool :=
  num_same (num_of_decimal false (fst sp) (snd sp)) x.

(** The decimals with digits down to [10^p] that denote [x = m * 2^e]: the
    one below and the one above [x]; of two, the nearer, the even one on a
    tie. *)
Definition candidate (m : positive) (e p : Z) : option (N * Z) :=
  let x := S754_finite false m e in
  let '(A, B) := scaled m e p in
  let '(lo, r) := Z.div_eucl A B in
  let c_lo := normal_form lo p in
  let c_hi := normal_form (lo + 1) p in
  match denotes x c_lo, denotes x c_hi with
  | true, true =>
      if (2 * r <? B)%Z then Some c_lo
      else if (B <? 2 * r)%Z then Some c_hi
      else if Z.even lo then Some c_lo else Some c_hi
  | true, false => Some c_lo
  | false, true => Some c_hi
  | false, false => None
  end.

(** [x < 10^n] for [x = m * 2^e]. *)
Definition below_pow10 (m : positive) (e n : Z) : bool :=
  let '(A, B) := scaled m e n in (A <? B)%Z.

Fixpoint climb (fuel : nat) (m : positive) (e n : Z) : Z :=
  match fuel with
  | O => n
  | S f => if below_pow10 m e n then n else climb f m e (n + 1)%Z
  end.

(** The [n] with [10^(n-1) <= x < 10^n]. *)
Definition dec_exponent (m : positive) (e : Z) : Z :=
  let start := Z.min 0 e in
  climb (Z.to_nat (Zpos (digits2_pos m) + Z.abs e + 2)) m e start.

(** The exact decimal expansion of [x = m * 2^e]. *)
Definition exact_decimal (m : positive) (e : Z) : N * Z :=
  match num_to_Z (S754_finite false m e) with
  | Some z => (Z.to_N z, 0%Z)
  | None => (Npos m * 5 ^ Z.to_N (- e), e)%N
  end.

(** The first exponent, from [p] downwards, at which a decimal denotes [x];
    the exact expansion when the steps run out (they do not: it is found at
    the last step at the latest). *)
Fixpoint shortest_from (fuel : nat) (m : positive) (e p : Z) : N * Z :=
  match fuel with
  | O => exact_decimal m e
  | S f =>
      match candidate m e p with
      | Some sp => sp
      | None => shortest_from f m e (p - 1)%Z
      end
  end.

(** The [s] and [n - k] of [Number::toString]: the shortest decimal
    [s * 10^(n-k)] whose Number value is [x]. *)
Definition shortest_decimal (m : positive) (e : Z) : N * Z :=
  let n0 := dec_exponent m e in
  shortest_from (Z.to_nat (n0 - Z.min 0 e)) m e (n0 - 1)%Z.

(** Steps 6 to 10 of [Number::toString]: the text for the digits of [s] and
    the exponent [n = p + k]. *)
Definition format_decimal (s : N) (p : Z) : jsstring :=
  let ds := digit_chars s in
  let k := Z.of_nat (List.length ds) in
  let n := (p + k)%Z in
  if (k <=? n)%Z && (n <=? 21)%Z then
    ds ++ repeat 48%N (Z.to_nat (n - k))
  else if (0 <? n)%Z && (n <=? 21)%Z then
    firstn (Z.to_nat n) ds ++ 46%N :: skipn (Z.to_nat n) ds
  else if (-6 <? n)%Z && (n <=? 0)%Z then
    48%N :: 46%N :: repeat 48%N (Z.to_nat (- n)) ++ ds
  else
    let ex := (n - 1)%Z in
    let etxt :=
      101%N :: (if (ex <? 0)%Z then 45%N else 43%N)
            :: digit_chars (Z.to_N (Z.abs ex)) in
    match ds with
    | [] => etxt
    | [d] => d :: etxt
    | d :: rest => d :: 46%N :: rest ++ etxt
    end.

Definition Number_toString (x : number) : jsstring :=
  match x with
  | S754_nan => lit "NaN"
  | S754_zero _ => lit "0"
  | S754_infinity s => (if s then [45%N] else []) ++ lit "Infinity"
  | S754_finite s m e =>
      let '(d, p) := shortest_decimal m e in
      (if s then [45%N] else []) ++ format_decimal d p
  end.

(** *** [JSON.stringify] *)

Definition hex_char (d : N) : char16 :=
  if N.ltb d 10 then (48 + d)%N else (87 + d)%N.

(** [UnicodeEscape]: backslash, u and four lowercase hexadecimal digits. *)
Definition unicode_escape (c : char16) : jsstring :=
  [92; 117; hex_char ((c / 4096) mod 16); hex_char ((c / 256) mod 16);
   hex_char ((c / 16) mod 16); hex_char (c mod 16)]%N.

Definition is_high_surrogate (c : char16) : bool := N.leb 55296 c && N.leb c 56319.
Definition is_low_surrogate (c : char16) : bool := N.leb 56320 c && N.leb c 57343.

(** One code unit that is not half of a pair, as [QuoteJSONString] writes
    it: the short escapes, a unicode escape for the other control characters
    and for a surrogate, the unit itself otherwise. *)
Definition quote_unit (c : char16) : jsstring :=
  (if N.eqb c 8 then [92; 98]
   else if N.eqb c 9 then [92; 116]
   else if N.eqb c 10 then [92; 110]
   else if N.eqb c 12 then [92; 102]
   else if N.eqb c 13 then [92; 114]
   else if N.eqb c 34 then [92; 34]
   else if N.eqb c 92 then [92; 92]
   else if N.ltb c 32 || is_high_surrogate c || is_low_surrogate c
        then unicode_escape c
   else [c])%N.

(** The code points of the string in turn: a high surrogate followed by a
    low one is one code point and is written as it is. *)
Fixpoint quote_units (s : jsstring) : jsstring :=
  match s with
  | [] => []
  | c :: r =>
      match r with
      | d :: r' =>
          if is_high_surrogate c && is_low_surrogate d
          then c :: d :: quote_units r'
          else quote_unit c ++ quote_units r
      | [] => quote_unit c
      end
  end.

(** [QuoteJSONString] *)
Definition quote (s : jsstring) : jsstring := 34%N :: quote_units s ++ [34%N].

(** The elements or members of a composite, separated by commas. *)
Fixpoint join (parts : list jsstring) : jsstring :=
  match parts with
  | [] => []
  | [p] => p
  | p :: ps => p ++ 44%N :: join ps
  end.

(** [SerializeJSONProperty], without a gap. *)
Fixpoint JSON_stringify (v : value) : jsstring :=
  match v with
  | VNull => lit "null"
  | VBool true => lit "true"
  | VBool false => lit "false"
  | VNum x => if Number_isFinite x then Number_toString x else lit "null"
  | VStr s => quote s
  | VArr l => 91%N :: join (map JSON_stringify l) ++ [93%N]
  | VObj l =>
      123%N
        :: join (map (fun kv => quote (fst kv) ++ 58%N :: JSON_stringify (snd kv)) l)
        ++ [125%N]
  end.

(** *** [JSON.parse] *)

(** JSON white space: tab, line feed, carriage return, space. *)
Definition is_json_ws (c : char16) : bool :=
  N.eqb c 9 || N.eqb c 10 || N.eqb c 13 || N.eqb c 32.

Fixpoint skip_ws (s : jsstring) : jsstring :=
  match s with
  | [] => []
  | c :: r => if is_json_ws c then skip_ws r else s
  end.

Definition hex_val (c : char16) : option N :=
  if N.leb 48 c && N.leb c 57 then Some (c - 48)%N
  else if N.leb 97 c && N.leb c 102 then Some (c - 87)%N
  else if N.leb 65 c && N.leb c 70 then Some (c - 55)%N
  else None.

Definition hex4 (a b c d : char16) : option char16 :=
  match hex_val a, hex_val b, hex_val c, hex_val d with
  | Some x, Some y, Some z, Some w => Some (((x * 16 + y) * 16 + z) * 16 + w)%N
  | _, _, _, _ => None
  end.

(** What a backslash and the character [c] stand for. *)
Definition unescape (c : char16) : option char16 :=
  if N.eqb c 34 then Some 34%N
  else if N.eqb c 92 then Some 92%N
  else if N.eqb c 47 then Some 47%N
  else if N.eqb c 98 then Some 8%N
  else if N.eqb c 102 then Some 12%N
  else if N.eqb c 110 then Some 10%N
  else if N.eqb c 114 then Some 13%N
  else if N.eqb c 116 then Some 9%N
  else None.

Definition cons_char (c : char16) (r : option (jsstring * jsstring)) :
  option (jsstring * jsstring) :=
  match r with
  | Some (s, rest) => Some (c :: s, rest)
  | None => None
  end.

(** The characters of a string literal after its opening quote, and what
    follows the closing quote. *)
Fixpoint parse_chars (s : jsstring) : option (jsstring * jsstring) :=
  match s with
  | [] => None
  | c :: r =>
      if N.eqb c 34 then Some ([], r)
      else if N.eqb c 92 then
        match r with
        | [] => None
        | e :: t =>
            if N.eqb e 117 then
              match t with
              | a :: b :: c' :: d :: t' =>
                  match hex4 a b c' d with
                  | Some u => cons_char u (parse_chars t')
                  | None => None
                  end
              | _ => None
              end
            else
              match unescape e with
              | Some u => cons_char u (parse_chars t)
              | None => None
              end
        end
      else if N.ltb c 32 then None
      else cons_char c (parse_chars r)
  end.

(** The end of a number literal: an optional exponent part. *)
Definition parse_exponent (neg : bool) (ints fracs : list N) (s : jsstring) :
  option (number * jsstring) :=
  let mant := of_digits (ints ++ fracs) in
  let scale := Z.of_nat (List.length fracs) in
  match s with
  | c :: r =>
      if N.eqb c 101 || N.eqb c 69 then
        let '(eneg, r1) :=
          match r with
          | sg :: t =>
              if N.eqb sg 43 then (false, t)
              else if N.eqb sg 45 then (true, t)
              else (false, r)
          | [] => (false, r)
          end in
        match span_digits r1 with
        | ([], _) => None
        | (es, r2) =>
            Some (num_of_decimal neg mant
                    (cond_Zopp eneg (Z.of_N (of_digits es)) - scale)%Z, r2)
        end
      else Some (num_of_decimal neg mant (- scale)%Z, s)
  | [] => Some (num_of_decimal neg mant (- scale)%Z, s)
  end.

(** After the integer part: an optional fraction part. *)
Definition parse_fraction (neg : bool) (ints : list N) (s : jsstring) :
  option (number * jsstring) :=
  match s with
  | c :: r =>
      if N.eqb c 46 then
        match span_digits r with
        | ([], _) => None
        | (fs, r1) => parse_exponent neg ints fs r1
        end
      else parse_exponent neg ints [] s
  | [] => parse_exponent neg ints [] s
  end.

(** The integer part, [0] or a digit from 1 to 9 followed by digits, and
    what follows it. *)
Definition parse_integer (neg : bool) (s : jsstring) : option (number * jsstring) :=
  match s with
  | [] => None
  | c :: r =>
      if N.eqb c 48 then parse_fraction neg [0%N] r
      else if is_digit c then
        let '(ds, r1) := span_digits r in
        parse_fraction neg (digit_val c :: ds) r1
      else None
  end.

(** A number literal: an optional minus sign, then the number. *)
Definition parse_number (s : jsstring) : option (number * jsstring) :=
  match s with
  | [] => None
  | c :: r => if N.eqb c 45 then parse_integer true r else parse_integer false s
  end.

(** [word] at the head of [s]. *)
Fixpoint strip_prefix (word s : jsstring) : option jsstring :=
  match word, s with
  | [], _ => Some s
  | w :: word', c :: s' => if N.eqb w c then strip_prefix word' s' else None
  | _ :: _, [] => None
  end.

(** An array index: a canonical numeral below 2^32 - 1.  Keys that are array
    indices come first among the own properties, in ascending order. *)
Definition array_index (k : jsstring) : option N :=
  match k with
  | [] => None
  | c :: r =>
      if forallb is_digit k && (negb (N.eqb c 48) || negb (truthy r)) then
        let n := of_digits (map digit_val k) in
        if N.leb n 4294967294 then Some n else None
      else None
  end.

(** Insert a new array-index key [n] at its place among the index keys. *)
Fixpoint insert_index (n : N) (k : jsstring) (v : value)
         (o : list (jsstring * value)) : list (jsstring * value) :=
  match o with
  | [] => [(k, v)]
  | (k', v') :: o' =>
      match array_index k' with
      | Some n' =>
          if N.ltb n n' then (k, v) :: o else (k', v') :: insert_index n k v o'
      | None => (k, v) :: o
      end
  end.

Fixpoint has_key (k : jsstring) (o : list (jsstring * value)) : bool :=
  match o with
  | [] => false
  | (k', _) :: o' => str_eqb k' k || has_key k o'
  end.

Fixpoint replace_key (k : jsstring) (v : value) (o : list (jsstring * value)) :
  list (jsstring * value) :=
  match o with
  | [] => []
  | (k', v') :: o' =>
      if str_eqb k' k then (k', v) :: o' else (k', v') :: replace_key k v o'
  end.

(** [CreateDataProperty]: an existing key keeps its place and takes the new
    value; a new key goes to its place in the enumeration order. *)
Definition obj_put (o : list (jsstring * value)) (kv : jsstring * value) :
  list (jsstring * value) :=
  let '(k, v) := kv in
  if has_key k o then replace_key k v o
  else
    match array_index k with
    | Some n => insert_index n k v o
    | None => o ++ [(k, v)]
    end.

Definition build_object (members : list (jsstring * value)) : list (jsstring * value) :=
  fold_left obj_put members [].

Section Composite.
(** The parser of one value, for the elements and members. *)
Variable parse_one : jsstring -> option (value * jsstring).

(** The elements of an array after [[] or a comma, up to the closing []]. *)
Fixpoint parse_elements (n : nat) (s : jsstring) : option (list value * jsstring) :=
  match n with
  | O => None
  | S n' =>
      match parse_one s with
      | None => None
      | Some (v, r) =>
          match skip_ws r with
          | c :: r' =>
              if N.eqb c 44 then
                match parse_elements n' r' with
                | Some (vs, r'') => Some (v :: vs, r'')
                | None => None
                end
              else if N.eqb c 93 then Some ([v], r')
              else None
          | [] => None
          end
      end
  end.

(** The members of an object after [{] or a comma, up to the closing [}]. *)
Fixpoint parse_members (n : nat) (s : jsstring) :
  option (list (jsstring * value) * jsstring) :=
  match n with
  | O => None
  | S n' =>
      match skip_ws s with
      | q :: r =>
          if N.eqb q 34 then
            match parse_chars r with
            | None => None
            | Some (k, r1) =>
                match skip_ws r1 with
                | c :: r2 =>
                    if N.eqb c 58 then
                      match parse_one r2 with
                      | None => None
                      | Some (v, r3) =>
                          match skip_ws r3 with
                          | c' :: r4 =>
                              if N.eqb c' 44 then
                                match parse_members n' r4 with
                                | Some (ms, r5) => Some ((k, v) :: ms, r5)
                                | None => None
                                end
                              else if N.eqb c' 125 then Some ([(k, v)], r4)
                              else None
                          | [] => None
                          end
                      end
                    else None
                | [] => None
                end
            end
          else None
      | [] => None
      end
  end.
End Composite.

(** One JSON value at the head of [s], after white space.  [fuel] bounds the
    nesting depth. *)
Fixpoint parse_value (fuel : nat) (s : jsstring) : option (value * jsstring) :=
  match fuel with
  | O => None
  | S f =>
      match skip_ws s with
      | [] => None
      | c :: r =>
          if N.eqb c 123 then
            match skip_ws r with
            | c' :: r' =>
                if N.eqb c' 125 then Some (VObj [], r')
                else
                  match parse_members (parse_value f) (List.length r) r with
                  | Some (ms, r'') => Some (VObj (build_object ms), r'')
                  | None => None
                  end
            | [] => None
            end
          else if N.eqb c 91 then
            match skip_ws r with
            | c' :: r' =>
                if N.eqb c' 93 then Some (VArr [], r')
                else
                  match parse_elements (parse_value f) (List.length r) r with
                  | Some (vs, r'') => Some (VArr vs, r'')
                  | None => None
                  end
            | [] => None
            end
          else if N.eqb c 34 then
            match parse_chars r with
            | Some (str, r') => Some (VStr str, r')
            | None => None
            end
          else if N.eqb c 116 then
            match strip_prefix (lit "rue") r with
            | Some r' => Some (VBool true, r')
            | None => None
            end
          else if N.eqb c 102 then
            match strip_prefix (lit "alse") r with
            | Some r' => Some (VBool false, r')
            | None => None
            end
          else if N.eqb c 110 then
            match strip_prefix (lit "ull") r with
            | Some r' => Some (VNull, r')
            | None => None
            end
          else if N.eqb c 45 || is_digit c then
            match parse_number (c :: r) with
            | Some (x, r') => Some (VNum x, r')
            | None => None
            end
          else None
      end
  end.

(** [JSON.parse(text)]: one value and nothing but white space after it;
    [None] stands for the [SyntaxError] it throws. *)
Definition JSON_parse (text : jsstring) : option value :=
  match parse_value (S (List.length text)) text with
  | Some (v, r) =>
      match skip_ws r with
      | [] => Some v
      | _ :: _ => None
      end
  | None => None
  end.

(** ** The data model *)

Module Item.
(** [type Item] *)
Record t : Type := mk {
  id : jsstring;
  name : jsstring;
  quantity : number;
  category : jsstring;
  completed : bool;
  createdAt : number
}.
End Item.
Abbreviation Item := Item.t.

Module Partial.
(** [Partial<Item>]: every field may be absent ([undefined]). *)
Record t : Type := mk {
  id : option jsstring;
  name : option jsstring;
  quantity : option number;
  category : option jsstring;
  completed : option bool;
  createdAt : option number
}.
End Partial.

(** The fixed set of categories: the [value] attributes of the nine
    [SelectItem]s of both forms.  (The constant [CATEGORIES] of the source
    holds their labels and is not used.) *)
Definition category_values : list jsstring :=
  map lit
    ["produce"; "dairy"; "bakery"; "meat"; "pantry"; "beverages"; "snacks";
     "household"; "personal-care"]%string.

(** [a ?? b] *)
Definition nullish {A : Type} (a : option A) (b : A) : A :=
  match a with
  | Some x => x
  | None => b
  end.

(** ** The component state

    One field per [useState] cell of [ShoppingListPage].  The collection is a
    parameter: the handlers work on [Item[]], while the load effect stores
    whatever [JSON.parse] returned. *)

Record PageState (C : Type) : Type := mkPage {
  items : C;
  loading : bool;
  error : option jsstring;
  name : jsstring;
  quantity : number;
  category : jsstring;
  editing : option Item
}.

Arguments mkPage {C}.
Arguments items {C}.
Arguments loading {C}.
Arguments error {C}.
Arguments name {C}.
Arguments quantity {C}.
Arguments category {C}.
Arguments editing {C}.

Section Setters.
Context {C : Type}.

Definition setItems {D : Type} (f : C -> D) (st : PageState C) : PageState D :=
  mkPage (f (items st)) (loading st) (error st) (name st) (quantity st)
         (category st) (editing st).

Definition setLoading (b : bool) (st : PageState C) : PageState C :=
  mkPage (items st) b (error st) (name st) (quantity st) (category st)
         (editing st).

Definition setError (e : option jsstring) (st : PageState C) : PageState C :=
  mkPage (items st) (loading st) e (name st) (quantity st) (category st)
         (editing st).

Definition setName (n : jsstring) (st : PageState C) : PageState C :=
  mkPage (items st) (loading st) (error st) n (quantity st) (category st)
         (editing st).

Definition setQuantity (q : number) (st : PageState C) : PageState C :=
  mkPage (items st) (loading st) (error st) (name st) q (category st)
         (editing st).

Definition setCategory (c : jsstring) (st : PageState C) : PageState C :=
  mkPage (items st) (loading st) (error st) (name st) (quantity st) c
         (editing st).

Definition setEditing (e : option Item) (st : PageState C) : PageState C :=
  mkPage (items st) (loading st) (error st) (name st) (quantity st)
         (category st) e.

(** [resetForm] *)
Definition resetForm (st : PageState C) : PageState C :=
  setError None (setCategory (lit "produce") (setQuantity num_one (setName [] st))).
End Setters.

(** The state of the first render. *)
Definition initial {C : Type} (empty : C) : PageState C :=
  mkPage empty true None [] num_one (lit "produce") None.

Definition Page := PageState (list Item).

(** ** The handlers *)

Definition msg_name_required : jsstring := lit "Please enter an item name.".
Definition msg_quantity : jsstring := lit "Quantity must be a positive number.".
Definition msg_category : jsstring := lit "Please select a category.".
Definition msg_name_empty : jsstring := lit "Item name cannot be empty.".

(** [addItem].  [fresh] is what [safeId()] returns and [now] what
    [Date.now()] returns; both are read on the success path only. *)
Definition addItem (fresh : jsstring) (now : number) (st : Page) : Page :=
  let st0 := setError None st in
  if negb (truthy (trim (name st))) then
    setError (Some msg_name_required) st0
  else if negb (Number_isFinite (quantity st)) || num_leb (quantity st) num_zero then
    setError (Some msg_quantity) st0
  else if negb (truthy (category st)) then
    setError (Some msg_category) st0
  else
    let newItem :=
      Item.mk fresh (trim (name st)) (Math_floor (quantity st)) (category st)
              false now in
    resetForm (setItems (fun prev => newItem :: prev) st0).

(** [{ ...it, completed: !it.completed }] *)
Definition flip_completed (it : Item) : Item :=
  Item.mk (Item.id it) (Item.name it) (Item.quantity it) (Item.category it)
          (negb (Item.completed it)) (Item.createdAt it).

(** [prev.map((it) => (it.id === id ? f(it) : it))], the update of both
    [toggleCompleted] and [saveEdit]. *)
Definition update_at (id : jsstring) (f : Item -> Item) (prev : list Item) :
  list Item :=
  map (fun it => if str_eqb (Item.id it) id then f it else it) prev.

(** [toggleCompleted] *)
Definition toggleCompleted (id : jsstring) (st : Page) : Page :=
  setItems (update_at id flip_completed) st.

(** [removeItem] *)
Definition removeItem (id : jsstring) (st : Page) : Page :=
  setItems (fun prev => filter (fun it => negb (str_eqb (Item.id it) id)) prev) st.

(** [startEdit] *)
Definition startEdit (item : Item) (st : Page) : Page := setEditing (Some item) st.

(** [{ ...it, name: n, quantity: q, category: c }] *)
Definition with_fields (it : Item) (n : jsstring) (q : number) (c : jsstring) : Item :=
  Item.mk (Item.id it) n q c (Item.completed it) (Item.createdAt it).

(** The three values [saveEdit] computes first. *)
Definition nextName (updates : Partial.t) (e : Item) : jsstring :=
  nullish (Partial.name updates) (Item.name e).
Definition nextQty (updates : Partial.t) (e : Item) : number :=
  nullish (Partial.quantity updates) (Item.quantity e).
Definition nextCat (updates : Partial.t) (e : Item) : jsstring :=
  nullish (Partial.category updates) (Item.category e).

(** [saveEdit] *)
Definition saveEdit (updates : Partial.t) (st : Page) : Page :=
  match editing st with
  | None => st
  | Some e =>
      let n := nextName updates e in
      let q := nextQty updates e in
      let c := nextCat updates e in
      if negb (truthy (trim n)) then setError (Some msg_name_empty) st
      else if negb (Number_isFinite q) || num_leb q num_zero then
        setError (Some msg_quantity) st
      else
        setEditing None
          (setItems
             (update_at (Item.id e)
                (fun it => with_fields it (trim n) (Math_floor q) c))
             st)
  end.

(** What the "Save changes" button of [EditForm] passes to [onSave]. *)
Definition form_updates (n : jsstring) (q : number) (c : jsstring) : Partial.t :=
  Partial.mk None (Some n) (Some q) (Some c) None None.

(** [remainingCount] *)
Definition remainingCount (st : Page) : nat :=
  List.length (filter (fun i => negb (Item.completed i)) (items st)).

(** ** The effects *)

(** The object an [Item] is at run time: the six properties, in the order
    the object literal of [addItem] creates them (the spreads of
    [toggleCompleted] and [saveEdit] keep it). *)
Definition encode_item (it : Item) : value :=
  VObj
    [(lit "id", VStr (Item.id it));
     (lit "name", VStr (Item.name it));
     (lit "quantity", VNum (Item.quantity it));
     (lit "category", VStr (Item.category it));
     (lit "completed", VBool (Item.completed it));
     (lit "createdAt", VNum (Item.createdAt it))].

Definition encode_items (l : list Item) : value := VArr (map encode_item l).

(** How an expression that may throw completes. *)
Inductive completion (A : Type) : Type :=
| Return (a : A)
| Throw.

Arguments Return {A}.
Arguments Throw {A}.

Definition msg_load_failed : jsstring :=
  lit "Failed to load items. Local storage might be unavailable.".

(** The body of the timer of the load effect.  [got] is how
    [localStorage.getItem("shopping-items")] completes: a string, [null]
    ([None]) when the key is absent, or an exception.  The state holds what
    [JSON.parse] returned, unchecked. *)
Definition load_effect (got : completion (option jsstring))
           (st : PageState value) : PageState value :=
  let st1 :=
    match got with
    | Throw => setError (Some msg_load_failed) st
    | Return None => st
    | Return (Some raw) =>
        if truthy raw then
          match JSON_parse raw with
          | Some v => setItems (fun _ => v) st
          | None => setError (Some msg_load_failed) st
          end
        else st
    end in
  setLoading false st1.

(** The text the persist effect passes to [localStorage.setItem]. *)
Definition persisted_text (l : list Item) : jsstring :=
  JSON_stringify (encode_items l).

(** The persist effect on the entry of the key, [stored] before it runs: the
    text replaces it, unless [setItem] throws ([writable = false]), which is
    caught and ignored. *)
Definition persist_effect (writable : bool) (st : Page)
           (stored : option jsstring) : option jsstring :=
  if writable then Some (persisted_text (items st)) else stored.

(** ** Predicates of the statements *)

(** What [trimStart] returns starts with no white space. *)
Definition clean_start (s : jsstring) : Prop :=
  match s with
  | [] => True
  | c :: _ => is_white_space c = false
  end.

(** The first character of what follows a token is no digit. *)
Definition no_digit_ahead (rest : jsstring) : Prop :=
  match rest with
  | [] => True
  | c :: _ => is_digit c = false
  end.

(** What can follow a value inside a JSON text: the end, a comma, a closing
    bracket or a closing brace. *)
Definition delimited (rest : jsstring) : Prop :=
  match rest with
  | [] => True
  | c :: _ => c = 44%N \/ c = 93%N \/ c = 125%N
  end.

(** A double with an integral value: a valid mantissa and exponent and no
    fraction; of the zeros, the positive one. *)
Definition integral (x : number) : Prop :=
  match x with
  | S754_zero s => s = false
  | S754_finite _ m e =>
      bounded prec emax m e = true /\ num_to_Z x <> None
  | _ => False
  end.

(** The keys of an object that [JSON.parse] builds member after member in
    the order of the text: no key twice and no array index. *)
Definition plain_keys (ks : list jsstring) : Prop :=
  NoDup ks /\ Forall (fun k => array_index k = None) ks.

(** The values whose text [JSON.parse] reads back as they are: the numbers
    are integral doubles and the objects have plain keys. *)
Fixpoint json_safe (v : value) : Prop :=
  match v with
  | VNum x => integral x
  | VArr l => fold_right (fun v P => json_safe v /\ P) True l
  | VObj l =>
      plain_keys (map fst l)
      /\ fold_right (fun kv P => json_safe (snd kv) /\ P) True l
  | _ => True
  end.

(** The text of one member of an object. *)
Definition member_text (kv : jsstring * value) : jsstring :=
  quote (fst kv) ++ 58%N :: JSON_stringify (snd kv).

(** [parse_one] reads back the text of [v], whatever delimiter follows. *)
Definition reads_back (parse_one : jsstring -> option (value * jsstring))
           (v : value) : Prop :=
  forall rest, delimited rest ->
    parse_one (JSON_stringify v ++ rest) = Some (v, rest).

(** The text of a safe value is read back with any fuel that is at least
    its length. *)
Definition parses_back (v : value) : Prop :=
  json_safe v ->
  forall fuel rest,
    (List.length (JSON_stringify v) <= fuel)%nat -> delimited rest ->
    parse_value fuel (JSON_stringify v ++ rest) = Some (v, rest).

(** The invariant of the data model on the name and the quantity of an
    item: the name is not blank, the quantity is a double whose value is an
    integer that is at least 1. *)
Definition name_quantity_ok (it : Item) : Prop :=
  trim (Item.name it) <> [] /\
  valid_binary prec emax (Item.quantity it) = true /\
  exists z, num_to_Z (Item.quantity it) = Some z /\ (1 <= z)%Z.

(** The invariants of the data model on one item: name and quantity as
    above, a category of the fixed set, a creation time that is an integer. *)
Definition well_formed (it : Item) : Prop :=
  name_quantity_ok it /\
  In (Item.category it) category_values /\
  integral (Item.createdAt it).

(** Induction on a value, with the hypothesis for every element of an array
    and every member of an object. *)
Section ValueInduction.
Variable P : value -> Prop.
Hypothesis case_null : P VNull.
Hypothesis case_bool : forall b, P (VBool b).
Hypothesis case_num : forall x, P (VNum x).
Hypothesis case_str : forall s, P (VStr s).
Hypothesis case_arr : forall l, Forall P l -> P (VArr l).
Hypothesis case_obj : forall l, Forall (fun kv => P (snd kv)) l -> P (VObj l).

Fixpoint value_induction (v : value) : P v :=
  match v with
  | VNull => case_null
  | VBool b => case_bool b
  | VNum x => case_num x
  | VStr s => case_str s
  | VArr l =>
      case_arr l
        ((fix all (l : list value) : Forall P l :=
            match l with
            | [] => Forall_nil P
            | x :: r => Forall_cons x (value_induction x) (all r)
            end) l)
  | VObj l =>
      case_obj l
        ((fix all (l : list (jsstring * value)) : Forall (fun kv => P (snd kv)) l :=
            match l with
            | [] => Forall_nil _
            | x :: r => Forall_cons x (value_induction (snd x)) (all r)
            end) l)
  end.
End ValueInduction.

(** ** Sample data for the examples *)

Definition sample_time : number := num_of_Z 1700000000000.

Definition sample_item (i n : string) (q : Z) (c : string) (done : bool) : Item :=
  Item.mk (lit i) (lit n) (num_of_Z q) (lit c) done sample_time.

(** A page past its loading phase, with the add form filled in. *)
Definition sample_page (its : list Item) (n : string) (q : number) (c : string)
           (ed : option Item) : Page :=
  mkPage its false None (lit n) q (lit c) ed.

(** The literal [s] between double quotes. *)
Definition quoted (s : string) : jsstring := 34%N :: lit s ++ [34%N].

Definition bread : Item := sample_item "id-bread" "Bread" 1 "bakery" false.
Definition eggs : Item := sample_item "id-eggs" "Eggs" 12 "dairy" true.

(** ** The forms and the dialog *)

(** [parseInt(s, 10)]: white space is skipped, then an optional sign, then
    the longest run of decimal digits is read; without a digit the result is
    NaN; otherwise it is the integer rounded to the nearest Number, a zero
    keeping the sign.  (Past the 20th significant digit an implementation
    may read zeros instead; what is rounded is an integer either way.) *)
Definition parseInt10 (s : jsstring) : number :=
  let s1 := trimStart s in
  let '(neg, s2) :=
    match s1 with
    | c :: r =>
        if N.eqb c 45 then (true, r)
        else if N.eqb c 43 then (false, r)
        else (false, s1)
    | [] => (false, s1)
    end in
  match span_digits s2 with
  | ([], _) => S754_nan
  | (ds, _) => num_of_decimal neg (of_digits ds) 0
  end.

(** [parseInt(e.target.value || "1", 10)], the number both quantity inputs
    pass to [setQuantity]. *)
Definition typed_quantity (v : jsstring) : number :=
  parseInt10 (if truthy v then v else lit "1").

(** [Number.isNaN(quantity) ? 1 : quantity], the [value] of both quantity
    inputs. *)
Definition shown_quantity (q : number) : number :=
  match q with
  | S754_nan => num_one
  | _ => q
  end.

(** The [onChange] handlers of the add form. *)
Definition changeName (v : jsstring) (st : Page) : Page := setName v st.
Definition changeQuantity (v : jsstring) (st : Page) : Page :=
  setQuantity (typed_quantity v) st.
Definition changeCategory (v : jsstring) (st : Page) : Page := setCategory v st.

Module EditForm.
(** The three [useState] cells of [EditForm]. *)
Record t : Type := mk {
  name : jsstring;
  quantity : number;
  category : jsstring
}.

(** Their initial values, for the item being edited. *)
Definition init (item : Item) : t :=
  mk (Item.name item) (Item.quantity item) (Item.category item).

Definition changeName (v : jsstring) (f : t) : t := mk v (quantity f) (category f).
Definition changeQuantity (v : jsstring) (f : t) : t :=
  mk (name f) (typed_quantity v) (category f).
Definition changeCategory (v : jsstring) (f : t) : t := mk (name f) (quantity f) v.

(** [onSave({ name, quantity, category })] of the "Save changes" button. *)
Definition save (f : t) : Partial.t := form_updates (name f) (quantity f) (category f).
End EditForm.



(** [onCancel] of [EditForm]. *)
Definition cancelEdit (st : Page) : Page := setEditing None st.

(** [onOpenChange] of the dialog: [(open) => !open && setEditing(null)]. *)
Definition onOpenChange (open : bool) (st : Page) : Page :=
  if negb open then setEditing None st else st.

(** The first render, when nothing else happens before the timer fires: the
    load effect sets its timer, the persist effect runs at once with the
    initial collection, and 300 ms later the timer reads the store.  The
    result is the state after the timer and the entry of the key. *)
Definition first_render (writable : bool) (stored : option jsstring) :
  PageState value * option jsstring :=
  let written := persist_effect writable (initial []) stored in
  (load_effect (Return written) (initial (VArr [])), written).

(** The double 2.5, for the examples. *)
Definition two_and_a_half : number := S754_finite false 5629499534213120 (-51).

(** ** The count on whatever [items] holds

    The load effect stores what [JSON.parse] returned, so the expression
    [items.filter((i) => !i.completed).length] of [remainingCount] can meet
    any value. *)

(** The own property [k] of an object, [None] for [undefined]. *)
Fixpoint get_own (k : jsstring) (o : list (jsstring * value)) : option value :=
  match o with
  | [] => None
  | (k', v) :: o' => if str_eqb k' k then Some v else get_own k o'
  end.

(** [ToBoolean]; [None] is [undefined]. *)
Definition to_boolean (v : option value) : bool :=
  match v with
  | None | Some VNull => false
  | Some (VBool b) => b
  | Some (VNum x) =>
      match x with
      | S754_zero _ | S754_nan => false
      | _ => true
      end
  | Some (VStr s) => truthy s
  | Some (VArr _) | Some (VObj _) => true
  end.

(** [i.completed]: a TypeError on [null]; the own property of an object;
    [undefined] on an array, a string, a number and a boolean, whose
    prototypes have no such property. *)
Definition read_completed (i : value) : completion (option value) :=
  match i with
  | VNull => Throw
  | VObj o => Return (get_own (lit "completed") o)
  | _ => Return None
  end.

(** The elements [filter] keeps, counted; the callback throws on [null]. *)
Fixpoint count_remaining (l : list value) : completion nat :=
  match l with
  | [] => Return 0%nat
  | i :: rest =>
      match read_completed i with
      | Throw => Throw
      | Return c =>
          match count_remaining rest with
          | Throw => Throw
          | Return n => Return (if to_boolean c then n else S n)
          end
      end
  end.

(** [items.filter((i) => !i.completed).length]: only an array has a
    [filter] that can be called. *)
Definition remainingCount_value (v : value) : completion nat :=
  match v with
  | VArr l => count_remaining l
  | _ => Throw
  end.

(** ** The controls of the page *)

(** The states of [EditForm] for an item: the initial one, and what the
    three [onChange] handlers make of a state; the select offers the nine
    category values. *)
Inductive edited (item : Item) : EditForm.t -> Prop :=
| edited_init : edited item (EditForm.init item)
| edited_name (v : jsstring) (f : EditForm.t) :
    edited item f -> edited item (EditForm.changeName v f)
| edited_quantity (v : jsstring) (f : EditForm.t) :
    edited item f -> edited item (EditForm.changeQuantity v f)
| edited_category (v : jsstring) (f : EditForm.t) :
    In v category_values -> edited item f ->
    edited item (EditForm.changeCategory v f).

(** What the user can do on the page, with what the environment hands to
    the handler: the text of an input, the value of a select, the results of
    [safeId()] and [Date.now()], the state of the edit form. *)
Inductive action : Type :=
| TypeName (v : jsstring)
| TypeQuantity (v : jsstring)
| PickCategory (v : jsstring)
| ClickAdd (fresh : jsstring) (now : number)
| ClickCheckbox (id : jsstring)
| ClickDelete (id : jsstring)
| ClickEdit (item : Item)
| ClickSave (f : EditForm.t)
| ClickCancel
| DialogOpenChange (open : bool).

(** The handler each control is wired to. *)
Definition perform (a : action) (st : Page) : Page :=
  match a with
  | TypeName v => changeName v st
  | TypeQuantity v => changeQuantity v st
  | PickCategory v => changeCategory v st
  | ClickAdd fresh now => addItem fresh now st
  | ClickCheckbox id => toggleCompleted id st
  | ClickDelete id => removeItem id st
  | ClickEdit item => startEdit item st
  | ClickSave f => saveEdit (EditForm.save f) st
  | ClickCancel => cancelEdit st
  | DialogOpenChange open => onOpenChange open st
  end.

(** What the rendered page offers in a state: the select has the nine
    values, [Date.now()] is an integer, the Edit button of a row passes the
    item of that row, and the edit form is there only during an edit, in a
    state reached from the item being edited. *)
Definition offered (st : Page) (a : action) : Prop :=
  match a with
  | PickCategory v => In v category_values
  | ClickAdd _ now => integral now
  | ClickEdit item => In item (items st)
  | ClickSave f => exists e, editing st = Some e /\ edited e f
  | _ => True
  end.

Fixpoint run (acts : list action) (st : Page) : Page :=
  match acts with
  | [] => st
  | a :: rest => run rest (perform a st)
  end.

Fixpoint offered_all (st : Page) (acts : list action) : Prop :=
  match acts with
  | [] => True
  | a :: rest => offered st a /\ offered_all (perform a st) rest
  end.

(** A Number without a fraction: NaN, a zero, an infinity, or a double with
    an integral value. *)
Definition whole (q : number) : Prop :=
  match q with
  | S754_finite _ m e => bounded prec emax m e = true /\ num_to_Z q <> None
  | _ => True
  end.

(** What the controls keep true of a page: the items are well formed, the
    quantity of the add form has no fraction, its category is one of the
    nine, and the item being edited, when there is one, is well formed. *)
Definition page_ok (st : Page) : Prop :=
  Forall well_formed (items st) /\
  whole (quantity st) /\
  In (category st) category_values /\
  (forall e, editing st = Some e -> well_formed e).

(* ===================================================================== *)
(** * Part II.  Properties                                                *)
(* ===================================================================== *)

(** ** Strings *)

Lemma str_eqb_eq (a b : jsstring) : str_eqb a b = true <-> a = b.
Proof.
  revert b; induction a as [|x a IH]; intros [|y b]; simpl;
    try (split; [discriminate | congruence]); [tauto|].
  rewrite andb_true_iff, N.eqb_eq, IH. split.
  - intros [-> ->]; reflexivity.
  - intros E; injection E; auto.
Qed.

Lemma str_eqb_refl (a : jsstring) : str_eqb a a = true.
Proof. apply str_eqb_eq; reflexivity. Qed.

Lemma str_eqb_neq (a b : jsstring) : str_eqb a b = false <-> a <> b.
Proof.
  rewrite <- str_eqb_eq. destruct (str_eqb a b); split; congruence.
Qed.

Lemma trimStart_blank (s : jsstring) :
  forallb is_white_space s = true -> trimStart s = [].
Proof.
  induction s as [|c s IH]; simpl; [reflexivity|].
  destruct (is_white_space c); simpl; [exact IH | discriminate].
Qed.

Lemma trim_blank (s : jsstring) :
  forallb is_white_space s = true -> trim s = [].
Proof.
  intros H. unfold trim, trimEnd. rewrite (trimStart_blank s H). reflexivity.
Qed.

Lemma trimStart_clean (s : jsstring) : clean_start (trimStart s).
Proof.
  induction s as [|c s IH]; [exact I|]. cbn [trimStart].
  destruct (is_white_space c) eqn:E; [exact IH | exact E].
Qed.

Lemma trimStart_fixed (s : jsstring) : clean_start s -> trimStart s = s.
Proof. destruct s as [|c s]; [reflexivity|]. simpl. intros ->. reflexivity. Qed.

Lemma trimStart_suffix (s : jsstring) : exists p, s = p ++ trimStart s.
Proof.
  induction s as [|c s (p & IH)]; [exists []; reflexivity|]. cbn [trimStart].
  destruct (is_white_space c).
  - exists (c :: p). cbn [app]. rewrite <- IH. reflexivity.
  - exists []. reflexivity.
Qed.

(** Trimming twice is trimming once. *)
Lemma trim_idempotent (s : jsstring) : trim (trim s) = trim s.
Proof.
  unfold trim, trimEnd.
  set (u := trimStart s).
  set (v := trimStart (rev u)).
  assert (Cu : clean_start u) by apply trimStart_clean.
  assert (Cv : clean_start v) by apply trimStart_clean.
  destruct (trimStart_suffix (rev u)) as (p & Hp). fold v in Hp.
  assert (Hu : u = rev v ++ rev p).
  { rewrite <- (rev_involutive u), Hp, rev_app_distr. reflexivity. }
  assert (Cr : clean_start (rev v)).
  { destruct (rev v) as [|c r] eqn:E; [exact I|].
    rewrite Hu in Cu. exact Cu. }
  rewrite (trimStart_fixed (rev v) Cr), rev_involutive.
  rewrite (trimStart_fixed v Cv). reflexivity.
Qed.

(** ** Numbers *)

Lemma positive_not_le_zero (q : number) :
  num_ltb num_zero q = true -> num_leb q num_zero = false.
Proof.
  destruct q as [s|s| |s m e]; try destruct s; simpl; intros H;
    try discriminate H; reflexivity.
Qed.

(** The guard on the quantity, shared by [addItem] and [saveEdit]. *)
Lemma quantity_guard_passes (q : number) :
  Number_isFinite q = true -> num_ltb num_zero q = true ->
  negb (Number_isFinite q) || num_leb q num_zero = false.
Proof.
  intros F P. rewrite F, (positive_not_le_zero q P). reflexivity.
Qed.

Lemma quantity_guard_rejects (q : number) :
  Number_isFinite q = false \/ num_leb q num_zero = true ->
  negb (Number_isFinite q) || num_leb q num_zero = true.
Proof.
  intros [F | L]; [rewrite F | rewrite L, orb_true_r]; reflexivity.
Qed.

Lemma truthy_nonempty (s : jsstring) : s <> [] -> truthy s = true.
Proof. destruct s; [congruence | reflexivity]. Qed.

Lemma category_values_truthy (c : jsstring) :
  In c category_values -> truthy c = true.
Proof.
  unfold category_values. simpl.
  intros H. repeat (destruct H as [<- | H]; [reflexivity|]). destruct H.
Qed.

(** ** Lists of items *)

Section ItemLists.
Variable id : jsstring.
Variable f : Item -> Item.

Lemma update_at_absent (l : list Item) :
  (forall it, In it l -> Item.id it <> id) -> update_at id f l = l.
Proof.
  induction l as [|a l IH]; simpl; intros H; [reflexivity|].
  rewrite IH by (intros it Hit; apply H; right; exact Hit).
  destruct (str_eqb (Item.id a) id) eqn:E; [|reflexivity].
  apply str_eqb_eq in E. exfalso. apply (H a); [left; reflexivity | exact E].
Qed.

Lemma update_at_split (l : list Item) (target : Item) :
  NoDup (map Item.id l) -> In target l -> Item.id target = id ->
  exists l1 l2, l = l1 ++ target :: l2 /\ update_at id f l = l1 ++ f target :: l2.
Proof.
  intros ND Hin Hid. apply in_split in Hin. destruct Hin as (l1 & l2 & ->).
  exists l1, l2. split; [reflexivity|].
  rewrite map_app in ND. simpl in ND. apply NoDup_remove_2 in ND.
  unfold update_at. rewrite map_app. simpl.
  rewrite Hid, str_eqb_refl.
  assert (A1 : forall it, In it l1 -> Item.id it <> id).
  { intros it Hit E. apply ND. apply in_or_app. left.
    rewrite Hid, <- E. apply in_map, Hit. }
  assert (A2 : forall it, In it l2 -> Item.id it <> id).
  { intros it Hit E. apply ND. apply in_or_app. right.
    rewrite Hid, <- E. apply in_map, Hit. }
  fold (update_at id f l1). fold (update_at id f l2).
  rewrite (update_at_absent l1 A1), (update_at_absent l2 A2). reflexivity.
Qed.

Lemma update_at_in (l : list Item) (it' : Item) :
  In it' (update_at id f l) -> Item.id it' = id ->
  exists it, In it l /\ Item.id it = id /\ it' = f it.
Proof.
  unfold update_at. rewrite in_map_iff. intros (it & E & Hin) Hid.
  destruct (str_eqb (Item.id it) id) eqn:B.
  - apply str_eqb_eq in B. exists it. auto.
  - apply str_eqb_neq in B. subst it'. contradiction.
Qed.
End ItemLists.

Lemma remove_absent (id : jsstring) (l : list Item) :
  (forall it, In it l -> Item.id it <> id) ->
  filter (fun it => negb (str_eqb (Item.id it) id)) l = l.
Proof.
  induction l as [|a l IH]; simpl; intros H; [reflexivity|].
  assert (E : str_eqb (Item.id a) id = false)
    by (apply str_eqb_neq, H; left; reflexivity).
  rewrite E. simpl. f_equal. apply IH. intros it Hit. apply H. right. exact Hit.
Qed.

Lemma flip_completed_involutive (it : Item) : flip_completed (flip_completed it) = it.
Proof. destruct it; unfold flip_completed; simpl. rewrite negb_involutive. reflexivity. Qed.

Lemma toggle_twice (id : jsstring) (l : list Item) :
  update_at id flip_completed (update_at id flip_completed l) = l.
Proof.
  unfold update_at. rewrite map_map.
  rewrite <- (map_id l) at 2. apply map_ext. intros it.
  destruct (str_eqb (Item.id it) id) eqn:E.
  - change (Item.id (flip_completed it)) with (Item.id it). rewrite E.
    apply flip_completed_involutive.
  - rewrite E. reflexivity.
Qed.

(** ** Decimal digits *)

Lemma of_digits_from (ds : list N) (a : N) :
  fold_left (fun a d => 10 * a + d)%N ds a
  = (a * 10 ^ N.of_nat (List.length ds) + of_digits ds)%N.
Proof.
  unfold of_digits. revert a. induction ds as [|d ds IH]; intros a.
  - simpl. lia.
  - cbn [fold_left List.length]. rewrite IH, (IH (10 * 0 + d)%N).
    rewrite Nat2N.inj_succ, N.pow_succ_r'. lia.
Qed.

Lemma of_digits_app (a b : list N) :
  of_digits (a ++ b) = (of_digits a * 10 ^ N.of_nat (List.length b) + of_digits b)%N.
Proof.
  unfold of_digits at 1. rewrite fold_left_app. apply of_digits_from.
Qed.

Lemma of_digits_cons (d : N) (ds : list N) :
  of_digits (d :: ds) = (d * 10 ^ N.of_nat (List.length ds) + of_digits ds)%N.
Proof. apply (of_digits_app [d] ds). Qed.

Lemma of_digits_zeros (j : nat) : of_digits (repeat 0%N j) = 0%N.
Proof.
  induction j as [|j IH]; [reflexivity|].
  cbn [repeat]. rewrite of_digits_cons, IH. lia.
Qed.

Lemma of_uint_acc_digits (u : Decimal.uint) (acc : positive) :
  Npos (Pos.of_uint_acc u acc)
  = fold_left (fun a d => 10 * a + d)%N (uint_digits u) (Npos acc).
Proof.
  revert acc. induction u; intros acc; cbn [Pos.of_uint_acc uint_digits fold_left];
    try reflexivity; rewrite IHu; f_equal; lia.
Qed.

Lemma of_uint_digits (u : Decimal.uint) : N.of_uint u = of_digits (uint_digits u).
Proof.
  unfold N.of_uint, of_digits.
  induction u; cbn [Pos.of_uint uint_digits fold_left];
    try reflexivity; try exact IHu; apply of_uint_acc_digits.
Qed.

Lemma of_digits_digits_of (n : N) : of_digits (digits_of n) = n.
Proof.
  unfold digits_of. rewrite <- of_uint_digits. apply DecimalN.Unsigned.of_to.
Qed.

Lemma uint_digits_small (u : Decimal.uint) :
  Forall (fun d => d < 10)%N (uint_digits u).
Proof. induction u; simpl; constructor; (lia || assumption). Qed.

Lemma digits_of_small (n : N) : Forall (fun d => d < 10)%N (digits_of n).
Proof. apply uint_digits_small. Qed.

Lemma nzhead_no_zero (u : Decimal.uint) :
  match uint_digits (Decimal.nzhead u) with
  | d :: _ => d <> 0%N
  | [] => True
  end.
Proof. induction u; simpl; try exact IHu; try exact I; discriminate. Qed.

Lemma to_uint_normal (n : N) : Decimal.unorm (N.to_uint n) = N.to_uint n.
Proof.
  rewrite <- DecimalN.Unsigned.to_of, DecimalN.Unsigned.of_to. reflexivity.
Qed.

(** The numeral of a positive number starts with a digit that is not 0. *)
Lemma digits_of_head (n : N) :
  n <> 0%N ->
  exists d ds, digits_of n = d :: ds /\ d <> 0%N /\ (d < 10)%N.
Proof.
  intros Hn. unfold digits_of.
  pose proof (to_uint_normal n) as U. unfold Decimal.unorm in U.
  pose proof (nzhead_no_zero (N.to_uint n)) as Z.
  pose proof (uint_digits_small (N.to_uint n)) as S.
  destruct (Decimal.nzhead (N.to_uint n)) eqn:E.
  - exfalso. apply Hn. rewrite <- (DecimalN.Unsigned.of_to n), <- U. reflexivity.
  - exfalso. simpl in Z. congruence.
  - rewrite <- U. simpl. eexists _, _. split; [reflexivity|]. split; [discriminate | lia].
  - rewrite <- U. simpl. eexists _, _. split; [reflexivity|]. split; [discriminate | lia].
  - rewrite <- U. simpl. eexists _, _. split; [reflexivity|]. split; [discriminate | lia].
  - rewrite <- U. simpl. eexists _, _. split; [reflexivity|]. split; [discriminate | lia].
  - rewrite <- U. simpl. eexists _, _. split; [reflexivity|]. split; [discriminate | lia].
  - rewrite <- U. simpl. eexists _, _. split; [reflexivity|]. split; [discriminate | lia].
  - rewrite <- U. simpl. eexists _, _. split; [reflexivity|]. split; [discriminate | lia].
  - rewrite <- U. simpl. eexists _, _. split; [reflexivity|]. split; [discriminate | lia].
  - rewrite <- U. simpl. eexists _, _. split; [reflexivity|]. split; [discriminate | lia].
Qed.

Lemma digits_of_nonempty (n : N) : digits_of n <> [].
Proof.
  destruct (N.eq_dec n 0) as [-> | Hn]; [vm_compute; discriminate|].
  destruct (digits_of_head n Hn) as (d & ds & -> & _). discriminate.
Qed.

Lemma digit_char_is_digit (d : N) : (d < 10)%N -> is_digit (digit_char d) = true.
Proof.
  intros H. unfold is_digit, digit_char.
  apply andb_true_iff. split; apply N.leb_le; lia.
Qed.

Lemma digit_val_char (d : N) : digit_val (digit_char d) = d.
Proof. unfold digit_val, digit_char. lia. Qed.

Lemma span_digits_chars (ds : list N) (rest : jsstring) :
  Forall (fun d => d < 10)%N ds -> no_digit_ahead rest ->
  span_digits (map digit_char ds ++ rest) = (ds, rest).
Proof.
  intros H R. induction H as [|d ds Hd _ IH]; cbn [map app span_digits].
  - destruct rest as [|c r]; [reflexivity|]. cbn [span_digits].
    cbn [no_digit_ahead] in R. rewrite R. reflexivity.
  - rewrite (digit_char_is_digit d Hd), IH, digit_val_char. reflexivity.
Qed.

(** ** String literals: [parse_chars] reads back what [quote] writes *)

Lemma hex_val_char (d : N) : (d < 16)%N -> hex_val (hex_char d) = Some d.
Proof.
  intros H.
  assert (C : (d = 0 \/ d = 1 \/ d = 2 \/ d = 3 \/ d = 4 \/ d = 5 \/ d = 6
               \/ d = 7 \/ d = 8 \/ d = 9 \/ d = 10 \/ d = 11 \/ d = 12 \/ d = 13
               \/ d = 14 \/ d = 15)%N) by lia.
  repeat (destruct C as [-> | C]; [reflexivity|]). subst d. reflexivity.
Qed.

Lemma hex4_digits (c : N) :
  (c < 65536)%N ->
  ((((c / 4096) mod 16 * 16 + (c / 256) mod 16) * 16 + (c / 16) mod 16) * 16
   + c mod 16 = c)%N.
Proof.
  intros H.
  pose proof (N.div_mod c 16 ltac:(discriminate)) as E0.
  pose proof (N.div_mod (c / 16) 16 ltac:(discriminate)) as E1.
  pose proof (N.div_mod (c / 16 / 16) 16 ltac:(discriminate)) as E2.
  pose proof (N.mod_lt c 16 ltac:(discriminate)).
  pose proof (N.mod_lt (c / 16) 16 ltac:(discriminate)).
  pose proof (N.mod_lt (c / 16 / 16) 16 ltac:(discriminate)).
  assert (D1 : (c / 256 = c / 16 / 16)%N)
    by (rewrite N.Div0.div_div; reflexivity).
  assert (D2 : (c / 4096 = c / 16 / 16 / 16)%N)
    by (rewrite !N.Div0.div_div; reflexivity).
  assert (S : (c / 16 / 16 / 16 < 16)%N).
  { rewrite !N.Div0.div_div. apply N.Div0.div_lt_upper_bound. exact H. }
  rewrite D1, D2, (N.mod_small (c / 16 / 16 / 16) 16 S).
  assert (E3 : (c / 16 / 16 = 16 * (c / 16 / 16 / 16) + (c / 16 / 16) mod 16)%N)
    by apply (N.div_mod (c / 16 / 16) 16 ltac:(discriminate)).
  lia.
Qed.

Lemma hex4_escape (c : char16) (t : jsstring) :
  (c < 65536)%N ->
  parse_chars (unicode_escape c ++ t) = cons_char c (parse_chars t).
Proof.
  intros H. unfold unicode_escape. cbn [app parse_chars].
  change (N.eqb 92 34) with false. change (N.eqb 92 92) with true.
  change (N.eqb 117 117) with true. cbv iota.
  unfold hex4.
  rewrite !hex_val_char by (apply N.mod_lt; discriminate).
  rewrite (hex4_digits c H). reflexivity.
Qed.

Lemma parse_chars_plain (c : char16) (t : jsstring) :
  N.eqb c 34 = false -> N.eqb c 92 = false -> N.ltb c 32 = false ->
  parse_chars (c :: t) = cons_char c (parse_chars t).
Proof. intros A B C. cbn [parse_chars]. rewrite A, B, C. reflexivity. Qed.

Lemma surrogate_plain (c : char16) :
  is_high_surrogate c || is_low_surrogate c = true ->
  N.eqb c 34 = false /\ N.eqb c 92 = false /\ N.ltb c 32 = false /\ (c < 65536)%N.
Proof.
  unfold is_high_surrogate, is_low_surrogate. intros H.
  apply orb_true_iff in H.
  rewrite !andb_true_iff, !N.leb_le in H.
  rewrite !N.eqb_neq, N.ltb_ge. lia.
Qed.

Lemma parse_quote_unit (c : char16) (t : jsstring) :
  parse_chars (quote_unit c ++ t) = cons_char c (parse_chars t).
Proof.
  unfold quote_unit.
  destruct (N.eqb c 8) eqn:E8; [apply N.eqb_eq in E8; subst c; reflexivity|].
  destruct (N.eqb c 9) eqn:E9; [apply N.eqb_eq in E9; subst c; reflexivity|].
  destruct (N.eqb c 10) eqn:E10; [apply N.eqb_eq in E10; subst c; reflexivity|].
  destruct (N.eqb c 12) eqn:E12; [apply N.eqb_eq in E12; subst c; reflexivity|].
  destruct (N.eqb c 13) eqn:E13; [apply N.eqb_eq in E13; subst c; reflexivity|].
  destruct (N.eqb c 34) eqn:E34; [apply N.eqb_eq in E34; subst c; reflexivity|].
  destruct (N.eqb c 92) eqn:E92; [apply N.eqb_eq in E92; subst c; reflexivity|].
  destruct (N.ltb c 32) eqn:L.
  - cbn [orb]. apply hex4_escape. apply N.ltb_lt in L. lia.
  - cbn [orb].
    destruct (is_high_surrogate c || is_low_surrogate c) eqn:S.
    + apply hex4_escape. apply (surrogate_plain c S).
    + apply (parse_chars_plain c t E34 E92 L).
Qed.

Lemma parse_quote_units_upto (n : nat) (s rest : jsstring) :
  (List.length s < n)%nat ->
  parse_chars (quote_units s ++ 34%N :: rest) = Some (s, rest).
Proof.
  revert s. induction n as [|n IH]; intros s Hn; [inversion Hn|].
  destruct s as [|c r]; [reflexivity|].
  cbn [quote_units]. destruct r as [|d r'].
  - rewrite parse_quote_unit. reflexivity.
  - destruct (is_high_surrogate c && is_low_surrogate d) eqn:P.
    + apply andb_true_iff in P. destruct P as [Pc Pd].
      destruct (surrogate_plain c) as (A & B & C & _); [rewrite Pc; reflexivity|].
      destruct (surrogate_plain d) as (A' & B' & C' & _);
        [rewrite Pd; apply orb_true_r|].
      cbn [app]. rewrite (parse_chars_plain c _ A B C).
      rewrite (parse_chars_plain d _ A' B' C').
      rewrite IH by (cbn [List.length] in *; lia). reflexivity.
    + rewrite <- app_assoc, parse_quote_unit.
      rewrite IH by (cbn [List.length] in *; lia). reflexivity.
Qed.

(** Every string, whatever its code units, is read back from its quoted
    form. *)
Lemma parse_quote (s rest : jsstring) :
  parse_chars (quote_units s ++ 34%N :: rest) = Some (s, rest).
Proof. apply (parse_quote_units_upto (S (List.length s))). lia. Qed.

(** ** Rounding: a double is the Number value of its own value *)

Lemma digits2_shift (m d : positive) :
  Zpos (digits2_pos (Pos.iter xO m d)) = (Zpos (digits2_pos m) + Zpos d)%Z.
Proof.
  induction d as [|d IH] using Pos.peano_ind.
  - simpl. lia.
  - rewrite Pos.iter_succ. cbn [digits2_pos]. lia.
Qed.

Lemma shift_value (m d : positive) :
  Zpos (Pos.iter xO m d) = (Zpos m * 2 ^ Zpos d)%Z.
Proof.
  induction d as [|d IH] using Pos.peano_ind.
  - simpl. lia.
  - rewrite Pos.iter_succ, Pos2Z.inj_xO, IH, Pos2Z.inj_succ, Z.pow_succ_r; lia.
Qed.

Lemma iter_shr_exact (d m : positive) :
  iter_pos shr_1 d (Build_shr_record (Zpos (Pos.iter xO m d)) false false)
  = Build_shr_record (Zpos m) false false.
Proof.
  revert m. induction d as [d IH | d IH |]; intros m; cbn [iter_pos Pos.iter].
  - change (shr_1 {| shr_m := Zpos (Pos.iter xO (Pos.iter xO m d) d)~0;
                     shr_r := false; shr_s := false |})
      with (Build_shr_record (Zpos (Pos.iter xO (Pos.iter xO m d) d)) false false).
    rewrite IH, IH. reflexivity.
  - rewrite IH, IH. reflexivity.
  - reflexivity.
Qed.

Lemma bounded_spec (m : positive) (e : Z) :
  bounded prec emax m e = true ->
  fexp prec emax (Zpos (digits2_pos m) + e) = e /\ (e <= emax - prec)%Z.
Proof.
  unfold bounded, canonical_mantissa. intros H.
  apply andb_true_iff in H. destruct H as [A B].
  apply Z.eqb_eq in A. apply Z.leb_le in B. split; assumption.
Qed.

(** Nothing is shifted out of a mantissa that has its canonical exponent. *)
Lemma round_aux_canonical (s : bool) (m : positive) (e : Z) :
  bounded prec emax m e = true ->
  binary_round_aux prec emax s (Zpos m) e loc_Exact = S754_finite s m e.
Proof.
  intros B. destruct (bounded_spec m e B) as [C L].
  unfold binary_round_aux, shr_fexp. cbn [Zdigits2 shr_record_of_loc].
  rewrite C, Z.sub_diag. cbn [shr shr_m loc_of_shr_record round_nearest_even].
  cbn [Zdigits2]. rewrite C, Z.sub_diag. cbn [shr shr_m].
  apply Z.leb_le in L. rewrite L. reflexivity.
Qed.

(** The integer [M = m * 2^e] rounds to the double [m * 2^e]. *)
Lemma round_integer_up (s : bool) (M m : positive) (e : Z) :
  bounded prec emax m e = true ->
  (0 <= e)%Z -> Zpos M = (Zpos m * 2 ^ e)%Z ->
  binary_round prec emax s M 0 = S754_finite s m e.
Proof.
  intros B He HM. destruct (bounded_spec m e B) as [C L].
  destruct e as [|d|d]; [| |lia].
  - assert (M = m) by lia. subst M.
    unfold binary_round. rewrite Z.add_0_r in *. rewrite C.
    cbn [shl_align Z.sub Z.opp Z.add]. apply round_aux_canonical, B.
  - rewrite <- shift_value in HM. injection HM as ->.
    unfold binary_round. rewrite Z.add_0_r, digits2_shift, C.
    cbn [shl_align Z.sub Z.opp Z.add].
    unfold binary_round_aux at 1, shr_fexp at 1.
    cbn [Zdigits2 shr_record_of_loc]. rewrite Z.add_0_r, digits2_shift, C.
    cbn [Z.sub Z.opp Z.add shr]. rewrite iter_shr_exact.
    cbn [shr_m loc_of_shr_record round_nearest_even].
    unfold shr_fexp. cbn [Zdigits2 shr_record_of_loc].
    rewrite C, Z.sub_diag. cbn [shr shr_m].
    apply Z.leb_le in L. rewrite L. reflexivity.
Qed.

(** The integer [M] with [M * 2^-e = m] rounds to the double [m * 2^e]. *)
Lemma round_integer_down (s : bool) (M m : positive) (e : Z) :
  bounded prec emax m e = true ->
  (e < 0)%Z -> Zpos m = (Zpos M * 2 ^ (- e))%Z ->
  binary_round prec emax s M 0 = S754_finite s m e.
Proof.
  intros B He HM. destruct (bounded_spec m e B) as [C L].
  destruct e as [|d|d]; [lia|lia|].
  cbn [Z.opp] in HM. rewrite <- shift_value in HM. injection HM as ->.
  rewrite digits2_shift in C.
  unfold binary_round. rewrite Z.add_0_r.
  replace (Zpos (digits2_pos M)) with (Zpos (digits2_pos M) + Zpos d + Zneg d)%Z by lia.
  rewrite C. cbn [shl_align Z.sub Z.opp Z.add].
  apply round_aux_canonical, B.
Qed.

(** ** [Math.floor] gives an integer *)

Lemma digits2_bounds (p : positive) :
  (2 ^ (Zpos (digits2_pos p) - 1) <= Zpos p < 2 ^ Zpos (digits2_pos p))%Z.
Proof.
  induction p as [p IH | p IH |]; cbn [digits2_pos].
  - rewrite Pos2Z.inj_succ, Pos2Z.inj_xI.
    replace (Z.succ (Zpos (digits2_pos p)) - 1)%Z
      with (Z.succ (Zpos (digits2_pos p) - 1)) by lia.
    rewrite !Z.pow_succ_r by lia.
    set (a := (2 ^ (Zpos (digits2_pos p) - 1))%Z) in *.
    set (b := (2 ^ Zpos (digits2_pos p))%Z) in *. clearbody a b. lia.
  - rewrite Pos2Z.inj_succ. change (Zpos p~0) with (2 * Zpos p)%Z.
    replace (Z.succ (Zpos (digits2_pos p)) - 1)%Z
      with (Z.succ (Zpos (digits2_pos p) - 1)) by lia.
    rewrite !Z.pow_succ_r by lia.
    set (a := (2 ^ (Zpos (digits2_pos p) - 1))%Z) in *.
    set (b := (2 ^ Zpos (digits2_pos p))%Z) in *. clearbody a b. lia.
  - simpl. lia.
Qed.

Lemma bounded_digits (m : positive) (e : Z) :
  bounded prec emax m e = true -> (Zpos (digits2_pos m) <= 53)%Z.
Proof.
  intros B. destruct (bounded_spec m e B) as [C _].
  unfold fexp, emin, prec, emax in C. lia.
Qed.

(** A positive integer below 2^53 is a double: it rounds to itself, on a
    mantissa of 53 bits. *)
Lemma round_small_integer (s : bool) (n : positive) :
  (Zpos (digits2_pos n) <= 53)%Z ->
  exists m e,
    binary_round prec emax s n 0 = S754_finite s m e /\
    bounded prec emax m e = true /\
    (e <= 0)%Z /\ Zpos m = (Zpos n * 2 ^ (- e))%Z.
Proof.
  intros Hd.
  destruct (Z.eq_dec (Zpos (digits2_pos n)) 53) as [E | NE].
  - exists n, 0%Z.
    assert (B : bounded prec emax n 0 = true).
    { unfold bounded, canonical_mantissa. rewrite Z.add_0_r, E. reflexivity. }
    split; [apply round_integer_up; [exact B | lia | simpl; lia]|].
    split; [exact B|]. split; [lia | simpl; lia].
  - destruct (53 - Zpos (digits2_pos n))%Z as [|k|k] eqn:K; [lia| |lia].
    exists (Pos.iter xO n k), (Zneg k).
    assert (B : bounded prec emax (Pos.iter xO n k) (Zneg k) = true).
    { unfold bounded, canonical_mantissa. rewrite digits2_shift.
      apply andb_true_iff. split.
      - apply Z.eqb_eq. unfold fexp, emin, prec, emax. lia.
      - apply Z.leb_le. unfold prec, emax. lia. }
    assert (V : Zpos (Pos.iter xO n k) = (Zpos n * 2 ^ (- Zneg k))%Z)
      by (rewrite shift_value; reflexivity).
    split; [apply round_integer_down; [exact B | lia | exact V]|].
    split; [exact B|]. split; [lia | exact V].
Qed.

Lemma num_to_Z_scaled (s : bool) (m n : positive) (e : Z) :
  (e <= 0)%Z -> Zpos m = (Zpos n * 2 ^ (- e))%Z ->
  num_to_Z (S754_finite s m e) = Some (cond_Zopp s (Zpos n)).
Proof.
  intros He V. cbn [num_to_Z].
  destruct (0 <=? e)%Z eqn:L.
  - apply Z.leb_le in L. assert (e = 0%Z) by lia. subst e.
    simpl in V. f_equal. f_equal. simpl. lia.
  - assert (P : (0 < 2 ^ (- e))%Z) by (apply Z.pow_pos_nonneg; lia).
    rewrite V, Z.mod_mul, Z.div_mul by lia. reflexivity.
Qed.

(** The floor of a positive double is an integral double whose value is
    the integer part. *)
Lemma Math_floor_positive (m : positive) (e : Z) :
  bounded prec emax m e = true ->
  integral (Math_floor (S754_finite false m e)) /\
  num_to_Z (Math_floor (S754_finite false m e))
  = Some (if (0 <=? e)%Z then Zpos m * 2 ^ e else Zpos m / 2 ^ (- e))%Z.
Proof.
  intros B. cbn [Math_floor]. destruct (0 <=? e)%Z eqn:L.
  - assert (V : num_to_Z (S754_finite false m e) = Some (Zpos m * 2 ^ e)%Z)
      by (cbn [num_to_Z]; rewrite L; reflexivity).
    split; [|exact V]. split; [exact B | rewrite V; discriminate].
  - apply Z.leb_gt in L. cbn [cond_Zopp].
    rewrite Z.shiftr_div_pow2 by lia.
    assert (P : (0 < 2 ^ (- e))%Z) by (apply Z.pow_pos_nonneg; lia).
    pose proof (Z.div_pos (Zpos m) (2 ^ (- e)) ltac:(lia) P) as Q0.
    pose proof (Z.div_le_upper_bound (Zpos m) (2 ^ (- e)) (Zpos m) P ltac:(nia)) as Q1.
    destruct (Zpos m / 2 ^ (- e))%Z as [|n|n] eqn:En; [| |lia].
    + split; reflexivity.
    + cbn [binary_normalize].
      assert (Dn : (Zpos (digits2_pos n) <= 53)%Z).
      { pose proof (bounded_digits m e B) as Dm.
        pose proof (digits2_bounds m) as [_ Um].
        pose proof (digits2_bounds n) as [Ln _].
        assert (T : (2 ^ (Zpos (digits2_pos n) - 1) < 2 ^ 53)%Z).
        { apply Z.le_lt_trans with (Zpos n); [exact Ln|].
          apply Z.le_lt_trans with (Zpos m); [exact Q1|].
          apply Z.lt_le_trans with (2 ^ Zpos (digits2_pos m))%Z; [exact Um|].
          apply Z.pow_le_mono_r; lia. }
        apply Z.pow_lt_mono_r_iff in T; lia. }
      destruct (round_small_integer false n Dn) as (m' & e' & -> & B' & He' & V').
      pose proof (num_to_Z_scaled false m' n e' He' V') as Z'.
      split; [|exact Z']. split; [exact B' | rewrite Z'; discriminate].
Qed.

(** The guard of [addItem] and [saveEdit] lets only positive finite
    numbers pass, so what is stored is an integral double. *)
Lemma floor_of_accepted (q : number) :
  valid_binary prec emax q = true ->
  Number_isFinite q = true -> num_ltb num_zero q = true ->
  integral (Math_floor q).
Proof.
  intros V F P. destruct q as [s|s| |s m e]; try discriminate.
  destruct s; [discriminate P|]. apply (Math_floor_positive m e V).
Qed.

(** From 1 upwards the integer part is at least 1. *)
Lemma floor_at_least_one (q : number) :
  valid_binary prec emax q = true ->
  Number_isFinite q = true -> num_leb num_one q = true ->
  valid_binary prec emax (Math_floor q) = true /\
  exists z, num_to_Z (Math_floor q) = Some z /\ (1 <= z)%Z.
Proof.
  intros V F L. destruct q as [s|s| |s m e]; try discriminate.
  destruct s; [discriminate L|].
  destruct (Math_floor_positive m e V) as [I Z].
  split.
  { destruct (Math_floor (S754_finite false m e)); try reflexivity.
    destruct I as [B _]. exact B. }
  eexists. split; [exact Z|].
  destruct (0 <=? e)%Z eqn:He.
  - apply Z.leb_le in He. pose proof (Z.pow_pos_nonneg 2 e). lia.
  - apply Z.leb_gt in He.
    assert (P : (0 < 2 ^ (- e))%Z) by (apply Z.pow_pos_nonneg; lia).
    apply Z.div_le_lower_bound; [exact P|]. rewrite Z.mul_1_r.
    change num_one with (S754_finite false 4503599627370496 (-52)) in L.
    unfold num_leb, SFleb in L. cbn [SFcompare] in L.
    destruct (Z.compare_spec (-52) e) as [E | E | E]; [| |discriminate L].
    + subst e.
      assert (M : (4503599627370496 <= m)%positive).
      { apply Pos.compare_le_iff. intros G.
        rewrite Pos.compare_cont_spec, G in L. discriminate L. }
      change (2 ^ (- -52))%Z with 4503599627370496%Z. lia.
    + destruct (bounded_spec m e V) as [C _].
      assert (D : Zpos (digits2_pos m) = 53%Z)
        by (unfold fexp, emin, prec, emax in C; lia).
      pose proof (digits2_bounds m) as [Lm _]. rewrite D in Lm.
      apply Z.le_trans with (2 ^ 51)%Z; [apply Z.pow_le_mono_r; lia|].
      change (2 ^ (53 - 1))%Z with 4503599627370496%Z in Lm.
      change (2 ^ 51)%Z with 2251799813685248%Z. lia.
Qed.

(** ** The decimal of [Number::toString] denotes the Number *)

Lemma num_same_eq (x y : number) : num_same x y = true -> x = y.
Proof.
  destruct x as [a|a| |a m e], y as [b|b| |b m' e']; simpl; try discriminate;
    try reflexivity.
  - intros H. apply eqb_prop in H. congruence.
  - intros H. apply eqb_prop in H. congruence.
  - intros H. apply andb_true_iff in H. destruct H as [H E].
    apply andb_true_iff in H. destruct H as [S M].
    apply eqb_prop in S. apply Pos.eqb_eq in M. apply Z.eqb_eq in E. congruence.
Qed.

Lemma binary_round_aux_sign (s : bool) (mx ex : Z) (l : location) :
  binary_round_aux prec emax s mx ex l
  = (if s then SFopp (binary_round_aux prec emax false mx ex l)
     else binary_round_aux prec emax false mx ex l).
Proof.
  destruct s; [|reflexivity]. unfold binary_round_aux.
  destruct (shr_fexp prec emax mx ex l) as [mrs e1].
  destruct (shr_fexp prec emax _ e1 loc_Exact) as [mrs' e2].
  destruct (shr_m mrs'); [reflexivity| |reflexivity].
  destruct (e2 <=? emax - prec)%Z; reflexivity.
Qed.

(** The sign of a numeral is the sign of its Number. *)
Lemma num_of_decimal_sign (s : bool) (m : N) (p : Z) :
  num_of_decimal s m p
  = (if s then SFopp (num_of_decimal false m p) else num_of_decimal false m p).
Proof.
  destruct s; [|reflexivity]. unfold num_of_decimal.
  destruct m as [|q]; [reflexivity|].
  destruct (0 <=? p)%Z.
  - cbn [cond_Zopp].
    destruct (Zpos q * 10 ^ p)%Z as [|M|M] eqn:E; cbn [Z.opp binary_normalize].
    + reflexivity.
    + unfold binary_round. destruct (shl_align M 0 _) as [mz ez].
      apply (binary_round_aux_sign true).
    + lia.
  - destruct (SFdiv_core_binary prec emax (Zpos q) 0 (10 ^ (- p)) 0) as [[q' e'] l].
    apply (binary_round_aux_sign true).
Qed.

(** An integral numeral is rounded as the integer it denotes. *)
Lemma num_of_decimal_integer (s : bool) (m M : positive) (p : Z) :
  (0 <= p)%Z -> Zpos M = (Zpos m * 10 ^ p)%Z ->
  num_of_decimal s (Npos m) p = binary_round prec emax s M 0.
Proof.
  intros Hp HM. unfold num_of_decimal.
  apply Z.leb_le in Hp. rewrite Hp, <- HM. destruct s; reflexivity.
Qed.

Lemma num_of_decimal_zeros (s : bool) (m M : positive) (p : Z) :
  (0 <= p)%Z -> Zpos M = (Zpos m * 10 ^ p)%Z ->
  num_of_decimal s (Npos M) 0 = num_of_decimal s (Npos m) p.
Proof.
  intros Hp HM.
  rewrite (num_of_decimal_integer s m M p Hp HM).
  apply num_of_decimal_integer; [lia|]. simpl. lia.
Qed.

Lemma candidate_denotes (m : positive) (e p : Z) (sp : N * Z) :
  candidate m e p = Some sp -> denotes (S754_finite false m e) sp = true.
Proof.
  unfold candidate. destruct (scaled m e p) as [A B].
  destruct (Z.div_eucl A B) as [lo r].
  destruct (denotes (S754_finite false m e) (normal_form lo p)) eqn:Dlo;
    destruct (denotes (S754_finite false m e) (normal_form (lo + 1) p)) eqn:Dhi;
    try discriminate.
  - destruct (2 * r <? B)%Z; [intros [= <-]; exact Dlo|].
    destruct (B <? 2 * r)%Z; [intros [= <-]; exact Dhi|].
    destruct (Z.even lo); intros [= <-]; assumption.
  - intros [= <-]. exact Dlo.
  - intros [= <-]. exact Dhi.
Qed.

Lemma shortest_from_denotes (fuel : nat) (m : positive) (e p : Z) :
  denotes (S754_finite false m e) (shortest_from fuel m e p) = true \/
  shortest_from fuel m e p = exact_decimal m e.
Proof.
  revert p. induction fuel as [|f IH]; intros p; cbn [shortest_from].
  - right. reflexivity.
  - destruct (candidate m e p) as [sp|] eqn:C.
    + left. apply (candidate_denotes m e p sp C).
    + apply IH.
Qed.

Lemma exact_decimal_denotes (m : positive) (e : Z) :
  integral (S754_finite false m e) ->
  denotes (S754_finite false m e) (exact_decimal m e) = true.
Proof.
  intros [B Z]. unfold exact_decimal. cbn [num_to_Z] in *.
  assert (R : forall y, y = S754_finite false m e ->
                        num_same y (S754_finite false m e) = true).
  { intros y ->. simpl. rewrite Pos.eqb_refl, Z.eqb_refl. reflexivity. }
  unfold denotes. destruct (0 <=? e)%Z eqn:He.
  - apply Z.leb_le in He. cbn [cond_Zopp fst snd].
    destruct (Zpos m * 2 ^ e)%Z as [|M|M] eqn:EM;
      [pose proof (Z.pow_pos_nonneg 2 e); lia | |
       pose proof (Z.pow_pos_nonneg 2 e); lia].
    apply R. cbn [Z.to_N].
    rewrite (num_of_decimal_integer false M M 0); [|lia|simpl; lia].
    apply round_integer_up; [exact B | exact He | symmetry; exact EM].
  - apply Z.leb_gt in He.
    destruct (Zpos m mod 2 ^ (- e) =? 0)%Z eqn:Hm; [|congruence].
    apply Z.eqb_eq in Hm. cbn [cond_Zopp fst snd].
    assert (P : (0 < 2 ^ (- e))%Z) by (apply Z.pow_pos_nonneg; lia).
    pose proof (Z.div_mod (Zpos m) (2 ^ (- e)) ltac:(lia)) as DM.
    rewrite Hm, Z.add_0_r in DM.
    destruct (Zpos m / 2 ^ (- e))%Z as [|M|M] eqn:EM; [lia| |lia].
    apply R. cbn [Z.to_N].
    rewrite (num_of_decimal_integer false M M 0); [|lia|simpl; lia].
    apply round_integer_down; [exact B | exact He | lia].
Qed.

(** The digits [Number::toString] picks for an integral double denote it. *)
Lemma shortest_decimal_denotes (m : positive) (e : Z) :
  integral (S754_finite false m e) ->
  num_of_decimal false (fst (shortest_decimal m e)) (snd (shortest_decimal m e))
  = S754_finite false m e.
Proof.
  intros I. apply num_same_eq. unfold shortest_decimal.
  destruct (shortest_from_denotes
              (Z.to_nat (dec_exponent m e - Z.min 0 e)) m e (dec_exponent m e - 1))
    as [D | ->].
  - exact D.
  - apply (exact_decimal_denotes m e I).
Qed.

(** ** Number literals: [parse_number] reads back what [Number::toString] writes *)

Lemma delimited_no_digit (rest : jsstring) : delimited rest -> no_digit_ahead rest.
Proof.
  destruct rest as [|c r]; [exact (fun H => H)|].
  intros [-> | [-> | ->]]; reflexivity.
Qed.

Lemma parse_exponent_plain (neg : bool) (ints fracs : list N) (rest : jsstring) :
  delimited rest ->
  parse_exponent neg ints fracs rest
  = Some (num_of_decimal neg (of_digits (ints ++ fracs))
                         (- Z.of_nat (List.length fracs)), rest).
Proof.
  destruct rest as [|c r]; [reflexivity|].
  intros [-> | [-> | ->]]; reflexivity.
Qed.

Lemma parse_exponent_exp (neg : bool) (ints fracs : list N) (ex : Z)
      (rest : jsstring) :
  delimited rest ->
  parse_exponent neg ints fracs
    (101%N :: (if (ex <? 0)%Z then 45%N else 43%N)
          :: digit_chars (Z.to_N (Z.abs ex)) ++ rest)
  = Some (num_of_decimal neg (of_digits (ints ++ fracs))
                         (ex - Z.of_nat (List.length fracs)), rest).
Proof.
  intros D. unfold parse_exponent.
  change (N.eqb 101 101 || N.eqb 101 69) with true. cbv iota.
  assert (S : span_digits (digit_chars (Z.to_N (Z.abs ex)) ++ rest)
              = (digits_of (Z.to_N (Z.abs ex)), rest)).
  { apply span_digits_chars; [apply digits_of_small | apply delimited_no_digit, D]. }
  assert (V : Z.of_N (of_digits (digits_of (Z.to_N (Z.abs ex)))) = Z.abs ex).
  { rewrite of_digits_digits_of. lia. }
  pose proof (digits_of_nonempty (Z.to_N (Z.abs ex))) as NE.
  destruct (ex <? 0)%Z eqn:Hs.
  - change (N.eqb 45 43) with false. change (N.eqb 45 45) with true. cbv iota.
    rewrite S. destruct (digits_of (Z.to_N (Z.abs ex))) as [|e0 es] eqn:E;
      [congruence|].
    rewrite V. cbn [cond_Zopp]. apply Z.ltb_lt in Hs.
    replace (- Z.abs ex)%Z with ex by lia. reflexivity.
  - change (N.eqb 43 43) with true. cbv iota.
    rewrite S. destruct (digits_of (Z.to_N (Z.abs ex))) as [|e0 es] eqn:E;
      [congruence|].
    rewrite V. cbn [cond_Zopp]. apply Z.ltb_ge in Hs.
    replace (Z.abs ex) with ex by lia. reflexivity.
Qed.

Lemma parse_fraction_plain (neg : bool) (ints : list N) (rest : jsstring) :
  delimited rest ->
  parse_fraction neg ints rest = parse_exponent neg ints [] rest.
Proof.
  destruct rest as [|c r]; [reflexivity|].
  intros [-> | [-> | ->]]; reflexivity.
Qed.

Lemma parse_fraction_dot (neg : bool) (ints fs : list N) (t : jsstring) :
  fs <> [] -> Forall (fun d => d < 10)%N fs -> no_digit_ahead t ->
  parse_fraction neg ints (46%N :: map digit_char fs ++ t)
  = parse_exponent neg ints fs t.
Proof.
  intros NE F T. unfold parse_fraction.
  change (N.eqb 46 46) with true. cbv iota.
  rewrite (span_digits_chars fs t F T).
  destruct fs; [congruence | reflexivity].
Qed.

Lemma parse_integer_digits (neg : bool) (d : N) (dt : list N) (t : jsstring) :
  d <> 0%N -> (d < 10)%N -> Forall (fun d => d < 10)%N dt -> no_digit_ahead t ->
  parse_integer neg (digit_char d :: map digit_char dt ++ t)
  = parse_fraction neg (d :: dt) t.
Proof.
  intros Z S F T. unfold parse_integer.
  assert (E : N.eqb (digit_char d) 48 = false)
    by (apply N.eqb_neq; unfold digit_char; lia).
  rewrite E, (digit_char_is_digit d S), (span_digits_chars dt t F T), digit_val_char.
  reflexivity.
Qed.

Lemma zeros_chars (j : nat) : repeat 48%N j = map digit_char (repeat 0%N j).
Proof. induction j as [|j IH]; [reflexivity|]. cbn [repeat map]. rewrite IH. reflexivity. Qed.

Lemma zeros_small (j : nat) : Forall (fun d => d < 10)%N (repeat 0%N j).
Proof. induction j; simpl; constructor; [lia | assumption]. Qed.

Lemma pow10_positive (s : positive) (j : N) :
  exists M, (Npos s * 10 ^ j)%N = Npos M /\ Zpos M = (Zpos s * 10 ^ Z.of_N j)%Z.
Proof.
  destruct (Npos s * 10 ^ j)%N as [|M] eqn:E.
  - exfalso. pose proof (N.pow_nonzero 10 j ltac:(discriminate)). lia.
  - exists M. split; [reflexivity|].
    change (Zpos M) with (Z.of_N (Npos M)). rewrite <- E.
    rewrite N2Z.inj_mul, N2Z.inj_pow. reflexivity.
Qed.

(** Step 6 of [Number::toString]: the digits, then zeros up to the units. *)
Lemma parse_format_integer (neg : bool) (s : positive) (p : Z) (rest : jsstring) :
  delimited rest -> (0 <= p)%Z ->
  parse_integer neg
    ((digit_chars (Npos s) ++ repeat 48%N (Z.to_nat p)) ++ rest)
  = Some (num_of_decimal neg (Npos s) p, rest).
Proof.
  intros D Hp.
  destruct (digits_of_head (Npos s)) as (d & dt & E & Hd0 & Hd10); [discriminate|].
  pose proof (digits_of_small (Npos s)) as F. rewrite E in F.
  inversion F as [|? ? _ Fdt]; subst.
  pose proof (of_digits_digits_of (Npos s)) as V. rewrite E in V.
  unfold digit_chars. rewrite E, zeros_chars, <- map_app. cbn [map app].
  rewrite parse_integer_digits;
    [|assumption|assumption
     |apply Forall_app; split; [assumption | apply zeros_small]
     |apply delimited_no_digit, D].
  rewrite (parse_fraction_plain _ _ _ D), (parse_exponent_plain _ _ _ _ D).
  rewrite app_nil_r. cbn [List.length Z.of_nat Z.opp].
  f_equal. f_equal.
  change (d :: dt ++ repeat 0%N (Z.to_nat p)) with ((d :: dt) ++ repeat 0%N (Z.to_nat p)).
  rewrite of_digits_app, V, of_digits_zeros, repeat_length, N.add_0_r.
  destruct (pow10_positive s (N.of_nat (Z.to_nat p))) as (M & -> & HM).
  apply (num_of_decimal_zeros neg s M p Hp).
  rewrite HM, nat_N_Z, Z2Nat.id by exact Hp. reflexivity.
Qed.

(** Step 7: digits, a point, digits. *)
Lemma parse_format_point (neg : bool) (s : positive) (i : nat) (rest : jsstring) :
  delimited rest ->
  (0 < i < List.length (digits_of (Npos s)))%nat ->
  parse_integer neg
    ((firstn i (digit_chars (Npos s)) ++ 46%N :: skipn i (digit_chars (Npos s)))
       ++ rest)
  = Some (num_of_decimal neg (Npos s)
            (Z.of_nat i - Z.of_nat (List.length (digits_of (Npos s)))), rest).
Proof.
  intros D Hi.
  destruct (digits_of_head (Npos s)) as (d & dt & E & Hd0 & Hd10); [discriminate|].
  pose proof (digits_of_small (Npos s)) as F.
  pose proof (of_digits_digits_of (Npos s)) as V.
  pose proof (firstn_skipn i (digits_of (Npos s))) as FS.
  pose proof (length_skipn i (digits_of (Npos s))) as LS.
  unfold digit_chars. rewrite firstn_map, skipn_map.
  set (a := firstn i (digits_of (Npos s))) in *.
  set (b := skipn i (digits_of (Npos s))) in *.
  assert (Fab : Forall (fun d => d < 10)%N (a ++ b)) by (rewrite FS; exact F).
  apply Forall_app in Fab. destruct Fab as [Fa Fb].
  assert (Hb : b <> []) by (intros Eb; rewrite Eb in LS; simpl in LS; lia).
  assert (Ha : exists a', a = d :: a').
  { subst a. rewrite E. destruct i as [|i]; [lia|]. cbn [firstn]. eexists. reflexivity. }
  destruct Ha as (a' & Ea). rewrite Ea in *. inversion Fa as [|? ? _ Fa']; subst.
  cbn [map app]. rewrite <- app_assoc. cbn [app].
  rewrite parse_integer_digits; [|assumption|assumption|assumption|reflexivity].
  rewrite parse_fraction_dot; [|assumption|assumption|apply delimited_no_digit, D].
  rewrite (parse_exponent_plain _ _ _ _ D). rewrite FS, V.
  f_equal. f_equal. f_equal. lia.
Qed.

(** Step 8: [0.], zeros, then the digits. *)
Lemma parse_format_small (neg : bool) (s : positive) (j : nat) (rest : jsstring) :
  delimited rest ->
  parse_integer neg
    ((48%N :: 46%N :: repeat 48%N j ++ digit_chars (Npos s)) ++ rest)
  = Some (num_of_decimal neg (Npos s)
            (- (Z.of_nat j + Z.of_nat (List.length (digits_of (Npos s))))), rest).
Proof.
  intros D.
  pose proof (digits_of_small (Npos s)) as F.
  pose proof (of_digits_digits_of (Npos s)) as V.
  pose proof (digits_of_nonempty (Npos s)) as NE.
  unfold digit_chars. rewrite zeros_chars, <- map_app. cbn [app].
  unfold parse_integer. change (N.eqb 48 48) with true. cbv iota.
  rewrite parse_fraction_dot;
    [| destruct (repeat 0%N j); [exact NE | discriminate]
     | apply Forall_app; split; [apply zeros_small | exact F]
     | apply delimited_no_digit, D].
  rewrite (parse_exponent_plain _ _ _ _ D).
  f_equal. f_equal. f_equal.
  - change ([0%N] ++ repeat 0%N j ++ digits_of (Npos s))
      with (repeat 0%N (S j) ++ digits_of (Npos s)).
    rewrite of_digits_app, of_digits_zeros, V. reflexivity.
  - rewrite length_app, repeat_length. lia.
Qed.

(** Steps 9 and 10: one digit, a point before further digits, and the
    exponent. *)
Lemma parse_format_exp (neg : bool) (s : positive) (ex : Z) (rest : jsstring) :
  delimited rest ->
  parse_integer neg
    (match digit_chars (Npos s) with
     | [] => 101%N :: (if (ex <? 0)%Z then 45%N else 43%N)
               :: digit_chars (Z.to_N (Z.abs ex))
     | [d] => d :: 101%N :: (if (ex <? 0)%Z then 45%N else 43%N)
                :: digit_chars (Z.to_N (Z.abs ex))
     | d :: dt => d :: 46%N :: dt
                    ++ 101%N :: (if (ex <? 0)%Z then 45%N else 43%N)
                    :: digit_chars (Z.to_N (Z.abs ex))
     end ++ rest)
  = Some (num_of_decimal neg (Npos s)
            (ex + 1 - Z.of_nat (List.length (digits_of (Npos s)))), rest).
Proof.
  intros D.
  destruct (digits_of_head (Npos s)) as (d & dt & E & Hd0 & Hd10); [discriminate|].
  pose proof (digits_of_small (Npos s)) as F. rewrite E in F.
  inversion F as [|? ? _ Fdt]; subst.
  pose proof (of_digits_digits_of (Npos s)) as V. rewrite E in V.
  unfold digit_chars at 1. rewrite E. cbn [map List.length].
  destruct dt as [|d1 dt].
  - cbn [map app].
    match goal with
    | |- parse_integer neg (digit_char d :: ?t) = _ =>
        refine (eq_trans
                  (parse_integer_digits neg d [] t Hd0 Hd10 (Forall_nil _) eq_refl)
                  _)
    end.
    unfold parse_fraction. change (N.eqb 101 46) with false. cbv iota.
    refine (eq_trans (parse_exponent_exp neg [d] [] ex rest D) _).
    rewrite app_nil_r, V. f_equal. f_equal. f_equal. simpl. lia.
  - cbn [map app]. rewrite <- app_assoc. cbn [app].
    match goal with
    | |- parse_integer neg (digit_char d :: ?t) = _ =>
        refine (eq_trans
                  (parse_integer_digits neg d [] t Hd0 Hd10 (Forall_nil _) eq_refl)
                  _)
    end.
    change (digit_char d1 :: map digit_char dt ++ ?t)
      with (map digit_char (d1 :: dt) ++ t).
    rewrite parse_fraction_dot; [|discriminate|assumption|reflexivity].
    refine (eq_trans (parse_exponent_exp neg [d] (d1 :: dt) ex rest D) _).
    change ([d] ++ d1 :: dt) with (d :: d1 :: dt). rewrite V.
    f_equal. f_equal. f_equal. cbn [List.length]. lia.
Qed.

(** Whatever the step of [Number::toString], the text is read back as the
    Number of the decimal [s * 10^p]. *)
Lemma parse_format_decimal (neg : bool) (s : positive) (p : Z) (rest : jsstring) :
  delimited rest ->
  parse_integer neg (format_decimal (Npos s) p ++ rest)
  = Some (num_of_decimal neg (Npos s) p, rest).
Proof.
  intros D. unfold format_decimal.
  assert (L : List.length (digit_chars (Npos s)) = List.length (digits_of (Npos s)))
    by apply length_map.
  rewrite L.
  set (k := Z.of_nat (List.length (digits_of (Npos s)))).
  destruct ((k <=? p + k)%Z && (p + k <=? 21)%Z) eqn:C1.
  - apply andb_true_iff in C1. destruct C1 as [A _]. apply Z.leb_le in A.
    replace (p + k - k)%Z with p by lia.
    apply parse_format_integer; [exact D | lia].
  - destruct ((0 <? p + k)%Z && (p + k <=? 21)%Z) eqn:C2.
    + apply andb_true_iff in C2. destruct C2 as [A B].
      apply Z.ltb_lt in A. rewrite B, andb_true_r in C1. apply Z.leb_gt in C1.
      refine (eq_trans (parse_format_point neg s (Z.to_nat (p + k)) rest D _) _);
        [subst k; lia|].
      f_equal. f_equal. f_equal. subst k. lia.
    + destruct ((-6 <? p + k)%Z && (p + k <=? 0)%Z) eqn:C3.
      * apply andb_true_iff in C3. destruct C3 as [_ B]. apply Z.leb_le in B.
        refine (eq_trans (parse_format_small neg s (Z.to_nat (- (p + k))) rest D) _).
        f_equal. f_equal. f_equal. subst k. lia.
      * refine (eq_trans (parse_format_exp neg s (p + k - 1) rest D) _).
        f_equal. f_equal. f_equal. subst k. lia.
Qed.

Lemma parse_number_unsigned (t : jsstring) (y : number * jsstring) :
  parse_integer false t = Some y -> parse_number t = Some y.
Proof.
  destruct t as [|c r]; [discriminate|]. intros H. unfold parse_number.
  destruct (N.eqb c 45) eqn:E; [|exact H].
  apply N.eqb_eq in E. subst c. discriminate H.
Qed.

(** An integral double is read back from the text [Number::toString] gives
    it. *)
Lemma parse_Number_toString (x : number) (rest : jsstring) :
  integral x -> delimited rest ->
  parse_number (Number_toString x ++ rest) = Some (x, rest).
Proof.
  intros I D. destruct x as [s|s| |s m e]; try contradiction.
  - simpl in I. subst s. apply parse_number_unsigned.
    destruct rest as [|c r]; [reflexivity|].
    destruct D as [-> | [-> | ->]]; reflexivity.
  - assert (I' : integral (S754_finite false m e)).
    { destruct I as [B Z]. split; [exact B|]. cbn [num_to_Z] in *.
      destruct (0 <=? e)%Z; [discriminate|].
      destruct (Zpos m mod 2 ^ (- e) =? 0)%Z; [discriminate | exact Z]. }
    pose proof (shortest_decimal_denotes m e I') as Den.
    cbn [Number_toString].
    destruct (shortest_decimal m e) as [d p]. cbn [fst snd] in Den.
    destruct d as [|sd]; [discriminate Den|].
    destruct s.
    + change (([45%N] ++ format_decimal (Npos sd) p) ++ rest)
        with (45%N :: format_decimal (Npos sd) p ++ rest).
      unfold parse_number. change (N.eqb 45 45) with true. cbv iota.
      rewrite (parse_format_decimal true sd p rest D).
      rewrite (num_of_decimal_sign true), Den. reflexivity.
    + apply parse_number_unsigned.
      change (([] ++ format_decimal (Npos sd) p) ++ rest)
        with (format_decimal (Npos sd) p ++ rest).
      rewrite (parse_format_decimal false sd p rest D), Den. reflexivity.
Qed.

(** ** Values: [JSON.parse] reads back what [JSON.stringify] writes *)

Lemma parse_value_string (f : nat) (t : jsstring) :
  parse_value (S f) (34%N :: t)
  = match parse_chars t with
    | Some (str, r) => Some (VStr str, r)
    | None => None
    end.
Proof. reflexivity. Qed.

Lemma parse_value_array (f : nat) (t : jsstring) :
  parse_value (S f) (91%N :: t)
  = match skip_ws t with
    | c :: r =>
        if N.eqb c 93 then Some (VArr [], r)
        else
          match parse_elements (parse_value f) (List.length t) t with
          | Some (vs, r') => Some (VArr vs, r')
          | None => None
          end
    | [] => None
    end.
Proof. reflexivity. Qed.

Lemma parse_value_object (f : nat) (t : jsstring) :
  parse_value (S f) (123%N :: t)
  = match skip_ws t with
    | c :: r =>
        if N.eqb c 125 then Some (VObj [], r)
        else
          match parse_members (parse_value f) (List.length t) t with
          | Some (ms, r') => Some (VObj (build_object ms), r')
          | None => None
          end
    | [] => None
    end.
Proof. reflexivity. Qed.

(** A text that parses starts, after white space, with a character that
    closes nothing. *)
Lemma parse_value_head (fuel : nat) (s : jsstring) (y : value * jsstring) :
  parse_value fuel s = Some y ->
  exists c r, skip_ws s = c :: r /\ N.eqb c 93 = false /\ N.eqb c 125 = false.
Proof.
  destruct fuel as [|f]; [discriminate|]. cbn [parse_value].
  destruct (skip_ws s) as [|c r]; [discriminate|]. intros H.
  exists c, r. split; [reflexivity|].
  split.
  - destruct (N.eqb c 93) eqn:E; [|reflexivity].
    apply N.eqb_eq in E. subst c. discriminate H.
  - destruct (N.eqb c 125) eqn:E; [|reflexivity].
    apply N.eqb_eq in E. subst c. discriminate H.
Qed.

Lemma parse_integer_Some_head (neg : bool) (c : char16) (r : jsstring)
      (y : number * jsstring) :
  parse_integer neg (c :: r) = Some y -> is_digit c = true.
Proof.
  unfold parse_integer. destruct (N.eqb c 48) eqn:E.
  - apply N.eqb_eq in E. subst c. reflexivity.
  - destruct (is_digit c); [reflexivity | discriminate].
Qed.

Lemma sign_or_digit (c : char16) :
  N.eqb c 45 || is_digit c = true ->
  is_json_ws c = false /\ N.eqb c 123 = false /\ N.eqb c 91 = false /\
  N.eqb c 34 = false /\ N.eqb c 116 = false /\ N.eqb c 102 = false /\
  N.eqb c 110 = false.
Proof.
  unfold is_digit, is_json_ws. intros H. apply orb_true_iff in H.
  rewrite andb_true_iff, N.eqb_eq, !N.leb_le in H.
  rewrite !orb_false_iff, !N.eqb_neq. lia.
Qed.

Lemma parse_value_number (f : nat) (s : jsstring) (x : number) (r : jsstring) :
  parse_number s = Some (x, r) -> parse_value (S f) s = Some (VNum x, r).
Proof.
  intros H. destruct s as [|c t]; [discriminate|].
  assert (Hc : N.eqb c 45 || is_digit c = true).
  { unfold parse_number in H. destruct (N.eqb c 45); [reflexivity|].
    cbn [orb]. apply (parse_integer_Some_head false c t _ H). }
  destruct (sign_or_digit c Hc) as (W & A & B & C & D & E & F).
  cbn [parse_value skip_ws]. rewrite W, A, B, C, D, E, F, Hc, H. reflexivity.
Qed.

Lemma join_cons (p : jsstring) (ps : list jsstring) :
  ps <> [] -> join (p :: ps) = p ++ 44%N :: join ps.
Proof. destruct ps; [congruence | reflexivity]. Qed.

Lemma join_length_ge (parts : list jsstring) (p : jsstring) :
  In p parts -> (List.length p <= List.length (join parts))%nat.
Proof.
  induction parts as [|q ps IH]; [contradiction|].
  intros [-> | Hin].
  - destruct ps; [apply Nat.le_refl|]. cbn [join]. rewrite length_app. lia.
  - destruct ps as [|q' ps']; [contradiction|].
    change (join (q :: q' :: ps')) with (q ++ 44%N :: join (q' :: ps')).
    rewrite length_app. cbn [List.length]. specialize (IH Hin). lia.
Qed.

Lemma join_count (parts : list jsstring) :
  Forall (fun p => p <> []) parts ->
  (List.length parts <= S (List.length (join parts)))%nat.
Proof.
  induction 1 as [|q ps Hq _ IH]; [simpl; lia|].
  destruct ps as [|q' ps'].
  - simpl. lia.
  - change (join (q :: q' :: ps')) with (q ++ 44%N :: join (q' :: ps')).
    rewrite length_app. cbn [List.length] in *.
    destruct q; [congruence|]. cbn [List.length]. lia.
Qed.

Section Elements.
Variable parse_one : jsstring -> option (value * jsstring).

Lemma parse_elements_join (l : list value) (rest : jsstring) (n : nat) :
  l <> [] -> Forall (reads_back parse_one) l -> (List.length l <= n)%nat ->
  parse_elements parse_one n (join (map JSON_stringify l) ++ 93%N :: rest)
  = Some (l, rest).
Proof.
  intros NE F. revert n. induction F as [|v l Hv F IH]; [congruence|].
  intros n Hn. destruct n as [|n]; [simpl in Hn; lia|].
  cbn [parse_elements map]. destruct l as [|v' l'].
  - cbn [map join]. rewrite (Hv (93%N :: rest)) by (right; left; reflexivity).
    reflexivity.
  - rewrite join_cons by discriminate. rewrite <- app_assoc. cbn [app].
    rewrite (Hv (44%N :: _)) by (left; reflexivity).
    cbn [skip_ws]. change (is_json_ws 44%N) with false. cbv iota.
    change (N.eqb 44 44) with true. cbv iota.
    rewrite IH; [reflexivity | discriminate | simpl in Hn |- *; lia].
Qed.

Lemma parse_members_join (l : list (jsstring * value)) (rest : jsstring) (n : nat) :
  l <> [] -> Forall (fun kv => reads_back parse_one (snd kv)) l ->
  (List.length l <= n)%nat ->
  parse_members parse_one n (join (map member_text l) ++ 125%N :: rest)
  = Some (l, rest).
Proof.
  intros NE F. revert n. induction F as [|[k v] l Hv F IH]; [congruence|].
  intros n Hn. destruct n as [|n]; [simpl in Hn; lia|].
  cbn [snd] in Hv.
  assert (Step : forall tail, delimited tail ->
            skip_ws (member_text (k, v) ++ tail) = 34%N :: quote_units k
              ++ 34%N :: 58%N :: JSON_stringify v ++ tail).
  { intros tail _. unfold member_text, quote. cbn [fst snd app].
    rewrite <- !app_assoc. reflexivity. }
  cbn [parse_members map]. destruct l as [|kv' l'].
  - cbn [map join]. rewrite Step by (right; right; reflexivity).
    change (N.eqb 34 34) with true. cbv iota. rewrite parse_quote.
    cbn [skip_ws]. change (is_json_ws 58%N) with false. cbv iota.
    change (N.eqb 58 58) with true. cbv iota.
    rewrite (Hv (125%N :: rest)) by (right; right; reflexivity).
    reflexivity.
  - rewrite join_cons by discriminate. rewrite <- app_assoc.
    change ((44%N :: join (map member_text (kv' :: l'))) ++ 125%N :: rest)
      with (44%N :: join (map member_text (kv' :: l')) ++ 125%N :: rest).
    rewrite Step by (left; reflexivity).
    change (N.eqb 34 34) with true. cbv iota. rewrite parse_quote.
    cbn [skip_ws]. change (is_json_ws 58%N) with false. cbv iota.
    change (N.eqb 58 58) with true. cbv iota.
    rewrite (Hv (44%N :: _)) by (left; reflexivity).
    cbn [skip_ws]. change (is_json_ws 44%N) with false. cbv iota.
    change (N.eqb 44 44) with true. cbv iota.
    rewrite IH; [reflexivity | discriminate | simpl in Hn |- *; lia].
Qed.
End Elements.

Lemma has_key_absent (k : jsstring) (o : list (jsstring * value)) :
  ~ In k (map fst o) -> has_key k o = false.
Proof.
  induction o as [|[k' v'] o IH]; [reflexivity|].
  cbn [map fst In has_key]. intros H.
  rewrite IH by tauto.
  assert (E : str_eqb k' k = false) by (apply str_eqb_neq; tauto).
  rewrite E. reflexivity.
Qed.

Lemma build_object_from (l acc : list (jsstring * value)) :
  NoDup (map fst (acc ++ l)) ->
  Forall (fun k => array_index k = None) (map fst l) ->
  fold_left obj_put l acc = acc ++ l.
Proof.
  revert acc. induction l as [|[k v] l IH]; intros acc ND F.
  - rewrite app_nil_r. reflexivity.
  - cbn [fold_left]. inversion F as [|? ? Hk F']; subst.
    assert (A : ~ In k (map fst acc)).
    { rewrite map_app in ND. cbn [map fst] in ND.
      apply NoDup_remove_2 in ND. intros H. apply ND, in_or_app. left. exact H. }
    assert (E : obj_put acc (k, v) = acc ++ [(k, v)]).
    { unfold obj_put. rewrite (has_key_absent k acc A), Hk. reflexivity. }
    rewrite E, IH; [rewrite <- app_assoc; reflexivity | | exact F'].
    rewrite <- app_assoc. exact ND.
Qed.

(** With plain keys the object has its members in the order of the text. *)
Lemma build_object_plain (l : list (jsstring * value)) :
  plain_keys (map fst l) -> build_object l = l.
Proof.
  intros [ND F]. unfold build_object. apply (build_object_from l [] ND F).
Qed.

Lemma json_safe_elements (l : list value) :
  fold_right (fun v P => json_safe v /\ P) True l -> Forall json_safe l.
Proof.
  induction l as [|v l IH]; [constructor|].
  intros [A B]. constructor; [exact A | exact (IH B)].
Qed.

Lemma json_safe_members (l : list (jsstring * value)) :
  fold_right (fun kv P => json_safe (snd kv) /\ P) True l ->
  Forall (fun kv => json_safe (snd kv)) l.
Proof.
  induction l as [|kv l IH]; [constructor|].
  intros [A B]. constructor; [exact A | exact (IH B)].
Qed.

Lemma parses_back_array (l : list value) :
  Forall parses_back l -> parses_back (VArr l).
Proof.
  intros IH S fuel rest Hf D.
  apply json_safe_elements in S.
  cbn [JSON_stringify] in *. cbn [List.length] in Hf.
  rewrite length_app in Hf. cbn [List.length] in Hf.
  destruct fuel as [|f]; [lia|].
  change ((91%N :: join (map JSON_stringify l) ++ [93%N]) ++ rest)
    with (91%N :: (join (map JSON_stringify l) ++ [93%N]) ++ rest).
  rewrite <- app_assoc. cbn [app]. rewrite parse_value_array.
  destruct l as [|v l']; [reflexivity|].
  assert (R : Forall (reads_back (parse_value f)) (v :: l')).
  { apply Forall_forall. intros x Hx rest' D'.
    rewrite Forall_forall in IH, S. apply (IH x Hx (S x Hx)); [|exact D'].
    pose proof (join_length_ge (map JSON_stringify (v :: l')) (JSON_stringify x)
                               (in_map _ _ _ Hx)). lia. }
  match goal with |- context [skip_ws ?u] => set (t := u) end.
  assert (P : parse_elements (parse_value f) (List.length t) t = Some (v :: l', rest)).
  { apply parse_elements_join; [discriminate | exact R |].
    assert (NE : Forall (fun p => p <> []) (map JSON_stringify (v :: l'))).
    { apply Forall_forall. intros p Hp. apply in_map_iff in Hp.
      destruct Hp as (x & <- & Hx). intros E.
      rewrite Forall_forall in R. specialize (R x Hx [] I).
      rewrite E in R. destruct f; discriminate R. }
    pose proof (join_count _ NE) as C. rewrite length_map in C.
    subst t. rewrite length_app. cbn [List.length] in *. lia. }
  assert (H : exists c r, skip_ws t = c :: r /\ N.eqb c 93 = false).
  { destruct (List.length t) as [|n] eqn:Ln; [discriminate P|].
    cbn [parse_elements] in P.
    destruct (parse_value f t) as [y|] eqn:Py; [|discriminate P].
    destruct (parse_value_head f t y Py) as (c & r & E & N & _).
    exists c, r. split; assumption. }
  destruct H as (c & r & -> & ->). rewrite P. reflexivity.
Qed.

Lemma parses_back_object (l : list (jsstring * value)) :
  Forall (fun kv => parses_back (snd kv)) l -> parses_back (VObj l).
Proof.
  intros IH [K S] fuel rest Hf D.
  apply json_safe_members in S.
  cbn [JSON_stringify] in *.
  change (map (fun kv => quote (fst kv) ++ 58%N :: JSON_stringify (snd kv)) l)
    with (map member_text l) in *.
  cbn [List.length] in Hf. rewrite length_app in Hf. cbn [List.length] in Hf.
  destruct fuel as [|f]; [lia|].
  change ((123%N :: join (map member_text l) ++ [125%N]) ++ rest)
    with (123%N :: (join (map member_text l) ++ [125%N]) ++ rest).
  rewrite <- app_assoc. cbn [app]. rewrite parse_value_object.
  destruct l as [|kv l']; [reflexivity|].
  assert (R : Forall (fun kv => reads_back (parse_value f) (snd kv)) (kv :: l')).
  { apply Forall_forall. intros x Hx rest' D'.
    rewrite Forall_forall in IH, S. apply (IH x Hx (S x Hx)); [|exact D'].
    pose proof (join_length_ge (map member_text (kv :: l')) (member_text x)
                               (in_map _ _ _ Hx)) as G.
    assert (LM : List.length (member_text x)
                 = (List.length (quote (fst x))
                    + Datatypes.S (List.length (JSON_stringify (snd x))))%nat)
      by (unfold member_text; rewrite length_app; reflexivity).
    lia. }
  match goal with |- context [skip_ws ?u] => set (t := u) end.
  assert (P : parse_members (parse_value f) (List.length t) t = Some (kv :: l', rest)).
  { apply parse_members_join; [discriminate | exact R |].
    assert (NE : Forall (fun p => p <> []) (map member_text (kv :: l'))).
    { apply Forall_forall. intros p Hp. apply in_map_iff in Hp.
      destruct Hp as (x & <- & Hx). discriminate. }
    pose proof (join_count _ NE) as C. rewrite length_map in C.
    subst t. rewrite length_app. cbn [List.length] in *. lia. }
  assert (H : skip_ws t = 34%N :: List.tl t).
  { subst t. destruct kv as [k v]. destruct l'; reflexivity. }
  rewrite H, P. change (N.eqb 34 125) with false. cbv iota.
  rewrite (build_object_plain (kv :: l') K). reflexivity.
Qed.

Lemma parses_back_all (v : value) : parses_back v.
Proof.
  induction v using value_induction.
  - intros _ [|f] rest Hf D; [simpl in Hf; lia | reflexivity].
  - intros _ [|f] rest Hf D; [destruct b; simpl in Hf; lia|].
    destruct b; reflexivity.
  - intros S fuel rest Hf D. cbn [json_safe] in S.
    assert (F : Number_isFinite x = true)
      by (destruct x; try contradiction; reflexivity).
    cbn [JSON_stringify] in *. rewrite F in *.
    pose proof (parse_Number_toString x rest S D) as P.
    destruct fuel as [|f]; [|apply (parse_value_number f _ x rest P)].
    pose proof (parse_Number_toString x [] S I) as P0.
    destruct (Number_toString x); [discriminate P0 | simpl in Hf; lia].
  - intros _ [|f] rest Hf D; [simpl in Hf; lia|].
    cbn [JSON_stringify]. unfold quote.
    change ((34%N :: quote_units s ++ [34%N]) ++ rest)
      with (34%N :: (quote_units s ++ [34%N]) ++ rest).
    rewrite <- app_assoc. cbn [app].
    rewrite parse_value_string, parse_quote. reflexivity.
  - apply parses_back_array. assumption.
  - apply parses_back_object. assumption.
Qed.

(** [JSON.parse(JSON.stringify(v))] is [v] for every safe value. *)
Lemma JSON_parse_stringify (v : value) :
  json_safe v -> JSON_parse (JSON_stringify v) = Some v.
Proof.
  intros S. unfold JSON_parse.
  pose proof (parses_back_all v S (Datatypes.S (List.length (JSON_stringify v))) []
                              ltac:(lia) I) as P.
  rewrite app_nil_r in P. rewrite P. reflexivity.
Qed.

(** ** The items as JSON *)

Lemma encode_item_safe (it : Item) :
  integral (Item.quantity it) -> integral (Item.createdAt it) ->
  json_safe (encode_item it).
Proof.
  intros Q T. unfold encode_item. cbn [json_safe map fst snd fold_right].
  repeat split; try assumption.
  - repeat constructor; vm_compute; intuition discriminate.
  - repeat constructor.
Qed.

Lemma name_quantity_integral (it : Item) :
  name_quantity_ok it -> integral (Item.quantity it).
Proof.
  intros (_ & V & z & Z & Hz).
  destruct (Item.quantity it) as [s|s| |s m e]; try discriminate Z.
  - cbn [num_to_Z] in Z. injection Z as <-. lia.
  - split; [exact V | rewrite Z; discriminate].
Qed.

Lemma encode_items_safe (l : list Item) :
  Forall well_formed l -> json_safe (encode_items l).
Proof.
  unfold encode_items. cbn [json_safe].
  induction 1 as [|it l (Q & _ & T) _ IH]; cbn [map fold_right].
  - exact I.
  - split; [|exact IH].
    apply encode_item_safe; [apply name_quantity_integral, Q | exact T].
Qed.

Lemma encode_item_injective (a b : Item) : encode_item a = encode_item b -> a = b.
Proof.
  destruct a, b. unfold encode_item. cbn. intros H. injection H as -> -> -> -> -> ->.
  reflexivity.
Qed.

Lemma encode_items_injective (l l' : list Item) :
  encode_items l = encode_items l' -> l = l'.
Proof.
  unfold encode_items. intros H. injection H as H. revert l' H.
  induction l as [|a l IH]; intros [|b l'] H; try discriminate; [reflexivity|].
  cbn [map] in H.
  assert (Ha : encode_item a = encode_item b) by congruence.
  assert (Hl : map encode_item l = map encode_item l') by congruence.
  f_equal; [apply encode_item_injective, Ha | apply IH, Hl].
Qed.

(** ** The load effect *)

Lemma load_effect_loading (got : completion (option jsstring)) (st : PageState value) :
  loading (load_effect got st) = false.
Proof. reflexivity. Qed.

(** On the first render the persist effect runs before the timer of the
    load effect fires, with the initial, empty collection: when the store
    can be written, what the timer then reads is the text of the empty
    array, whatever was stored before. *)
Lemma first_render_persists_empty (stored : option jsstring) :
  let written := persist_effect true (initial []) stored in
  written = Some (lit "[]") /\
  items (load_effect (Return written) (initial (VArr []))) = VArr [] /\
  error (load_effect (Return written) (initial (VArr []))) = None.
Proof. repeat split. Qed.

(** A value that does not parse leaves the collection to what it was. *)
Lemma load_effect_rejected (raw : jsstring) (st : PageState value) :
  JSON_parse raw = None ->
  items (load_effect (Return (Some raw)) st) = items st.
Proof.
  intros H. unfold load_effect. rewrite H. destruct (truthy raw); reflexivity.
Qed.

(** ** The invariant on names and quantities *)

Lemma update_at_Forall (P : Item -> Prop) (id : jsstring) (f : Item -> Item)
      (l : list Item) :
  (forall it, P it -> P (f it)) -> Forall P l -> Forall P (update_at id f l).
Proof.
  intros Hf H. unfold update_at. induction H as [|it l Hit _ IH]; cbn [map].
  - constructor.
  - constructor; [|exact IH]. destruct (str_eqb (Item.id it) id); auto.
Qed.

Lemma guard_passed (n : jsstring) (q : number) :
  negb (truthy (trim n)) = false ->
  negb (Number_isFinite q) || num_leb q num_zero = false ->
  trim (trim n) <> [] /\ Number_isFinite q = true.
Proof.
  intros A B. rewrite trim_idempotent. split.
  - intros E. rewrite E in A. discriminate A.
  - apply orb_false_iff in B. destruct B as [B _].
    apply negb_false_iff in B. exact B.
Qed.

(** The four handlers keep the invariant on the name and the quantity of
    every item, as long as the quantity submitted to Add or to Edit is a
    double that is at least 1.  (A fraction between 0 and 1 would be
    floored to 0; [stored_fields_ok] covers what the forms hold.) *)
Lemma handlers_keep_name_quantity (st : Page) :
  Forall name_quantity_ok (items st) ->
  (forall fresh now,
     valid_binary prec emax (quantity st) = true ->
     num_leb num_one (quantity st) = true ->
     Forall name_quantity_ok (items (addItem fresh now st))) /\
  (forall id, Forall name_quantity_ok (items (toggleCompleted id st))) /\
  (forall id, Forall name_quantity_ok (items (removeItem id st))) /\
  (forall updates e,
     editing st = Some e ->
     valid_binary prec emax (nextQty updates e) = true ->
     num_leb num_one (nextQty updates e) = true ->
     Forall name_quantity_ok (items (saveEdit updates st))).
Proof.
  intros H. split; [|split; [|split]].
  - intros fresh now V L. unfold addItem.
    destruct (negb (truthy (trim (name st)))) eqn:G1; [exact H|].
    destruct (negb (Number_isFinite (quantity st))
              || num_leb (quantity st) num_zero) eqn:G2; [exact H|].
    destruct (negb (truthy (category st))); [exact H|].
    destruct (guard_passed _ _ G1 G2) as [N F].
    destruct (floor_at_least_one _ V F L) as [V' Z'].
    constructor; [|exact H]. repeat split; assumption.
  - intros id. apply update_at_Forall; [|exact H].
    intros it K. exact K.
  - intros id. unfold removeItem. cbn [setItems items].
    apply Forall_forall. intros it Hin. apply filter_In in Hin.
    rewrite Forall_forall in H. apply H, Hin.
  - intros updates e Hed V L. unfold saveEdit. rewrite Hed.
    destruct (negb (truthy (trim (nextName updates e)))) eqn:G1; [exact H|].
    destruct (negb (Number_isFinite (nextQty updates e))
              || num_leb (nextQty updates e) num_zero) eqn:G2; [exact H|].
    destruct (guard_passed _ _ G1 G2) as [N F].
    destruct (floor_at_least_one _ V F L) as [V' Z'].
    apply update_at_Forall; [|exact H].
    intros it _. repeat split; assumption.
Qed.

(** ** Large integers as doubles *)

Lemma shr_1_half (mrs : shr_record) :
  (0 <= shr_m mrs)%Z -> shr_m (shr_1 mrs) = (shr_m mrs / 2)%Z.
Proof.
  destruct mrs as [m r s]. cbn [shr_m]. intros H.
  destruct m as [|p|p]; [reflexivity| |lia].
  destruct p as [p|p|]; cbn [shr_1 shr_m].
  - rewrite Pos2Z.inj_xI. apply (Z.div_unique _ _ _ 1); lia.
  - change (Zpos p~0) with (2 * Zpos p)%Z.
    apply (Z.div_unique _ _ _ 0); lia.
  - reflexivity.
Qed.

Lemma iter_shr_m (p : positive) (mrs : shr_record) :
  (0 <= shr_m mrs)%Z ->
  shr_m (iter_pos shr_1 p mrs) = (shr_m mrs / 2 ^ Zpos p)%Z.
Proof.
  revert mrs. induction p as [p IH | p IH |]; intros mrs H; cbn [iter_pos].
  - assert (H1 : (0 <= shr_m (shr_1 mrs))%Z)
      by (rewrite shr_1_half by exact H; apply Z.div_pos; lia).
    assert (P : (0 < 2 ^ Zpos p)%Z) by (apply Z.pow_pos_nonneg; lia).
    assert (H2 : (0 <= shr_m (iter_pos shr_1 p (shr_1 mrs)))%Z)
      by (rewrite IH by exact H1; apply Z.div_pos; lia).
    rewrite IH by exact H2. rewrite IH by exact H1. rewrite shr_1_half by exact H.
    rewrite !Zdiv.Zdiv_Zdiv by lia. f_equal.
    replace (Zpos p~1) with (1 + Zpos p + Zpos p)%Z by lia.
    rewrite !Z.pow_add_r by lia. change (2 ^ 1)%Z with 2%Z. lia.
  - assert (P : (0 < 2 ^ Zpos p)%Z) by (apply Z.pow_pos_nonneg; lia).
    assert (H2 : (0 <= shr_m (iter_pos shr_1 p mrs))%Z)
      by (rewrite IH by exact H; apply Z.div_pos; lia).
    rewrite IH by exact H2. rewrite IH by exact H.
    rewrite Zdiv.Zdiv_Zdiv by lia. f_equal.
    replace (Zpos p~0) with (Zpos p + Zpos p)%Z by lia.
    rewrite Z.pow_add_r by lia. reflexivity.
  - rewrite shr_1_half by exact H. reflexivity.
Qed.

Lemma digits2_unique (p : positive) (k : Z) :
  (2 ^ (k - 1) <= Zpos p < 2 ^ k)%Z -> Zpos (digits2_pos p) = k.
Proof.
  intros [L U]. pose proof (digits2_bounds p) as [L' U'].
  destruct (Z.lt_trichotomy (Zpos (digits2_pos p)) k) as [H | [H | H]];
    [|exact H|]; exfalso.
  - assert (T : (2 ^ Zpos (digits2_pos p) <= 2 ^ (k - 1))%Z)
      by (apply Z.pow_le_mono_r; lia).
    lia.
  - assert (K : (0 < k)%Z).
    { destruct k as [|k|k]; [simpl in U; lia | lia | simpl in U; lia]. }
    assert (T : (2 ^ k <= 2 ^ (Zpos (digits2_pos p) - 1))%Z)
      by (apply Z.pow_le_mono_r; lia).
    lia.
Qed.

Lemma round_nearest_even_bounds (m : Z) (l : location) :
  (m <= round_nearest_even m l <= m + 1)%Z.
Proof.
  destruct l as [|[| |]]; cbn [round_nearest_even]; try lia.
  destruct (Z.even m); lia.
Qed.

(** The second shift of [binary_round_aux], on a mantissa of 53 bits or on
    2^53. *)
Lemma round_second_shift (m2 : Z) (n : positive) :
  (2 ^ 52 <= m2 <= 2 ^ 53)%Z ->
  exists m3 e3,
    shr_fexp prec emax m2 (Zpos n) loc_Exact
    = (Build_shr_record (Zpos m3) false false, e3) /\
    (0 < e3)%Z /\ canonical_mantissa prec emax m3 e3 = true.
Proof.
  intros [L U]. destruct m2 as [|p|p]; [simpl in L; lia| |lia].
  destruct (Z.eq_dec (Zpos p) (2 ^ 53)) as [E | NE].
  - injection E as ->. exists 4503599627370496%positive, (Zpos n + 1)%Z.
    split; [|split; [lia|]].
    + unfold shr_fexp. cbn [Zdigits2 digits2_pos Pos.succ shr_record_of_loc].
      replace (fexp prec emax (54 + Zpos n) - Zpos n)%Z with 1%Z
        by (unfold fexp, emin, prec, emax; lia).
      reflexivity.
    + unfold canonical_mantissa. apply Z.eqb_eq.
      cbn [digits2_pos Pos.succ]. unfold fexp, emin, prec, emax. lia.
  - assert (D : Zpos (digits2_pos p) = 53%Z)
      by (apply digits2_unique; change (53 - 1)%Z with 52%Z; lia).
    exists p, (Zpos n). split; [|split; [lia|]].
    + unfold shr_fexp. cbn [Zdigits2 shr_record_of_loc]. rewrite D.
      replace (fexp prec emax (53 + Zpos n) - Zpos n)%Z with 0%Z
        by (unfold fexp, emin, prec, emax; lia).
      reflexivity.
    + unfold canonical_mantissa. apply Z.eqb_eq. rewrite D.
      unfold fexp, emin, prec, emax. lia.
Qed.

(** An integer of 54 bits or more rounds to an infinity or to a double with
    a positive exponent. *)
Lemma round_large_integer (s : bool) (M : positive) :
  (54 <= Zpos (digits2_pos M))%Z ->
  binary_round prec emax s M 0 = S754_infinity s \/
  exists m e,
    binary_round prec emax s M 0 = S754_finite s m e /\
    bounded prec emax m e = true /\ (0 < e)%Z.
Proof.
  intros Hd. pose proof (digits2_bounds M) as [LM UM].
  destruct (Zpos (digits2_pos M) - 53)%Z as [|n|n] eqn:En; [lia| |lia].
  assert (F : fexp prec emax (Zpos (digits2_pos M)) = Zpos n)
    by (unfold fexp, emin, prec, emax; lia).
  assert (R : exists m3 e3,
             binary_round prec emax s M 0
             = (if (e3 <=? emax - prec)%Z then S754_finite s m3 e3
                else S754_infinity s) /\
             (0 < e3)%Z /\ canonical_mantissa prec emax m3 e3 = true).
  { unfold binary_round. rewrite Z.add_0_r, F.
    cbn [shl_align Z.sub Z.opp Z.add].
    unfold binary_round_aux. unfold shr_fexp at 1.
    cbn [Zdigits2 shr_record_of_loc]. rewrite Z.add_0_r, F.
    cbn [Z.sub Z.opp Z.add shr].
    set (mrs := iter_pos shr_1 n (Build_shr_record (Zpos M) false false)).
    assert (V : shr_m mrs = (Zpos M / 2 ^ Zpos n)%Z)
      by (unfold mrs; rewrite iter_shr_m by (cbn; lia); reflexivity).
    assert (P : (0 < 2 ^ Zpos n)%Z) by (apply Z.pow_pos_nonneg; lia).
    assert (B1 : (2 ^ 52 <= shr_m mrs < 2 ^ 53)%Z).
    { rewrite V.
      replace (Zpos (digits2_pos M) - 1)%Z with (52 + Zpos n)%Z in LM by lia.
      replace (Zpos (digits2_pos M)) with (53 + Zpos n)%Z in UM by lia.
      rewrite Z.pow_add_r in LM, UM by lia. split.
      - apply Z.div_le_lower_bound; lia.
      - apply Z.div_lt_upper_bound; lia. }
    pose proof (round_nearest_even_bounds (shr_m mrs) (loc_of_shr_record mrs)) as B2.
    destruct (round_second_shift
                (round_nearest_even (shr_m mrs) (loc_of_shr_record mrs)) n)
      as (m3 & e3 & -> & He3 & C); [lia|].
    cbn [shr_m]. exists m3, e3. split; [reflexivity|]. split; assumption. }
  destruct R as (m3 & e3 & -> & He3 & C).
  destruct (e3 <=? emax - prec)%Z eqn:Le; [right | left; reflexivity].
  exists m3, e3. split; [reflexivity|]. split; [|exact He3].
  unfold bounded. rewrite C, Le. reflexivity.
Qed.

(** Every positive integer rounds to an infinity or to a double whose value
    is an integer that is at least 1. *)
Lemma round_integer_cases (s : bool) (M : positive) :
  binary_round prec emax s M 0 = S754_infinity s \/
  exists m e z,
    binary_round prec emax s M 0 = S754_finite s m e /\
    bounded prec emax m e = true /\
    num_to_Z (S754_finite s m e) = Some (cond_Zopp s z) /\ (1 <= z)%Z.
Proof.
  destruct (Z_le_gt_dec (Zpos (digits2_pos M)) 53) as [D | D].
  - right. destruct (round_small_integer s M D) as (m & e & E & B & He & V).
    exists m, e, (Zpos M). split; [exact E|]. split; [exact B|].
    split; [apply (num_to_Z_scaled s m M e He V) | lia].
  - destruct (round_large_integer s M ltac:(lia)) as [I | (m & e & E & B & He)];
      [left; exact I | right].
    exists m, e, (Zpos m * 2 ^ e)%Z. split; [exact E|]. split; [exact B|].
    assert (L : (0 <=? e)%Z = true) by (apply Z.leb_le; lia).
    cbn [num_to_Z]. rewrite L. split; [reflexivity|].
    pose proof (Z.pow_pos_nonneg 2 e). nia.
Qed.

(** ** Numbers without a fraction *)

Lemma num_of_decimal_whole (neg : bool) (m : N) : whole (num_of_decimal neg m 0).
Proof.
  destruct m as [|p]; [exact I|]. cbn [num_of_decimal].
  change (0 <=? 0)%Z with true. cbv iota.
  rewrite Z.pow_0_r, Z.mul_1_r.
  assert (E : binary_normalize prec emax (cond_Zopp neg (Zpos p)) 0 neg
              = binary_round prec emax neg p 0) by (destruct neg; reflexivity).
  rewrite E.
  destruct (round_integer_cases neg p) as [-> | (m & e & z & -> & B & Hz & _)];
    [exact I|].
  split; [exact B | rewrite Hz; discriminate].
Qed.

Lemma parseInt10_whole (s : jsstring) : whole (parseInt10 s).
Proof.
  unfold parseInt10.
  destruct (match trimStart s with
            | [] => (false, trimStart s)
            | c :: r =>
                if N.eqb c 45 then (true, r)
                else if N.eqb c 43 then (false, r) else (false, trimStart s)
            end) as [neg s2].
  destruct (span_digits s2) as [[|d ds] r]; [exact I|].
  apply num_of_decimal_whole.
Qed.

Lemma typed_quantity_whole (v : jsstring) : whole (typed_quantity v).
Proof. apply parseInt10_whole. Qed.

Lemma integral_whole (q : number) : integral q -> whole q.
Proof. destruct q; simpl; tauto. Qed.

(** [Math.floor] returns a Number without a fraction as it is. *)
Lemma Math_floor_whole (q : number) : whole q -> Math_floor q = q.
Proof.
  destruct q as [s|s| |s m e]; try reflexivity. intros [B W].
  cbn [Math_floor]. cbn [num_to_Z] in W.
  destruct (0 <=? e)%Z eqn:L; [reflexivity|]. apply Z.leb_gt in L.
  destruct (Zpos m mod 2 ^ (- e) =? 0)%Z eqn:D; [|congruence].
  apply Z.eqb_eq in D.
  assert (P : (0 < 2 ^ (- e))%Z) by (apply Z.pow_pos_nonneg; lia).
  pose proof (Z.div_mod (Zpos m) (2 ^ (- e)) ltac:(lia)) as Q.
  rewrite D, Z.add_0_r in Q.
  rewrite Z.shiftr_div_pow2 by lia.
  destruct (Zpos m / 2 ^ (- e))%Z as [|k|k] eqn:K; [lia| |lia].
  assert (V : Zpos m = (Zpos k * 2 ^ (- e))%Z) by lia.
  destruct s; cbn [cond_Zopp].
  - assert (N : (- Zpos m / 2 ^ (- e) = Zneg k)%Z).
    { rewrite Z.div_opp_l_z by lia. rewrite K. reflexivity. }
    change (Z.opp (Zpos m)) with (- Zpos m)%Z. rewrite N.
    apply (round_integer_down true k m e B L V).
  - rewrite K. apply (round_integer_down false k m e B L V).
Qed.

(** A Number without a fraction that passes the guard of [addItem] and
    [saveEdit] is a double whose value is an integer that is at least 1. *)
Lemma whole_accepted (q : number) :
  whole q ->
  negb (Number_isFinite q) || num_leb q num_zero = false ->
  Math_floor q = q /\
  valid_binary prec emax q = true /\
  exists z, num_to_Z q = Some z /\ (1 <= z)%Z.
Proof.
  intros W G. split; [apply Math_floor_whole, W|].
  destruct q as [s|s| |s m e]; try (destruct s; discriminate G);
    try discriminate G.
  destruct s; [discriminate G|]. destruct W as [B W].
  split; [exact B|]. cbn [num_to_Z] in *.
  destruct (0 <=? e)%Z eqn:L.
  - apply Z.leb_le in L. eexists. split; [reflexivity|].
    pose proof (Z.pow_pos_nonneg 2 e). cbn [cond_Zopp]. nia.
  - apply Z.leb_gt in L.
    destruct (Zpos m mod 2 ^ (- e) =? 0)%Z eqn:D; [|congruence].
    apply Z.eqb_eq in D. eexists. split; [reflexivity|].
    assert (P : (0 < 2 ^ (- e))%Z) by (apply Z.pow_pos_nonneg; lia).
    pose proof (Z.div_mod (Zpos m) (2 ^ (- e)) ltac:(lia)) as Q.
    rewrite D, Z.add_0_r in Q. cbn [cond_Zopp].
    destruct (Zpos m / 2 ^ (- e))%Z as [|k|k]; lia.
Qed.

(** ** What the checks let pass *)

Lemma ok_quantity_whole (q : number) :
  valid_binary prec emax q = true ->
  (exists z, num_to_Z q = Some z /\ (1 <= z)%Z) ->
  whole q /\ negb (Number_isFinite q) || num_leb q num_zero = false.
Proof.
  intros V (z & Hq & Hz). destruct q as [s|s| |s m e]; try discriminate Hq.
  - injection Hq as E. lia.
  - split; [split; [exact V | rewrite Hq; discriminate]|].
    destruct s; [|reflexivity]. exfalso. unfold num_to_Z, cond_Zopp in Hq.
    destruct (0 <=? e)%Z eqn:L.
    + assert (E : (- (Zpos m * 2 ^ e))%Z = z) by (injection Hq as E'; exact E').
      apply Z.leb_le in L.
      assert (P : (0 < 2 ^ e)%Z) by (apply Z.pow_pos_nonneg; lia).
      assert (Q : (0 < Zpos m * 2 ^ e)%Z) by (apply Z.mul_pos_pos; lia).
      lia.
    + apply Z.leb_gt in L.
      destruct (Zpos m mod 2 ^ (- e) =? 0)%Z; [|discriminate Hq].
      assert (E : (- (Zpos m / 2 ^ (- e)))%Z = z) by (injection Hq as E'; exact E').
      assert (P : (0 < 2 ^ (- e))%Z) by (apply Z.pow_pos_nonneg; lia).
      pose proof (Z.div_pos (Zpos m) (2 ^ (- e)) ltac:(lia) P). lia.
Qed.

(** What the checks of [addItem] and [saveEdit] let pass is stored with a
    name that is not blank and a quantity that is an integer from 1
    upwards, when the quantity submitted has no fraction or is a double
    that is at least 1. *)
Lemma stored_fields_ok (n : jsstring) (q : number) :
  whole q \/ (valid_binary prec emax q = true /\ num_leb num_one q = true) ->
  negb (truthy (trim n)) = false ->
  negb (Number_isFinite q) || num_leb q num_zero = false ->
  trim (trim n) <> [] /\
  valid_binary prec emax (Math_floor q) = true /\
  exists z, num_to_Z (Math_floor q) = Some z /\ (1 <= z)%Z.
Proof.
  intros Q G1 G2. destruct (guard_passed n q G1 G2) as [N F].
  split; [exact N|]. destruct Q as [W | [V L]].
  - destruct (whole_accepted q W G2) as (-> & V & Hz). split; assumption.
  - apply (floor_at_least_one q V F L).
Qed.

(** ** The quantities the forms hold *)



(* ===================================================================== *)
(** * Part III.  The properties of the specification                        *)
(* ===================================================================== *)

(** ** The handlers *)

(** C1: a valid Add (name non-empty after trimming, quantity finite and
    positive, category one of the nine values) puts exactly one new item in
    front of the collection: its name is the trimmed name, its quantity the
    floored quantity, its category the given one, it is not completed, and
    the previous collection follows unchanged.  The floored quantity of a
    double is a double with an integral value. *)
Theorem C1_addItem_valid_prepends (fresh : jsstring) (now : number) (st : Page) :
  trim (name st) <> [] ->
  Number_isFinite (quantity st) = true ->
  num_ltb num_zero (quantity st) = true ->
  In (category st) category_values ->
  items (addItem fresh now st) =
    Item.mk fresh (trim (name st)) (Math_floor (quantity st)) (category st)
            false now
    :: items st /\
  (valid_binary prec emax (quantity st) = true ->
   integral (Math_floor (quantity st))).
Proof.
  intros Hn Hf Hp Hc. split.
  - unfold addItem.
    rewrite (truthy_nonempty _ Hn). simpl negb. cbv iota.
    rewrite (quantity_guard_passes _ Hf Hp).
    rewrite (category_values_truthy _ Hc). reflexivity.
  - intros V. apply (floor_of_accepted _ V Hf Hp).
Qed.

Lemma C1_witness :
  let st := sample_page [bread] "  Milk " (num_of_Z 2) "dairy" None in
  items (addItem (lit "id-milk") sample_time st) =
    [sample_item "id-milk" "Milk" 2 "dairy" false; bread] /\
  integral (Math_floor (quantity st)).
Proof.
  intros st.
  destruct (C1_addItem_valid_prepends (lit "id-milk") sample_time st) as [E I].
  - vm_compute. discriminate.
  - reflexivity.
  - reflexivity.
  - vm_compute. tauto.
  - split; [exact E | apply I; reflexivity].
Defined.



(** C3: an Add whose name is empty or all white space leaves the collection
    as it is and reports that a name is required. *)
Theorem C3_addItem_blank_name (fresh : jsstring) (now : number) (st : Page) :
  forallb is_white_space (name st) = true ->
  items (addItem fresh now st) = items st /\
  error (addItem fresh now st) = Some msg_name_required.
Proof.
  intros H. unfold addItem. rewrite (trim_blank _ H). split; reflexivity.
Qed.

Lemma C3_witness :
  let st := sample_page [bread] "    " (num_of_Z 2) "dairy" None in
  forallb is_white_space (name st) = true /\
  items (addItem (lit "id-milk") sample_time st) = [bread] /\
  error (addItem (lit "id-milk") sample_time st) = Some msg_name_required.
Proof.
  intros st. split; [reflexivity|].
  apply (C3_addItem_blank_name (lit "id-milk") sample_time st). reflexivity.
Defined.

(** C4, as stated, fails when the name is blank too: the quantity 0 is
    rejected, but the message is the one about the name. *)
Lemma C4_counterexample_blank_name :
  let st := sample_page [bread] "" num_zero "dairy" None in
  num_leb (quantity st) num_zero = true /\
  error (addItem (lit "id-x") sample_time st) = Some msg_name_required /\
  error (addItem (lit "id-x") sample_time st) <> Some msg_quantity.
Proof.
  intros st. split; [reflexivity|]. split; [reflexivity|].
  vm_compute. discriminate.
Defined.

(** C4 (amended): an Add whose quantity is at most 0 or not finite leaves
    the collection as it is; the message is the one about the quantity when
    the name is non-empty after trimming, and the one about the name when it
    is blank (the name is checked first). *)
Theorem C4_addItem_bad_quantity (fresh : jsstring) (now : number) (st : Page) :
  Number_isFinite (quantity st) = false \/ num_leb (quantity st) num_zero = true ->
  items (addItem fresh now st) = items st /\
  (trim (name st) <> [] -> error (addItem fresh now st) = Some msg_quantity) /\
  (trim (name st) = [] -> error (addItem fresh now st) = Some msg_name_required).
Proof.
  intros H. unfold addItem. rewrite (quantity_guard_rejects _ H).
  destruct (trim (name st)) eqn:E; simpl; repeat split; congruence.
Qed.

Lemma C4_witness :
  let st := sample_page [bread] "Milk" S754_nan "dairy" None in
  Number_isFinite (quantity st) = false /\
  trim (name st) <> [] /\
  items (addItem (lit "id-x") sample_time st) = [bread] /\
  error (addItem (lit "id-x") sample_time st) = Some msg_quantity.
Proof.
  intros st.
  destruct (C4_addItem_bad_quantity (lit "id-x") sample_time st) as (I & Q & _).
  - left. reflexivity.
  - assert (N : trim (name st) <> []) by (vm_compute; discriminate).
    split; [reflexivity|]. split; [exact N|]. split; [exact I | exact (Q N)].
Defined.

(** C5: toggling the same identifier twice gives back the state it started
    from, and toggling an identifier no item has changes nothing. *)
Theorem C5_toggle_twice_and_unknown (id : jsstring) (st : Page) :
  toggleCompleted id (toggleCompleted id st) = st /\
  ((forall it, In it (items st) -> Item.id it <> id) ->
   toggleCompleted id st = st).
Proof.
  destruct st as [its ld er nm qt ct ed]. unfold toggleCompleted, setItems. simpl.
  split.
  - f_equal. apply (toggle_twice id its).
  - intros H. f_equal. apply (update_at_absent id flip_completed its H).
Qed.

Lemma C5_witness :
  let st := sample_page [bread; eggs] "" num_one "produce" None in
  toggleCompleted (lit "id-none") st = st.
Proof.
  intros st. apply (C5_toggle_twice_and_unknown (lit "id-none") st).
  intros it [<- | [<- | []]]; vm_compute; discriminate.
Defined.

(** C6: in a collection with unique identifiers, Remove of a present
    identifier deletes exactly that item (one item fewer, the others as they
    were and in the same order), and Remove of an absent identifier leaves
    the collection as it is. *)
Theorem C6_removeItem (id : jsstring) (st : Page) :
  NoDup (map Item.id (items st)) ->
  ((exists it, In it (items st) /\ Item.id it = id) ->
   exists l1 it l2,
     items st = l1 ++ it :: l2 /\ Item.id it = id /\
     items (removeItem id st) = l1 ++ l2 /\
     S (List.length (items (removeItem id st))) = List.length (items st)) /\
  ((forall it, In it (items st) -> Item.id it <> id) ->
   items (removeItem id st) = items st /\
   List.length (items (removeItem id st)) = List.length (items st)).
Proof.
  intros ND. unfold removeItem, setItems. simpl. split.
  - intros (it & Hin & Hid). apply in_split in Hin. destruct Hin as (l1 & l2 & E).
    exists l1, it, l2. rewrite E in *. rewrite map_app in ND. simpl in ND.
    apply NoDup_remove_2 in ND.
    assert (A1 : forall x, In x l1 -> Item.id x <> id).
    { intros x Hx Ex. apply ND, in_or_app. left. rewrite Hid, <- Ex.
      apply in_map, Hx. }
    assert (A2 : forall x, In x l2 -> Item.id x <> id).
    { intros x Hx Ex. apply ND, in_or_app. right. rewrite Hid, <- Ex.
      apply in_map, Hx. }
    assert (R : filter (fun x => negb (str_eqb (Item.id x) id)) (l1 ++ it :: l2)
                = l1 ++ l2).
    { rewrite filter_app. simpl. rewrite Hid, str_eqb_refl. simpl.
      rewrite (remove_absent id l1 A1), (remove_absent id l2 A2). reflexivity. }
    rewrite R. repeat split; try assumption.
    rewrite !length_app. simpl. lia.
  - intros H. rewrite (remove_absent id (items st) H). split; reflexivity.
Qed.

Lemma C6_witness :
  let st := sample_page [bread; eggs] "" num_one "produce" None in
  items (removeItem (lit "id-none") st) = [bread; eggs] /\
  exists l1 it l2,
    items st = l1 ++ it :: l2 /\ Item.id it = lit "id-eggs" /\
    items (removeItem (lit "id-eggs") st) = l1 ++ l2 /\
    S (List.length (items (removeItem (lit "id-eggs") st))) = List.length (items st).
Proof.
  intros st.
  assert (ND : NoDup (map Item.id (items st))).
  { repeat constructor; vm_compute; intuition discriminate. }
  split.
  - apply (C6_removeItem (lit "id-none") st ND).
    intros it [<- | [<- | []]]; vm_compute; discriminate.
  - apply (C6_removeItem (lit "id-eggs") st ND).
    exists eggs. split; [right; left; reflexivity | reflexivity].
Defined.

(** C7: in a collection with unique identifiers, a Save of an edit with a
    valid name and quantity replaces the targeted item where it stands and
    leaves every other item, the order and the length as they were; a Save
    with a name that is blank after trimming, or a quantity that is not
    finite or at most 0, leaves the collection as it is and sets an error. *)
Theorem C7_saveEdit_frame (updates : Partial.t) (st : Page) (target e : Item) :
  NoDup (map Item.id (items st)) ->
  In target (items st) ->
  editing st = Some e ->
  Item.id e = Item.id target ->
  (trim (nextName updates e) <> [] ->
   Number_isFinite (nextQty updates e) = true ->
   num_ltb num_zero (nextQty updates e) = true ->
   List.length (items (saveEdit updates st)) = List.length (items st) /\
   exists l1 l2,
     items st = l1 ++ target :: l2 /\
     items (saveEdit updates st) =
       l1 ++ with_fields target (trim (nextName updates e))
                         (Math_floor (nextQty updates e)) (nextCat updates e)
          :: l2) /\
  (trim (nextName updates e) = [] \/
   Number_isFinite (nextQty updates e) = false \/
   num_leb (nextQty updates e) num_zero = true ->
   items (saveEdit updates st) = items st /\
   exists msg, error (saveEdit updates st) = Some msg).
Proof.
  intros ND Hin Hed Hid. unfold saveEdit. rewrite Hed. split.
  - intros Hn Hf Hp. rewrite (truthy_nonempty _ Hn). simpl negb. cbv iota.
    rewrite (quantity_guard_passes _ Hf Hp). simpl.
    split; [unfold update_at; apply length_map|].
    apply update_at_split; [exact ND | exact Hin | symmetry; exact Hid].
  - intros [Hn | Hq].
    + rewrite Hn. simpl. split; [reflexivity | eexists; reflexivity].
    + destruct (negb (truthy (trim (nextName updates e)))).
      * simpl. split; [reflexivity | eexists; reflexivity].
      * rewrite (quantity_guard_rejects _ Hq). simpl.
        split; [reflexivity | eexists; reflexivity].
Qed.

Lemma C7_witness :
  let st := sample_page [bread; eggs] "" num_one "produce" (Some eggs) in
  let ok := form_updates (lit " Brown eggs ") (num_of_Z 6) (lit "dairy") in
  let bad := form_updates (lit "   ") (num_of_Z 6) (lit "dairy") in
  items (saveEdit ok st) =
    [bread; Item.mk (lit "id-eggs") (lit "Brown eggs") (num_of_Z 6) (lit "dairy")
                    true sample_time] /\
  items (saveEdit bad st) = [bread; eggs] /\
  error (saveEdit bad st) = Some msg_name_empty.
Proof.
  intros st ok bad.
  assert (ND : NoDup (map Item.id (items st))).
  { repeat constructor; vm_compute; intuition discriminate. }
  assert (Hin : In eggs (items st)) by (right; left; reflexivity).
  destruct (C7_saveEdit_frame ok st eggs eggs ND Hin eq_refl eq_refl) as (V & _).
  destruct (C7_saveEdit_frame bad st eggs eggs ND Hin eq_refl eq_refl) as (_ & B).
  split; [|split].
  - destruct V as (_ & l1 & l2 & _ & _);
      [vm_compute; discriminate | reflexivity | reflexivity |].
    reflexivity.
  - apply B. left. reflexivity.
  - reflexivity.
Defined.



(** ** The effects *)

(** C8: what Load does with each outcome of reading the store, from any
    state, and what it does with the stored text [{}].  An absent key and an
    empty stored string change nothing but the loading flag.  A text that
    [JSON.parse] rejects, and a read that throws, leave the collection as
    it is and set the load error: from the first render, an empty
    collection with a message.  A text that [JSON.parse] accepts becomes
    the collection unchecked: [{}] is no array of items, and it is stored
    with no error, after which the count of the remaining items throws,
    while the text [not json] gives the empty collection, the message and
    the count 0. *)
Theorem C8_wrong_shape_is_stored (start : PageState value) :
  load_effect (Return None) start = setLoading false start /\
  load_effect (Return (Some [])) start = setLoading false start /\
  load_effect Throw start
  = setLoading false (setError (Some msg_load_failed) start) /\
  (forall raw,
     raw <> [] -> JSON_parse raw = None ->
     load_effect (Return (Some raw)) start
     = setLoading false (setError (Some msg_load_failed) start)) /\
  (forall raw v,
     raw <> [] -> JSON_parse raw = Some v ->
     load_effect (Return (Some raw)) start
     = setLoading false (setItems (fun _ => v) start)) /\
  (let st := load_effect (Return (Some (lit "{}"))) (initial (VArr [])) in
   JSON_parse (lit "{}") = Some (VObj []) /\
   (forall l, VObj [] <> encode_items l) /\
   items st = VObj [] /\ error st = None /\ loading st = false /\
   remainingCount_value (items st) = Throw) /\
  (let st := load_effect (Return (Some (lit "not json"))) (initial (VArr [])) in
   JSON_parse (lit "not json") = None /\
   items st = VArr [] /\ error st = Some msg_load_failed /\ loading st = false /\
   remainingCount_value (items st) = Return 0%nat).
Proof.
  split; [reflexivity|]. split; [reflexivity|]. split; [reflexivity|].
  split; [|split; [|split]].
  - intros raw Hne Hp. unfold load_effect.
    rewrite (truthy_nonempty _ Hne), Hp. reflexivity.
  - intros raw v Hne Hp. unfold load_effect.
    rewrite (truthy_nonempty _ Hne), Hp. reflexivity.
  - cbv zeta. split; [reflexivity|]. split; [intros l; discriminate|].
    repeat split.
  - cbv zeta. repeat split.
Qed.

(** C9: the text Persist writes for a collection of well-formed items is
    read back by Load as that collection, item by item: [JSON.parse] returns
    the array of the same items, the load effect makes it the collection
    without an error, and the array stands for no other list of items. *)
Theorem C9_persist_then_load (l : list Item) :
  Forall well_formed l ->
  JSON_parse (persisted_text l) = Some (encode_items l) /\
  (forall (st : Page) (stored : option jsstring) (start : PageState value),
     items st = l ->
     items (load_effect (Return (persist_effect true st stored)) start)
       = encode_items l /\
     error (load_effect (Return (persist_effect true st stored)) start)
       = error start) /\
  (forall l', encode_items l' = encode_items l -> l' = l).
Proof.
  intros W.
  assert (P : JSON_parse (persisted_text l) = Some (encode_items l))
    by (apply JSON_parse_stringify, encode_items_safe, W).
  split; [exact P|]. split.
  - intros st stored start <-. unfold persist_effect, load_effect.
    rewrite P.
    assert (T : truthy (persisted_text (items st)) = true) by reflexivity.
    rewrite T. split; reflexivity.
  - intros l' H. apply encode_items_injective, H.
Qed.

Lemma C9_witness :
  Forall well_formed [bread; eggs] /\
  JSON_parse (persisted_text [bread; eggs]) = Some (encode_items [bread; eggs]).
Proof.
  assert (T : integral sample_time) by (split; [reflexivity | discriminate]).
  assert (Wb : well_formed bread).
  { split; [split; [vm_compute; discriminate | split; [reflexivity|]]|].
    - exists 1%Z. split; [reflexivity | lia].
    - split; [vm_compute; tauto | exact T]. }
  assert (We : well_formed eggs).
  { split; [split; [vm_compute; discriminate | split; [reflexivity|]]|].
    - exists 12%Z. split; [reflexivity | lia].
    - split; [vm_compute; tauto | exact T]. }
  assert (W : Forall well_formed [bread; eggs])
    by (constructor; [exact Wb | constructor; [exact We | constructor]]).
  split; [exact W|]. apply (C9_persist_then_load [bread; eggs] W).
Defined.

(** ** The model on known inputs and outputs *)

(** The checks of [addItem] and [saveEdit] come before the floor: on a
    state built by hand with the quantity 0.5, which no form holds (it is
    not [whole]), the checks pass and 0 is stored. *)
Example fraction_below_one_example :
  let st := sample_page [] "Milk" num_half "dairy" (Some bread) in
  ~ whole num_half /\
  items (addItem (lit "id-milk") sample_time st)
  = [Item.mk (lit "id-milk") (lit "Milk") num_zero (lit "dairy") false
             sample_time] /\
  items (saveEdit (form_updates (lit "Bread") num_half (lit "bakery"))
                  (sample_page [bread] "" num_one "produce" (Some bread)))
  = [Item.mk (lit "id-bread") (lit "Bread") num_zero (lit "bakery") false
             sample_time].
Proof.
  intros st. split; [|split; reflexivity].
  intros [_ W]. apply W. reflexivity.
Qed.

Example floor_examples :
  Math_floor num_half = num_zero /\
  Math_floor (SFdiv prec emax (num_of_Z 27) (num_of_Z 10)) = num_of_Z 2 /\
  Math_floor (SFdiv prec emax (num_of_Z (-27)) (num_of_Z 10)) = num_of_Z (-3) /\
  Math_floor (num_of_Z 12) = num_of_Z 12 /\
  Math_floor S754_nan = S754_nan /\
  Math_floor (S754_infinity false) = S754_infinity false.
Proof. vm_compute. repeat split. Qed.

Example trim_examples :
  trim (lit "  Whole milk ") = lit "Whole milk" /\
  trim [9; 160; 65; 32; 66; 8232; 65279]%N = [65; 32; 66]%N /\
  trim (lit "   ") = [] /\
  trim [133; 65]%N = [133; 65]%N.
Proof. vm_compute. repeat split. Qed.

Example number_text_examples :
  Number_toString (num_of_Z 12) = lit "12" /\
  Number_toString (num_of_Z 1700000000000) = lit "1700000000000" /\
  Number_toString (num_of_Z (2 ^ 60)) = lit "1152921504606847000" /\
  Number_toString (num_of_Z (10 ^ 21)) = lit "1e+21" /\
  Number_toString (num_of_Z (- 42)) = lit "-42" /\
  Number_toString num_half = lit "0.5" /\
  Number_toString (num_of_decimal false 1 (-1)) = lit "0.1" /\
  Number_toString (SFadd prec emax (num_of_decimal false 1 (-1))
                         (num_of_decimal false 2 (-1)))
    = lit "0.30000000000000004" /\
  Number_toString (num_of_decimal false 1 (-7)) = lit "1e-7" /\
  Number_toString (num_of_decimal false 12345 (-2)) = lit "123.45" /\
  Number_toString (num_of_decimal false 12345 (-8)) = lit "0.00012345" /\
  Number_toString (num_of_decimal false 1 23) = lit "1e+23".
Proof. vm_compute. repeat split. Qed.

Example number_value_examples :
  num_of_decimal false 1 (-1) = S754_finite false 7205759403792794 (-56) /\
  num_of_decimal false 9007199254740993 0 = num_of_Z 9007199254740992 /\
  num_of_decimal false 17976931348623159 292 = S754_infinity false /\
  num_of_decimal false 2 (-324) = S754_zero false /\
  num_of_decimal true 0 0 = S754_zero true.
Proof. vm_compute. repeat split. Qed.

Example parse_examples :
  JSON_parse (lit " [1, 2.5e1 ,true , null] ")
    = Some (VArr [VNum (num_of_Z 1); VNum (num_of_Z 25); VBool true; VNull]) /\
  JSON_parse (lit "{}") = Some (VObj []) /\
  JSON_parse (lit "") = None /\
  JSON_parse (lit "[1,]") = None /\
  JSON_parse (lit "01") = None /\
  JSON_parse (lit "[1] x") = None /\
  JSON_parse (lit "undefined") = None.
Proof. vm_compute. repeat split. Qed.

(** The text of one item, written with [34] for the double quote. *)
Example persisted_text_example :
  persisted_text [bread]
  = lit "[{" ++ quoted "id" ++ lit ":" ++ quoted "id-bread" ++ lit ","
      ++ quoted "name" ++ lit ":" ++ quoted "Bread" ++ lit ","
      ++ quoted "quantity" ++ lit ":1,"
      ++ quoted "category" ++ lit ":" ++ quoted "bakery" ++ lit ","
      ++ quoted "completed" ++ lit ":false,"
      ++ quoted "createdAt" ++ lit ":1700000000000}]".
Proof. vm_compute. reflexivity. Qed.

(** The two scenarios of the specification: Milk is added, toggled, and
    nothing remains; Bread then Eggs are added, Eggs comes first. *)
Example scenario_milk :
  let st0 := sample_page [] "Milk" (num_of_Z 2) "dairy" None in
  let st1 := addItem (lit "id-milk") sample_time st0 in
  let st2 := toggleCompleted (lit "id-milk") st1 in
  items st1 = [sample_item "id-milk" "Milk" 2 "dairy" false] /\
  items st2 = [sample_item "id-milk" "Milk" 2 "dairy" true] /\
  remainingCount st1 = 1%nat /\
  remainingCount st2 = 0%nat.
Proof. vm_compute. repeat split. Qed.

Example scenario_newest_first :
  let st0 := sample_page [] "Bread" (num_of_Z 1) "bakery" None in
  let st1 := addItem (lit "id-bread") sample_time st0 in
  let st2 := setCategory (lit "dairy")
               (setQuantity (num_of_Z 12) (setName (lit "Eggs") st1)) in
  let st3 := addItem (lit "id-eggs") sample_time st2 in
  map Item.name (items st3) = [lit "Eggs"; lit "Bread"].
Proof. vm_compute. reflexivity. Qed.

(* ===================================================================== *)
(** * Part IV.  Further properties of the code                             *)
(* ===================================================================== *)

(** ** What Add and Save do to the rest of the state *)

(** X1: every Add is either accepted or refused as a whole.  When it is
    accepted, one item with the given identifier and time, not completed,
    is put in front, the error is cleared and the form is back to its
    defaults (empty name, quantity 1, category produce).  When it is
    refused, the collection and the three fields of the form stay as they
    were and the error is one of the three messages.  In both cases the
    loading flag and the edit in progress are untouched. *)
Theorem addItem_accepts_or_refuses (fresh : jsstring) (now : number) (st : Page) :
  let st' := addItem fresh now st in
  loading st' = loading st /\
  editing st' = editing st /\
  ((exists newItem,
      items st' = newItem :: items st /\
      Item.id newItem = fresh /\
      Item.completed newItem = false /\
      Item.createdAt newItem = now /\
      error st' = None /\
      name st' = [] /\ quantity st' = num_one /\ category st' = lit "produce")
   \/
   (items st' = items st /\
    name st' = name st /\ quantity st' = quantity st /\
    category st' = category st /\
    (error st' = Some msg_name_required \/
     error st' = Some msg_quantity \/
     error st' = Some msg_category))).
Proof.
  unfold addItem.
  destruct (negb (truthy (trim (name st)))).
  { cbn. repeat split. right. repeat split. left. reflexivity. }
  destruct (negb (Number_isFinite (quantity st)) || num_leb (quantity st) num_zero).
  { cbn. repeat split. right. repeat split. right. left. reflexivity. }
  destruct (negb (truthy (category st))).
  { cbn. repeat split. right. repeat split. right. right. reflexivity. }
  cbn. repeat split. left. eexists. repeat split.
Qed.

(** X2: of the category, Add checks only that it is not the empty string.
    With a name and a quantity that pass, an empty category leaves the
    collection as it is and sets the category message, and any other
    category, one of the nine or not, is stored as it is. *)
Theorem addItem_category_check (fresh : jsstring) (now : number) (st : Page) :
  trim (name st) <> [] ->
  Number_isFinite (quantity st) = true ->
  num_ltb num_zero (quantity st) = true ->
  (category st = [] ->
   items (addItem fresh now st) = items st /\
   error (addItem fresh now st) = Some msg_category) /\
  (category st <> [] ->
   items (addItem fresh now st) =
     Item.mk fresh (trim (name st)) (Math_floor (quantity st)) (category st)
             false now
     :: items st /\
   error (addItem fresh now st) = None).
Proof.
  intros Hn Hf Hp. unfold addItem.
  rewrite (truthy_nonempty _ Hn). simpl negb. cbv iota.
  rewrite (quantity_guard_passes _ Hf Hp). split.
  - intros ->. split; reflexivity.
  - intros Hc. rewrite (truthy_nonempty _ Hc). split; reflexivity.
Qed.

Lemma addItem_category_check_witness :
  let st := sample_page [bread] "Milk" (num_of_Z 2) "" None in
  let st' := sample_page [bread] "Milk" (num_of_Z 2) "frozen" None in
  (items (addItem (lit "id-milk") sample_time st) = [bread] /\
   error (addItem (lit "id-milk") sample_time st) = Some msg_category) /\
  (~ In (lit "frozen") category_values /\
   items (addItem (lit "id-milk") sample_time st') =
     [sample_item "id-milk" "Milk" 2 "frozen" false; bread]).
Proof.
  intros st st'.
  assert (N : trim (lit "Milk") <> []) by (vm_compute; discriminate).
  destruct (addItem_category_check (lit "id-milk") sample_time st N
              eq_refl eq_refl) as [A _].
  destruct (addItem_category_check (lit "id-milk") sample_time st' N
              eq_refl eq_refl) as [_ B].
  split; [apply A; reflexivity|]. split.
  - vm_compute. intuition discriminate.
  - apply B. vm_compute. discriminate.
Defined.

Lemma update_at_map (A : Type) (g : Item -> A) (id : jsstring) (f : Item -> Item)
      (l : list Item) :
  (forall it, g (f it) = g it) -> map g (update_at id f l) = map g l.
Proof.
  intros H. unfold update_at. rewrite map_map. apply map_ext. intros it.
  destruct (str_eqb (Item.id it) id); [apply H | reflexivity].
Qed.

(** X3: a Save during an edit never touches the add form or the loading
    flag, and never adds, drops or reorders items or changes an identifier,
    a completion flag or a creation time.  Either it is accepted: the edit
    ends and the error stays what it was, an earlier message included.  Or
    it is refused: the edit stays open, the collection is unchanged and the
    error is the name message or the quantity message. *)
Theorem saveEdit_accepts_or_refuses (updates : Partial.t) (st : Page) (e : Item) :
  editing st = Some e ->
  let st' := saveEdit updates st in
  (name st' = name st /\ quantity st' = quantity st /\
   category st' = category st /\ loading st' = loading st) /\
  (map Item.id (items st') = map Item.id (items st) /\
   map Item.completed (items st') = map Item.completed (items st) /\
   map Item.createdAt (items st') = map Item.createdAt (items st)) /\
  ((editing st' = None /\ error st' = error st)
   \/
   (editing st' = Some e /\ items st' = items st /\
    (error st' = Some msg_name_empty \/ error st' = Some msg_quantity))).
Proof.
  intros Hed. unfold saveEdit. rewrite Hed.
  destruct (negb (truthy (trim (nextName updates e)))).
  { cbn. repeat split. right. repeat split; [exact Hed | left; reflexivity]. }
  destruct (negb (Number_isFinite (nextQty updates e))
            || num_leb (nextQty updates e) num_zero).
  { cbn. repeat split. right. repeat split; [exact Hed | right; reflexivity]. }
  cbn. split; [repeat split|]. split; [|left; split; reflexivity].
  repeat split; apply update_at_map; reflexivity.
Qed.

Lemma saveEdit_accepts_or_refuses_witness :
  let st := mkPage [bread; eggs] false (Some msg_category) (lit "Tea") num_one
                   (lit "pantry") (Some eggs) in
  let st' := saveEdit (form_updates (lit "Eggs") (num_of_Z 6) (lit "dairy")) st in
  editing st' = None /\ error st' = Some msg_category /\
  map Item.id (items st') = [lit "id-bread"; lit "id-eggs"] /\
  name st' = lit "Tea".
Proof.
  intros st st'.
  destruct (saveEdit_accepts_or_refuses
              (form_updates (lit "Eggs") (num_of_Z 6) (lit "dairy")) st eggs
              eq_refl) as ((N & _) & (I & _) & _).
  split; [reflexivity|]. split; [reflexivity|]. split; [exact I | exact N].
Defined.

(** X4: an error message stays until an Add is accepted.  When a message
    is set and a control leaves none, the control was Add and it has put a
    new item in front of the collection; typing, picking a category,
    ticking, Delete, Edit, Cancel, closing the dialog and Save, accepted or
    refused, never clear a message. *)
Theorem error_stays_until_add (a : action) (st : Page) :
  error st <> None -> error (perform a st) = None ->
  exists fresh now newItem,
    a = ClickAdd fresh now /\
    items (perform a st) = newItem :: items st.
Proof.
  intros E H. destruct a as [v|v|v|fresh now|id|id|item|f| |open];
    cbn [perform] in *; try (exfalso; exact (E H)).
  - exists fresh, now. revert H. unfold addItem.
    destruct (negb (truthy (trim (name st)))); [discriminate|].
    destruct (negb (Number_isFinite (quantity st))
              || num_leb (quantity st) num_zero); [discriminate|].
    destruct (negb (truthy (category st))); [discriminate|].
    intros _. eexists. split; reflexivity.
  - exfalso. revert H. unfold saveEdit.
    destruct (editing st) as [e|]; [|exact E].
    destruct (negb (truthy (trim (nextName (EditForm.save f) e))));
      [discriminate|].
    destruct (negb (Number_isFinite (nextQty (EditForm.save f) e))
              || num_leb (nextQty (EditForm.save f) e) num_zero);
      [discriminate | exact E].
  - exfalso. destruct open; exact (E H).
Qed.

Lemma error_stays_until_add_witness :
  let st := mkPage [bread] false (Some msg_name_empty) (lit "Milk") num_one
                   (lit "dairy") None in
  error (perform (ClickCheckbox (lit "id-bread")) st) = Some msg_name_empty /\
  exists fresh now newItem,
    ClickAdd (lit "id-milk") sample_time = ClickAdd fresh now /\
    items (perform (ClickAdd (lit "id-milk") sample_time) st) = newItem :: items st.
Proof.
  intros st. split; [reflexivity|].
  apply (error_stays_until_add (ClickAdd (lit "id-milk") sample_time) st).
  - discriminate.
  - reflexivity.
Defined.

(** ** Identifiers *)

Lemma filter_map_NoDup (A B : Type) (g : A -> B) (p : A -> bool) (l : list A) :
  NoDup (map g l) -> NoDup (map g (filter p l)).
Proof.
  induction l as [|a l IH]; cbn [map filter]; intros H; [constructor|].
  inversion H as [|x xs Hn Hl]; subst.
  destruct (p a); cbn [map]; [|apply IH, Hl].
  constructor; [|apply IH, Hl].
  intros Hin. apply Hn. apply in_map_iff in Hin. destruct Hin as (y & E & Hy).
  apply in_map_iff. exists y. split; [exact E|]. apply filter_In in Hy. apply Hy.
Qed.

Lemma saveEdit_ids (updates : Partial.t) (st : Page) :
  map Item.id (items (saveEdit updates st)) = map Item.id (items st).
Proof.
  unfold saveEdit. destruct (editing st) as [e|]; [|reflexivity].
  destruct (negb (truthy (trim (nextName updates e)))); [reflexivity|].
  destruct (negb (Number_isFinite (nextQty updates e))
            || num_leb (nextQty updates e) num_zero); [reflexivity|].
  cbn. apply update_at_map. reflexivity.
Qed.

Lemma addItem_items (fresh : jsstring) (now : number) (st : Page) :
  items (addItem fresh now st) = items st \/
  exists n q c, items (addItem fresh now st) = Item.mk fresh n q c false now :: items st.
Proof.
  unfold addItem.
  destruct (negb (truthy (trim (name st)))); [left; reflexivity|].
  destruct (negb (Number_isFinite (quantity st)) || num_leb (quantity st) num_zero);
    [left; reflexivity|].
  destruct (negb (truthy (category st))); [left; reflexivity|].
  right. eexists _, _, _. reflexivity.
Qed.

(** X5: Toggle, Remove and Save keep the identifiers of a collection
    distinct, and so does Add when the new identifier is not in the
    collection yet.  When it is there already, an accepted Add leaves two
    items with the same identifier. *)
Theorem handlers_keep_ids_distinct (st : Page) :
  NoDup (map Item.id (items st)) ->
  (forall id, NoDup (map Item.id (items (toggleCompleted id st)))) /\
  (forall id, NoDup (map Item.id (items (removeItem id st)))) /\
  (forall updates, NoDup (map Item.id (items (saveEdit updates st)))) /\
  (forall fresh now,
     (forall it, In it (items st) -> Item.id it <> fresh) ->
     NoDup (map Item.id (items (addItem fresh now st)))) /\
  (forall fresh now it,
     In it (items st) -> Item.id it = fresh ->
     items (addItem fresh now st) <> items st ->
     ~ NoDup (map Item.id (items (addItem fresh now st)))).
Proof.
  intros ND. split; [|split; [|split; [|split]]].
  - intros id. unfold toggleCompleted. cbn [setItems items].
    rewrite update_at_map by reflexivity. exact ND.
  - intros id. unfold removeItem. cbn [setItems items].
    apply filter_map_NoDup, ND.
  - intros updates. rewrite saveEdit_ids. exact ND.
  - intros fresh now Hf.
    destruct (addItem_items fresh now st) as [-> | (n & q & c & ->)]; [exact ND|].
    cbn [map Item.id]. constructor; [|exact ND]. intros Hin.
    apply in_map_iff in Hin. destruct Hin as (it & E & Hit).
    exact (Hf it Hit E).
  - intros fresh now it Hin Hid Hne.
    destruct (addItem_items fresh now st) as [E | (n & q & c & E)];
      [contradiction|].
    rewrite E. cbn [map Item.id]. intros H. inversion H as [|x xs Hx _]; subst.
    apply Hx. apply in_map_iff. exists it. split; [reflexivity | exact Hin].
Qed.

Lemma handlers_keep_ids_distinct_witness :
  let st := sample_page [bread; eggs] "Milk" num_one "dairy" (Some eggs) in
  NoDup (map Item.id (items (toggleCompleted (lit "id-eggs") st))) /\
  NoDup (map Item.id (items (removeItem (lit "id-eggs") st))) /\
  NoDup (map Item.id (items (saveEdit (form_updates (lit "Egg") num_one
                                                    (lit "dairy")) st))) /\
  NoDup (map Item.id (items (addItem (lit "id-milk") sample_time st))) /\
  ~ NoDup (map Item.id (items (addItem (lit "id-eggs") sample_time st))).
Proof.
  intros st.
  assert (ND : NoDup (map Item.id (items st))).
  { repeat constructor; vm_compute; intuition discriminate. }
  destruct (handlers_keep_ids_distinct st ND) as (T & R & S & A & B).
  split; [apply T|]. split; [apply R|]. split; [apply S|]. split.
  - apply A. intros it [<- | [<- | []]]; vm_compute; discriminate.
  - apply (B (lit "id-eggs") sample_time eggs).
    + right. left. reflexivity.
    + reflexivity.
    + vm_compute. discriminate.
Defined.

(** ** The count of the items that remain *)

Lemma remaining_app (l1 l2 : list Item) :
  List.length (filter (fun i => negb (Item.completed i)) (l1 ++ l2))
  = (List.length (filter (fun i => negb (Item.completed i)) l1)
     + List.length (filter (fun i => negb (Item.completed i)) l2))%nat.
Proof. rewrite filter_app, length_app. reflexivity. Qed.

Lemma remove_split (l : list Item) (it : Item) :
  NoDup (map Item.id l) -> In it l ->
  exists l1 l2,
    l = l1 ++ it :: l2 /\
    filter (fun x => negb (str_eqb (Item.id x) (Item.id it))) l = l1 ++ l2.
Proof.
  intros ND Hin. apply in_split in Hin. destruct Hin as (l1 & l2 & ->).
  exists l1, l2. split; [reflexivity|].
  rewrite map_app in ND. simpl in ND. apply NoDup_remove_2 in ND.
  assert (A1 : forall x, In x l1 -> Item.id x <> Item.id it).
  { intros x Hx Ex. apply ND, in_or_app. left. rewrite <- Ex. apply in_map, Hx. }
  assert (A2 : forall x, In x l2 -> Item.id x <> Item.id it).
  { intros x Hx Ex. apply ND, in_or_app. right. rewrite <- Ex. apply in_map, Hx. }
  rewrite filter_app. cbn [filter]. rewrite str_eqb_refl. cbn [negb].
  rewrite (remove_absent _ l1 A1), (remove_absent _ l2 A2). reflexivity.
Qed.

(** X6: in a collection with distinct identifiers, ticking the checkbox of
    an item changes the count of the remaining items by exactly one: one
    more when the item was completed, one fewer when it was not.  The item
    is flipped where it stands and the other items stay as they were. *)
Theorem toggleCompleted_remaining (st : Page) (it : Item) :
  NoDup (map Item.id (items st)) -> In it (items st) ->
  let st' := toggleCompleted (Item.id it) st in
  (if Item.completed it
   then remainingCount st' = S (remainingCount st)
   else S (remainingCount st') = remainingCount st) /\
  exists l1 l2,
    items st = l1 ++ it :: l2 /\
    items st' = l1 ++ flip_completed it :: l2.
Proof.
  intros ND Hin.
  destruct (update_at_split (Item.id it) flip_completed (items st) it ND Hin
              eq_refl) as (l1 & l2 & E & U).
  cbv zeta. split; [|exists l1, l2; split; [exact E | exact U]].
  unfold remainingCount, toggleCompleted. cbn [setItems items].
  rewrite U, E, !remaining_app. cbn [filter flip_completed Item.completed].
  destruct (Item.completed it); cbn [negb List.length]; lia.
Qed.

Lemma toggleCompleted_remaining_witness :
  let st := sample_page [bread; eggs] "" num_one "produce" None in
  remainingCount st = 1%nat /\
  remainingCount (toggleCompleted (lit "id-eggs") st) = 2%nat /\
  remainingCount (toggleCompleted (lit "id-bread") st) = 0%nat.
Proof.
  intros st.
  assert (ND : NoDup (map Item.id (items st))).
  { repeat constructor; vm_compute; intuition discriminate. }
  destruct (toggleCompleted_remaining st eggs ND) as [E _];
    [right; left; reflexivity|].
  destruct (toggleCompleted_remaining st bread ND) as [B _];
    [left; reflexivity|].
  cbn [eggs bread sample_item Item.completed] in E, B.
  change (Item.id eggs) with (lit "id-eggs") in E.
  change (Item.id bread) with (lit "id-bread") in B.
  assert (R : remainingCount st = 1%nat) by reflexivity.
  rewrite R in E, B. split; [exact R|]. split; [exact E | lia].
Defined.

(** X7: the count of the remaining items is at most the number of items.
    An accepted Add raises it by one, since the new item is not completed.
    Remove never raises it, and in a collection with distinct identifiers
    the Remove of an item lowers it by one when the item was not completed
    and leaves it as it is when the item was completed. *)
Theorem remainingCount_add_remove (st : Page) :
  (remainingCount st <= List.length (items st))%nat /\
  (forall fresh now,
     items (addItem fresh now st) <> items st ->
     remainingCount (addItem fresh now st) = S (remainingCount st)) /\
  (forall id, (remainingCount (removeItem id st) <= remainingCount st)%nat) /\
  (forall it,
     NoDup (map Item.id (items st)) -> In it (items st) ->
     (remainingCount (removeItem (Item.id it) st)
      + (if Item.completed it then 0 else 1) = remainingCount st)%nat).
Proof.
  unfold remainingCount. split; [apply filter_length_le|]. split; [|split].
  - intros fresh now Hne.
    destruct (addItem_items fresh now st) as [E | (n & q & c & ->)];
      [contradiction | reflexivity].
  - intros id. unfold removeItem. cbn [setItems items].
    induction (items st) as [|a l IH]; cbn [filter]; [lia|].
    destruct (negb (str_eqb (Item.id a) id)); cbn [filter];
      destruct (negb (Item.completed a)); cbn [List.length]; lia.
  - intros it ND Hin. unfold removeItem. cbn [setItems items].
    destruct (remove_split (items st) it ND Hin) as (l1 & l2 & E & ->).
    rewrite E, !remaining_app. cbn [filter].
    destruct (Item.completed it); cbn [negb List.length]; lia.
Qed.

Lemma remainingCount_add_remove_witness :
  let st := sample_page [bread; eggs] "Milk" num_one "dairy" None in
  remainingCount st = 1%nat /\
  remainingCount (addItem (lit "id-milk") sample_time st) = 2%nat /\
  remainingCount (removeItem (lit "id-bread") st) = 0%nat /\
  remainingCount (removeItem (lit "id-eggs") st) = 1%nat.
Proof.
  intros st.
  assert (ND : NoDup (map Item.id (items st))).
  { repeat constructor; vm_compute; intuition discriminate. }
  destruct (remainingCount_add_remove st) as (_ & A & _ & R).
  assert (C : remainingCount st = 1%nat) by reflexivity.
  split; [exact C|]. split; [|split].
  - rewrite A; [rewrite C; reflexivity | vm_compute; discriminate].
  - pose proof (R bread ND (or_introl eq_refl)) as B.
    change (Item.id bread) with (lit "id-bread") in B.
    cbn [bread sample_item Item.completed] in B. lia.
  - pose proof (R eggs ND (or_intror (or_introl eq_refl))) as B.
    change (Item.id eggs) with (lit "id-eggs") in B.
    cbn [eggs sample_item Item.completed] in B. lia.
Defined.

(** ** How Toggle and Remove compose *)

Lemma filter_twice (A : Type) (p : A -> bool) (l : list A) :
  filter p (filter p l) = filter p l.
Proof.
  induction l as [|a l IH]; cbn [filter]; [reflexivity|].
  destruct (p a) eqn:E; cbn [filter]; [rewrite E, IH; reflexivity | exact IH].
Qed.

Lemma filter_swap (A : Type) (p q : A -> bool) (l : list A) :
  filter p (filter q l) = filter q (filter p l).
Proof.
  induction l as [|a l IH]; cbn [filter]; [reflexivity|].
  destruct (p a) eqn:P, (q a) eqn:Q; cbn [filter]; rewrite ?P, ?Q, IH; reflexivity.
Qed.

Lemma filter_map_commute (A : Type) (p : A -> bool) (g : A -> A) (l : list A) :
  (forall a, p (g a) = p a) -> filter p (map g l) = map g (filter p l).
Proof.
  intros H. induction l as [|a l IH]; cbn [filter map]; [reflexivity|].
  rewrite H. destruct (p a); cbn [map]; rewrite IH; reflexivity.
Qed.

(** X8: Remove deletes every item that has the identifier, also when
    several items share it, and keeps the others: an item is in the
    collection afterwards exactly when it was there before under another
    identifier.  A second Remove of the same identifier changes nothing. *)
Theorem removeItem_every_match (id : jsstring) (st : Page) :
  (forall it,
     In it (items (removeItem id st)) <->
     In it (items st) /\ Item.id it <> id) /\
  removeItem id (removeItem id st) = removeItem id st.
Proof.
  split.
  - intros it. unfold removeItem. cbn [setItems items]. rewrite filter_In.
    rewrite negb_true_iff, str_eqb_neq. reflexivity.
  - destruct st as [its ld er nm qt ct ed]. unfold removeItem, setItems. simpl.
    f_equal.
    apply filter_twice.
Qed.

(** X9: Toggle and Remove can be done in any order: two Toggles commute,
    two Removes commute, and a Toggle commutes with a Remove, whatever the
    identifiers; a Toggle followed by the Remove of the same identifier is
    that Remove. *)
Theorem toggle_remove_commute (a b : jsstring) (st : Page) :
  toggleCompleted a (toggleCompleted b st) = toggleCompleted b (toggleCompleted a st) /\
  removeItem a (removeItem b st) = removeItem b (removeItem a st) /\
  removeItem a (toggleCompleted b st) = toggleCompleted b (removeItem a st) /\
  removeItem a (toggleCompleted a st) = removeItem a st.
Proof.
  destruct st as [its ld er nm qt ct ed].
  unfold toggleCompleted, removeItem, setItems, update_at. simpl.
  split; [|split; [|split]]; f_equal.
  - rewrite !map_map. apply map_ext. intros it.
    destruct (str_eqb (Item.id it) a) eqn:A, (str_eqb (Item.id it) b) eqn:B;
      cbn [flip_completed Item.id]; rewrite ?A, ?B; reflexivity.
  - apply filter_swap.
  - apply filter_map_commute. intros it.
    destruct (str_eqb (Item.id it) b); reflexivity.
  - rewrite filter_map_commute
      by (intros it; destruct (str_eqb (Item.id it) a) eqn:E;
          cbn [flip_completed Item.id]; rewrite ?E; reflexivity).
    rewrite <- (map_id (filter _ its)) at 2. apply map_ext_in.
    intros it Hin. apply filter_In in Hin. destruct Hin as [_ Hn].
    apply negb_true_iff in Hn. rewrite Hn. reflexivity.
Qed.

(** X10: when the new identifier is not in the collection, an Add followed
    by the Remove of the new identifier gives back the collection as it
    was, whether the Add was accepted or refused. *)
Theorem add_then_remove (fresh : jsstring) (now : number) (st : Page) :
  (forall it, In it (items st) -> Item.id it <> fresh) ->
  items (removeItem fresh (addItem fresh now st)) = items st.
Proof.
  intros Hf. unfold removeItem. cbn [setItems items].
  destruct (addItem_items fresh now st) as [-> | (n & q & c & ->)].
  - apply remove_absent, Hf.
  - cbn [filter Item.id]. rewrite str_eqb_refl. cbn [negb].
    apply remove_absent, Hf.
Qed.

Lemma add_then_remove_witness :
  let st := sample_page [bread; eggs] "Milk" num_one "dairy" None in
  items (addItem (lit "id-milk") sample_time st) <> items st /\
  items (removeItem (lit "id-milk") (addItem (lit "id-milk") sample_time st))
  = [bread; eggs].
Proof.
  intros st. split; [vm_compute; discriminate|].
  apply (add_then_remove (lit "id-milk") sample_time st).
  intros it [<- | [<- | []]]; vm_compute; discriminate.
Defined.

(** ** The invariants of the data model *)

Lemma addItem_well_formed (fresh : jsstring) (now : number) (st : Page) :
  Forall well_formed (items st) ->
  whole (quantity st) \/
  (valid_binary prec emax (quantity st) = true /\
   num_leb num_one (quantity st) = true) ->
  In (category st) category_values -> integral now ->
  Forall well_formed (items (addItem fresh now st)).
Proof.
  intros H Q C T. unfold addItem.
  destruct (negb (truthy (trim (name st)))) eqn:G1; [exact H|].
  destruct (negb (Number_isFinite (quantity st))
            || num_leb (quantity st) num_zero) eqn:G2; [exact H|].
  destruct (negb (truthy (category st))); [exact H|].
  destruct (stored_fields_ok _ _ Q G1 G2) as (N & V & Hz).
  constructor; [|exact H]. repeat split; assumption.
Qed.

Lemma saveEdit_well_formed (updates : Partial.t) (st : Page) (e : Item) :
  Forall well_formed (items st) ->
  editing st = Some e ->
  whole (nextQty updates e) \/
  (valid_binary prec emax (nextQty updates e) = true /\
   num_leb num_one (nextQty updates e) = true) ->
  In (nextCat updates e) category_values ->
  Forall well_formed (items (saveEdit updates st)).
Proof.
  intros H Hed Q C. unfold saveEdit. rewrite Hed.
  destruct (negb (truthy (trim (nextName updates e)))) eqn:G1; [exact H|].
  destruct (negb (Number_isFinite (nextQty updates e))
            || num_leb (nextQty updates e) num_zero) eqn:G2; [exact H|].
  destruct (stored_fields_ok _ _ Q G1 G2) as (N & V & Hz).
  apply update_at_Forall; [|exact H].
  intros it (_ & _ & T). repeat split; assumption.
Qed.

Lemma toggleCompleted_well_formed (id : jsstring) (st : Page) :
  Forall well_formed (items st) ->
  Forall well_formed (items (toggleCompleted id st)).
Proof.
  intros H. apply update_at_Forall; [|exact H]. intros it K. exact K.
Qed.

Lemma removeItem_well_formed (id : jsstring) (st : Page) :
  Forall well_formed (items st) ->
  Forall well_formed (items (removeItem id st)).
Proof.
  intros H. unfold removeItem. cbn [setItems items].
  apply Forall_forall. intros it Hin. apply filter_In in Hin.
  rewrite Forall_forall in H. apply H, Hin.
Qed.

(** X11: the four handlers keep every item well formed (a name that is not
    blank, a quantity that is an integer from 1 upwards, a category of the
    nine, a creation time that is an integer), as long as the quantity
    handed to Add or to Save is a double that is at least 1, the category is
    one of the nine and the time is an integer.  A quantity such as 2.5
    qualifies: it is stored as 2. *)
Theorem handlers_keep_well_formed (st : Page) :
  Forall well_formed (items st) ->
  (forall fresh now,
     valid_binary prec emax (quantity st) = true ->
     num_leb num_one (quantity st) = true ->
     In (category st) category_values -> integral now ->
     Forall well_formed (items (addItem fresh now st))) /\
  (forall id, Forall well_formed (items (toggleCompleted id st))) /\
  (forall id, Forall well_formed (items (removeItem id st))) /\
  (forall updates e,
     editing st = Some e ->
     valid_binary prec emax (nextQty updates e) = true ->
     num_leb num_one (nextQty updates e) = true ->
     In (nextCat updates e) category_values ->
     Forall well_formed (items (saveEdit updates st))).
Proof.
  intros H. split; [|split; [|split]].
  - intros fresh now V L C T. apply addItem_well_formed; auto.
  - intros id. apply toggleCompleted_well_formed, H.
  - intros id. apply removeItem_well_formed, H.
  - intros updates e Hed V L C. apply (saveEdit_well_formed updates st e); auto.
Qed.

Lemma sample_items_well_formed : Forall well_formed [bread; eggs].
Proof.
  assert (T : integral sample_time) by (split; [reflexivity | discriminate]).
  constructor; [|constructor; [|constructor]].
  - split; [split; [vm_compute; discriminate | split; [reflexivity|]]|].
    + exists 1%Z. split; [reflexivity | lia].
    + split; [vm_compute; tauto | exact T].
  - split; [split; [vm_compute; discriminate | split; [reflexivity|]]|].
    + exists 12%Z. split; [reflexivity | lia].
    + split; [vm_compute; tauto | exact T].
Qed.

Lemma handlers_keep_well_formed_witness :
  let st := sample_page [bread; eggs] " Milk" two_and_a_half "dairy" (Some eggs) in
  items (addItem (lit "id-milk") sample_time st)
  = [sample_item "id-milk" "Milk" 2 "dairy" false; bread; eggs] /\
  Forall well_formed (items (addItem (lit "id-milk") sample_time st)) /\
  Forall well_formed (items (toggleCompleted (lit "id-eggs") st)) /\
  Forall well_formed (items (removeItem (lit "id-eggs") st)) /\
  Forall well_formed
    (items (saveEdit (form_updates (lit "Eggs") two_and_a_half (lit "dairy")) st)).
Proof.
  intros st.
  destruct (handlers_keep_well_formed st sample_items_well_formed)
    as (A & T & R & S).
  split; [reflexivity|]. split; [|split; [|split]].
  - apply A; [reflexivity | reflexivity | vm_compute; tauto |].
    split; [reflexivity | discriminate].
  - apply T.
  - apply R.
  - apply (S _ eggs); [reflexivity | reflexivity | reflexivity | vm_compute; tauto].
Defined.

(** ** The quantity inputs *)

(** X12: what a quantity input hands to the state has no fraction: it is
    NaN, a zero, an infinity or a double with an integral value, and an
    emptied input counts as 1.  So an Add with a quantity that came from
    the input is refused, or it stores that very quantity, which is an
    integer that is at least 1: no fraction and no 0 gets into the
    collection this way. *)
Theorem typed_quantity_add (v fresh : jsstring) (now : number) (st : Page) :
  let st1 := changeQuantity v st in
  typed_quantity [] = num_one /\
  whole (quantity st1) /\
  (items (addItem fresh now st1) = items st \/
   (items (addItem fresh now st1) =
      Item.mk fresh (trim (name st)) (typed_quantity v) (category st) false now
      :: items st /\
    valid_binary prec emax (typed_quantity v) = true /\
    exists z, num_to_Z (typed_quantity v) = Some z /\ (1 <= z)%Z)).
Proof.
  cbv zeta. split; [reflexivity|]. split; [apply typed_quantity_whole|].
  unfold addItem, changeQuantity. cbn [setQuantity name quantity category].
  destruct (negb (truthy (trim (name st)))); [left; reflexivity|].
  destruct (negb (Number_isFinite (typed_quantity v))
            || num_leb (typed_quantity v) num_zero) eqn:G; [left; reflexivity|].
  destruct (negb (truthy (category st))); [left; reflexivity|].
  right.
  destruct (whole_accepted _ (typed_quantity_whole v) G) as (F & V & Hz).
  rewrite F. split; [reflexivity|]. split; assumption.
Qed.

(** X13: the same in the edit dialog: a Save with a quantity that came
    from the input of the dialog is refused, or every item it changes gets
    that very quantity, an integer that is at least 1. *)
Theorem typed_quantity_save (v : jsstring) (f : EditForm.t) (st : Page) (e : Item) :
  editing st = Some e ->
  let st' := saveEdit (EditForm.save (EditForm.changeQuantity v f)) st in
  whole (EditForm.quantity (EditForm.changeQuantity v f)) /\
  (items st' = items st \/
   ((forall it',
       In it' (items st') -> Item.id it' = Item.id e ->
       Item.quantity it' = typed_quantity v) /\
    valid_binary prec emax (typed_quantity v) = true /\
    exists z, num_to_Z (typed_quantity v) = Some z /\ (1 <= z)%Z)).
Proof.
  intros Hed. cbv zeta. split; [apply typed_quantity_whole|].
  unfold saveEdit. rewrite Hed.
  unfold nextName, nextQty, nextCat, EditForm.save, form_updates.
  cbn [Partial.name Partial.quantity Partial.category nullish
       EditForm.changeQuantity EditForm.name EditForm.quantity EditForm.category].
  destruct (negb (truthy (trim (EditForm.name f)))); [left; reflexivity|].
  destruct (negb (Number_isFinite (typed_quantity v))
            || num_leb (typed_quantity v) num_zero) eqn:G; [left; reflexivity|].
  right.
  destruct (whole_accepted _ (typed_quantity_whole v) G) as (F & V & Hz).
  rewrite F. split; [|split; assumption].
  intros it' Hin Hid. cbn [setEditing setItems items] in Hin.
  destruct (update_at_in _ _ _ _ Hin Hid) as (it & _ & _ & ->). reflexivity.
Qed.

Lemma typed_quantity_save_witness :
  let st := sample_page [bread; eggs] "" num_one "produce" (Some eggs) in
  let f := EditForm.changeQuantity (lit "6.5") (EditForm.init eggs) in
  typed_quantity (lit "6.5") = num_of_Z 6 /\
  items (saveEdit (EditForm.save f) st)
  = [bread; sample_item "id-eggs" "Eggs" 6 "dairy" true] /\
  whole (EditForm.quantity f).
Proof.
  intros st f.
  destruct (typed_quantity_save (lit "6.5") (EditForm.init eggs) st eggs eq_refl)
    as [W _].
  split; [reflexivity|]. split; [reflexivity | exact W].
Defined.

(** X14: while the state holds NaN as the quantity, the input shows 1, and
    an Add is refused all the same: the collection stays as it is and the
    error is the name message or the quantity message.  What the input shows
    is never NaN, and it is the quantity of the state in every other case. *)
Theorem nan_quantity_shown_as_one (fresh : jsstring) (now : number) (st : Page) :
  quantity st = S754_nan ->
  shown_quantity (quantity st) = num_one /\
  items (addItem fresh now st) = items st /\
  (error (addItem fresh now st) = Some msg_name_required \/
   error (addItem fresh now st) = Some msg_quantity) /\
  (forall q, shown_quantity q <> S754_nan /\
             (q <> S754_nan -> shown_quantity q = q)).
Proof.
  intros Q. split; [rewrite Q; reflexivity|].
  unfold addItem. rewrite Q.
  destruct (negb (truthy (trim (name st)))).
  - split; [reflexivity|]. split; [left; reflexivity|].
    intros q. destruct q; split; try discriminate; try reflexivity. congruence.
  - cbn. split; [reflexivity|]. split; [right; reflexivity|].
    intros q. destruct q; split; try discriminate; try reflexivity. congruence.
Qed.

Lemma nan_quantity_shown_as_one_witness :
  let st := changeQuantity (lit "abc")
              (sample_page [bread] "Milk" num_one "dairy" None) in
  quantity st = S754_nan /\
  shown_quantity (quantity st) = num_one /\
  items (addItem (lit "id-milk") sample_time st) = [bread] /\
  error (addItem (lit "id-milk") sample_time st) = Some msg_quantity.
Proof.
  intros st.
  destruct (nan_quantity_shown_as_one (lit "id-milk") sample_time st eq_refl)
    as (S & I & _ & _).
  split; [reflexivity|]. split; [exact S|]. split; [exact I | reflexivity].
Defined.

(** ** The edit dialog *)

(** X15: in a collection with distinct identifiers, opening the dialog on
    an item and saving at once, with nothing changed, leaves the collection
    as it is and ends the edit, when the name of the item is in trimmed
    form and its quantity is an integer from 1 upwards, as for every item
    Add or Save has stored. *)
Theorem save_unchanged_edit (st : Page) (it : Item) :
  NoDup (map Item.id (items st)) -> In it (items st) ->
  trim (Item.name it) = Item.name it -> name_quantity_ok it ->
  let st' := saveEdit (EditForm.save (EditForm.init it)) (startEdit it st) in
  items st' = items st /\ editing st' = None /\ error st' = error st.
Proof.
  intros ND Hin Ht (Hn & V & Hz). cbv zeta.
  destruct (ok_quantity_whole _ V Hz) as [W G].
  destruct (whole_accepted _ W G) as (F & _ & _).
  unfold saveEdit, startEdit. cbn [setEditing editing].
  unfold nextName, nextQty, nextCat, EditForm.save, EditForm.init, form_updates.
  cbn [Partial.name Partial.quantity Partial.category nullish
       EditForm.name EditForm.quantity EditForm.category].
  rewrite Ht in Hn. rewrite Ht, (truthy_nonempty _ Hn). simpl negb. cbv iota.
  rewrite G, F. cbn [setEditing setItems items editing error].
  split; [|split; reflexivity].
  destruct (update_at_split (Item.id it)
              (fun x => with_fields x (Item.name it) (Item.quantity it)
                                    (Item.category it))
              (items st) it ND Hin eq_refl) as (l1 & l2 & E & ->).
  rewrite E. destruct it; reflexivity.
Qed.

Lemma save_unchanged_edit_witness :
  let st := sample_page [bread; eggs] "" num_one "produce" None in
  items (saveEdit (EditForm.save (EditForm.init eggs)) (startEdit eggs st))
  = [bread; eggs].
Proof.
  intros st.
  assert (ND : NoDup (map Item.id (items st))).
  { repeat constructor; vm_compute; intuition discriminate. }
  assert (K : name_quantity_ok eggs).
  { split; [vm_compute; discriminate | split; [reflexivity|]].
    exists 12%Z. split; [reflexivity | lia]. }
  apply (save_unchanged_edit st eggs ND (or_intror (or_introl eq_refl))
           eq_refl K).
Defined.

(** ** The controls keep the data model *)

Lemma well_formed_whole (it : Item) : well_formed it -> whole (Item.quantity it).
Proof. intros (Q & _). apply integral_whole, name_quantity_integral, Q. Qed.

Lemma edited_fields (e : Item) (f : EditForm.t) :
  well_formed e -> edited e f ->
  whole (EditForm.quantity f) /\ In (EditForm.category f) category_values.
Proof.
  intros W H. induction H as [|v f _ IH|v f _ IH|v f Hv _ IH].
  - split; [apply well_formed_whole, W | apply W].
  - exact IH.
  - split; [apply typed_quantity_whole | apply IH].
  - split; [apply IH | exact Hv].
Qed.

Lemma perform_keeps_page_ok (a : action) (st : Page) :
  page_ok st -> offered st a -> page_ok (perform a st).
Proof.
  intros K O. pose proof K as (I & Q & C & E).
  assert (closed : forall e' : Item, @None Item = Some e' -> well_formed e')
    by (intros e' He'; discriminate He').
  destruct a as [v|v|v|fresh now|id|id|item|f| |open]; cbn [perform offered] in *.
  - exact K.
  - split; [exact I|]. split; [apply typed_quantity_whole|].
    split; [exact C | exact E].
  - split; [exact I|]. split; [exact Q|]. split; [exact O | exact E].
  - assert (A : Forall well_formed (items (addItem fresh now st)))
      by (apply addItem_well_formed; auto).
    revert A. unfold addItem.
    destruct (negb (truthy (trim (name st)))); [intros _; exact K|].
    destruct (negb (Number_isFinite (quantity st))
              || num_leb (quantity st) num_zero); [intros _; exact K|].
    destruct (negb (truthy (category st))); [intros _; exact K|].
    intros A. split; [exact A|]. split; [split; [reflexivity | discriminate]|].
    split; [vm_compute; tauto | exact E].
  - split; [apply toggleCompleted_well_formed, I|].
    split; [exact Q|]. split; [exact C | exact E].
  - split; [apply removeItem_well_formed, I|].
    split; [exact Q|]. split; [exact C | exact E].
  - split; [exact I|]. split; [exact Q|]. split; [exact C|].
    intros e He. cbn in He. injection He as <-.
    rewrite Forall_forall in I. apply I, O.
  - destruct O as (e & He & Hf).
    destruct (edited_fields e f (E e He) Hf) as [Wf Cf].
    assert (A : Forall well_formed (items (saveEdit (EditForm.save f) st)))
      by (apply (saveEdit_well_formed _ st e);
          [exact I | exact He | left; exact Wf | exact Cf]).
    revert A. unfold saveEdit. rewrite He.
    destruct (negb (truthy (trim (nextName (EditForm.save f) e))));
      [intros _; exact K|].
    destruct (negb (Number_isFinite (nextQty (EditForm.save f) e))
              || num_leb (nextQty (EditForm.save f) e) num_zero);
      [intros _; exact K|].
    intros A. split; [exact A|]. split; [exact Q|]. split; [exact C | exact closed].
  - split; [exact I|]. split; [exact Q|]. split; [exact C | exact closed].
  - destruct open; cbn [onOpenChange negb]; [exact K|].
    split; [exact I|]. split; [exact Q|]. split; [exact C | exact closed].
Qed.

Lemma run_keeps_page_ok (acts : list action) (st : Page) :
  page_ok st -> offered_all st acts -> page_ok (run acts st).
Proof.
  revert st. induction acts as [|a rest IH]; intros st K O; [exact K|].
  destruct O as [Oa Or]. cbn [run]. apply IH; [|exact Or].
  apply perform_keeps_page_ok; assumption.
Qed.

(** X16: whatever the user does with the controls of the page, in any
    order (typing a name or a quantity, picking a category, Add, ticking a
    checkbox, Delete, Edit, changing the fields of the dialog, Save,
    Cancel, closing the dialog), every item stays well formed: a name that
    is not blank, a quantity that is an integer from 1 upwards, a category
    of the nine and a creation time that is an integer.  This holds from
    the state of the first render, and from every state whose items are
    well formed and whose add form holds a quantity without a fraction and
    a category of the nine. *)
Theorem controls_keep_well_formed :
  (forall acts,
     offered_all (initial []) acts ->
     Forall well_formed (items (run acts (initial [])))) /\
  (forall acts st,
     page_ok st -> offered_all st acts -> page_ok (run acts st)).
Proof.
  split; [|intros acts st; apply run_keeps_page_ok].
  intros acts O. apply (run_keeps_page_ok acts (initial [])); [|exact O].
  split; [constructor|]. split; [split; [reflexivity | discriminate]|].
  split; [vm_compute; tauto | discriminate].
Qed.

Lemma controls_keep_well_formed_witness :
  let tea := sample_item "id-tea" "Tea" 3 "pantry" false in
  let acts :=
    [TypeName (lit "  Tea "); TypeQuantity (lit "3.7"); PickCategory (lit "pantry");
     ClickAdd (lit "id-tea") sample_time;
     TypeQuantity (lit "0.5"); TypeName (lit "Salt");
     ClickAdd (lit "id-salt") sample_time;
     ClickEdit tea;
     ClickSave (EditForm.changeQuantity (lit "5") (EditForm.init tea))] in
  items (run acts (initial [])) = [sample_item "id-tea" "Tea" 5 "pantry" false] /\
  Forall well_formed (items (run acts (initial []))).
Proof.
  intros tea acts. split; [reflexivity|].
  destruct controls_keep_well_formed as [A _]. apply A.
  assert (T : integral sample_time) by (split; [reflexivity | discriminate]).
  cbn [acts offered_all offered].
  split; [exact I|]. split; [exact I|]. split; [vm_compute; tauto|].
  split; [exact T|]. split; [exact I|]. split; [exact I|]. split; [exact T|].
  split; [left; reflexivity|]. split; [|exact I].
  exists tea. split; [reflexivity|]. apply edited_quantity, edited_init.
Defined.

(** X17: what the controls of the page leave in the collection can always
    be loaded back: the text Persist writes for it parses, to the array of
    the same items, and a Load of that text makes this array the
    collection. *)
Theorem controls_then_persist_load (acts : list action) (st : Page)
        (stored : option jsstring) (start : PageState value) :
  page_ok st -> offered_all st acts ->
  let st' := run acts st in
  JSON_parse (persisted_text (items st')) = Some (encode_items (items st')) /\
  items (load_effect (Return (persist_effect true st' stored)) start)
  = encode_items (items st') /\
  error (load_effect (Return (persist_effect true st' stored)) start)
  = error start.
Proof.
  intros K O. cbv zeta.
  destruct (run_keeps_page_ok acts st K O) as (W & _).
  assert (P : JSON_parse (persisted_text (items (run acts st)))
              = Some (encode_items (items (run acts st))))
    by (apply JSON_parse_stringify, encode_items_safe, W).
  split; [exact P|]. unfold persist_effect, load_effect. rewrite P.
  assert (T : truthy (persisted_text (items (run acts st))) = true) by reflexivity.
  rewrite T. split; reflexivity.
Qed.

Lemma controls_then_persist_load_witness :
  let st := sample_page [bread; eggs] "Milk" (num_of_Z 2) "dairy" None in
  let acts := [ClickAdd (lit "id-milk") sample_time; ClickCheckbox (lit "id-bread")] in
  items (load_effect (Return (persist_effect true (run acts st) None))
                     (initial (VArr [])))
  = encode_items (items (run acts st)) /\
  map Item.name (items (run acts st)) = [lit "Milk"; lit "Bread"; lit "Eggs"].
Proof.
  intros st acts.
  assert (K : page_ok st).
  { split; [exact sample_items_well_formed|].
    split; [split; [reflexivity | discriminate]|].
    split; [vm_compute; tauto | discriminate]. }
  assert (O : offered_all st acts).
  { split; [split; [reflexivity | discriminate]|]. split; exact I. }
  destruct (controls_then_persist_load acts st None (initial (VArr [])) K O)
    as (_ & L & _).
  split; [exact L | reflexivity].
Defined.

(** ** The first render *)

(** X18: on the first render the persist effect runs with the empty
    collection before the timer of the load effect reads the store.  With a
    store that can be written, whatever was stored is replaced by the text
    of the empty array, and the page comes up with an empty collection and
    no error: a collection saved earlier is not loaded.  Only when the write
    throws does the timer read what was stored, and then a saved collection
    of well-formed items becomes the collection. *)
Theorem first_render_forgets_stored (stored : option jsstring) (l : list Item) :
  first_render true stored
  = (setLoading false (initial (VArr [])), Some (lit "[]")) /\
  (Forall well_formed l ->
   first_render false (Some (persisted_text l))
   = (setLoading false (setItems (fun _ => encode_items l) (initial (VArr []))),
      Some (persisted_text l))).
Proof.
  split; [reflexivity|]. intros W.
  unfold first_render, persist_effect, load_effect.
  assert (P : JSON_parse (persisted_text l) = Some (encode_items l))
    by (apply JSON_parse_stringify, encode_items_safe, W).
  rewrite P.
  assert (T : truthy (persisted_text l) = true) by reflexivity.
  rewrite T. reflexivity.
Qed.

Lemma first_render_forgets_stored_witness :
  let saved := Some (persisted_text [bread; eggs]) in
  items (fst (first_render true saved)) = VArr [] /\
  snd (first_render true saved) = Some (lit "[]") /\
  items (fst (first_render false saved)) = encode_items [bread; eggs].
Proof.
  intros saved. subst saved.
  destruct (first_render_forgets_stored (Some (persisted_text [bread; eggs]))
              [bread; eggs]) as [A B].
  rewrite A, (B sample_items_well_formed).
  split; [reflexivity|]. split; reflexivity.
Defined.

(** ** A stored value that is no array of items *)

Lemma count_remaining_null (l : list value) :
  In VNull l -> count_remaining l = Throw.
Proof.
  induction l as [|i l IH]; intros H; [destruct H|]. cbn [count_remaining].
  destruct H as [-> | H]; [reflexivity|].
  rewrite (IH H). destruct (read_completed i); reflexivity.
Qed.

(** X19: a stored text that parses to something else than an array (an
    object, a string, a number, true, false, null) becomes the collection
    with no error set, and the count of the remaining items then throws;
    so does the count on an array with a null among its elements.  Nothing
    in the page catches this. *)
Theorem loaded_value_breaks_count (raw : jsstring) (v : value)
        (start : PageState value) :
  raw <> [] -> JSON_parse raw = Some v ->
  let st := load_effect (Return (Some raw)) start in
  items st = v /\ error st = error start /\
  ((forall l, v <> VArr l) -> remainingCount_value (items st) = Throw) /\
  (forall l, v = VArr l -> In VNull l -> remainingCount_value (items st) = Throw).
Proof.
  intros Hne Hp. cbv zeta. unfold load_effect.
  rewrite (truthy_nonempty _ Hne), Hp. cbn [setLoading setItems items error].
  split; [reflexivity|]. split; [reflexivity|]. split.
  - intros Hv. destruct v; try reflexivity. exfalso. exact (Hv l eq_refl).
  - intros l -> Hin. apply count_remaining_null, Hin.
Qed.

Lemma loaded_value_breaks_count_witness :
  let st := load_effect (Return (Some (lit "{}"))) (initial (VArr [])) in
  let st' := load_effect (Return (Some (lit "[null]"))) (initial (VArr [])) in
  (error st = None /\ remainingCount_value (items st) = Throw) /\
  (error st' = None /\ remainingCount_value (items st') = Throw).
Proof.
  intros st st'.
  assert (N : lit "{}" <> []) by (vm_compute; discriminate).
  assert (N' : lit "[null]" <> []) by (vm_compute; discriminate).
  destruct (loaded_value_breaks_count (lit "{}") (VObj []) (initial (VArr [])) N
              eq_refl) as (_ & E & T & _).
  destruct (loaded_value_breaks_count (lit "[null]") (VArr [VNull])
              (initial (VArr [])) N' eq_refl) as (_ & E' & _ & T').
  split; split; [exact E | | exact E' |].
  - apply T. discriminate.
  - apply (T' [VNull] eq_refl). left. reflexivity.
Defined.

(** X20: on the array of the items of a collection, the count on values is
    the count on items: what [remainingCount] gives for a page is what the
    same expression gives on the objects the items are at run time. *)
Theorem count_of_encoded_items (st : Page) :
  remainingCount_value (encode_items (items st)) = Return (remainingCount st).
Proof.
  unfold remainingCount, encode_items. cbn [remainingCount_value].
  induction (items st) as [|it l IH]; cbn [map count_remaining filter];
    [reflexivity|].
  rewrite IH.
  change (read_completed (encode_item it))
    with (Return (A := option value) (Some (VBool (Item.completed it)))).
  cbn [to_boolean]. destruct (Item.completed it); reflexivity.
Qed.

(** ** What no control does *)

(** X21: the controls keep the names in trimmed form: when no name in the
    collection has white space at either end, none has after any control,
    since Add and Save store the trimmed name. *)
Theorem names_stay_trimmed (a : action) (st : Page) :
  Forall (fun it => trim (Item.name it) = Item.name it) (items st) ->
  Forall (fun it => trim (Item.name it) = Item.name it) (items (perform a st)).
Proof.
  intros H. destruct a as [v|v|v|fresh now|id|id|item|f| |open];
    cbn [perform]; try exact H.
  - unfold addItem.
    destruct (negb (truthy (trim (name st)))); [exact H|].
    destruct (negb (Number_isFinite (quantity st))
              || num_leb (quantity st) num_zero); [exact H|].
    destruct (negb (truthy (category st))); [exact H|].
    constructor; [apply trim_idempotent | exact H].
  - apply update_at_Forall; [|exact H]. intros it K. exact K.
  - unfold removeItem. cbn [setItems items].
    apply Forall_forall. intros it Hin. apply filter_In in Hin.
    rewrite Forall_forall in H. apply H, Hin.
  - unfold saveEdit. destruct (editing st) as [e|]; [|exact H].
    destruct (negb (truthy (trim (nextName (EditForm.save f) e)))); [exact H|].
    destruct (negb (Number_isFinite (nextQty (EditForm.save f) e))
              || num_leb (nextQty (EditForm.save f) e) num_zero); [exact H|].
    apply update_at_Forall; [|exact H]. intros it _. apply trim_idempotent.
  - destruct open; exact H.
Qed.

Lemma names_stay_trimmed_witness :
  let st := sample_page [bread; eggs] "  Oat milk  " num_one "dairy" None in
  map Item.name (items (perform (ClickAdd (lit "id-milk") sample_time) st))
  = [lit "Oat milk"; lit "Bread"; lit "Eggs"] /\
  Forall (fun it => trim (Item.name it) = Item.name it)
         (items (perform (ClickAdd (lit "id-milk") sample_time) st)).
Proof.
  intros st. split; [reflexivity|].
  apply (names_stay_trimmed (ClickAdd (lit "id-milk") sample_time) st).
  constructor; [reflexivity | constructor; [reflexivity | constructor]].
Defined.

(** X22: no control reorders the collection.  After a control the
    identifiers, in their order, are what they were, or what they were with
    one new identifier in front (an accepted Add), or what they were
    without the occurrences of one identifier (Delete). *)
Theorem controls_never_reorder (a : action) (st : Page) :
  let ids := map Item.id (items st) in
  let ids' := map Item.id (items (perform a st)) in
  ids' = ids \/
  (exists fresh, ids' = fresh :: ids) \/
  (exists id, ids' = filter (fun x => negb (str_eqb x id)) ids).
Proof.
  cbv zeta. destruct a as [v|v|v|fresh now|id|id|item|f| |open];
    cbn [perform]; try (left; reflexivity).
  - destruct (addItem_items fresh now st) as [-> | (n & q & c & ->)];
      [left; reflexivity|].
    right. left. exists fresh. reflexivity.
  - left. unfold toggleCompleted. cbn [setItems items].
    apply update_at_map. reflexivity.
  - right. right. exists id. unfold removeItem. cbn [setItems items].
    symmetry. apply List.filter_map_swap.
  - left. apply saveEdit_ids.
  - left. destruct open; reflexivity.
Qed.

(** ** [parseInt] on known inputs *)

Example parseInt_examples :
  parseInt10 (lit "42") = num_of_Z 42 /\
  parseInt10 (lit "  12px") = num_of_Z 12 /\
  parseInt10 (lit "3.99") = num_of_Z 3 /\
  parseInt10 (lit "1e3") = num_one /\
  parseInt10 (lit "0.5") = S754_zero false /\
  parseInt10 (lit "-0") = S754_zero true /\
  parseInt10 (lit "-7") = num_of_Z (-7) /\
  parseInt10 (lit "+7") = num_of_Z 7 /\
  parseInt10 (lit "0x1F") = S754_zero false /\
  parseInt10 (lit "abc") = S754_nan /\
  parseInt10 (lit "-") = S754_nan /\
  parseInt10 [] = S754_nan /\
  parseInt10 (lit "9007199254740993") = num_of_Z 9007199254740992 /\
  typed_quantity [] = num_one.
Proof. vm_compute. repeat split. Qed.
